(** * kdbus core: bus, namespace and metadata objects

    A shallow embedding of [bus.c], [ns.c] and [metadata.c].

    Conventions used throughout:
    - a C [u64]/[size_t] is a [Z] in [0, 2^64); arithmetic that can wrap is
      written with [u64];
    - a [char]/[u8] buffer is a [list Z] of values in [0, 256);
    - kernel objects live in finite maps indexed by their address, kernel
      lists ([struct list_head]) are Rocq lists of addresses;
    - an [int] return value is a [Z]; the errno constants are positive and
      the functions return their negation, as the C code does. *)

From Stdlib Require Import ZArith Lia Ascii String DecimalString.
From stdpp Require Import base numbers list option strings gmap.

Local Open Scope Z_scope.

(** ** errno values (include/uapi/asm-generic/errno*.h) *)
Module Errno.
Definition EPERM : Z := 1.
Definition ENOMEM : Z := 12.
Definition EFAULT : Z := 14.
Definition EEXIST : Z := 17.
Definition EINVAL : Z := 22.
Definition ENAMETOOLONG : Z := 36.
Definition EBADMSG : Z := 74.
Definition EMSGSIZE : Z := 90.
Definition EOPNOTSUPP : Z := 95.
Definition ENOTSUPP : Z := 524.
End Errno.
Import Errno.

(** ** Machine integers and byte buffers *)

Definition u64 (z : Z) : Z := z mod 2 ^ 64.

(** [ptrdiff_t]: the difference of two addresses, read as a signed 64-bit
    value. *)
Definition s64 (z : Z) : Z :=
  let w := u64 z in if w <? 2 ^ 63 then w else w - 2 ^ 64.

(** [#define KDBUS_ALIGN8(l) (((l) + 7) & ~7)] on a 64-bit operand. *)
Definition KDBUS_ALIGN8 (l : Z) : Z := Z.land (u64 (l + 7)) (Z.lnot 7).

(** [offsetof(struct kdbus_item, data)]: two [u64] fields, size and type. *)
Definition KDBUS_ITEM_HEADER_SIZE : Z := 16.

(** [#define KDBUS_ITEM_SIZE(s) KDBUS_ALIGN8((s) + KDBUS_ITEM_HEADER_SIZE)] *)
Definition KDBUS_ITEM_SIZE (s : Z) : Z :=
  KDBUS_ALIGN8 (u64 (s + KDBUS_ITEM_HEADER_SIZE)).

(** Little-endian encoding of the low [n] bytes of [v]. *)
Fixpoint le_encode (n : nat) (v : Z) : list Z :=
  match n with
  | O => []
  | S n' => v mod 256 :: le_encode n' (v / 256)
  end.

Fixpoint le_decode (bs : list Z) : Z :=
  match bs with
  | [] => 0
  | b :: bs' => b + 256 * le_decode bs'
  end.

Global Arguments le_encode : simpl never.
Global Arguments le_decode : simpl never.

(** [slice off len buf]: the [len] bytes at offset [off], when they all lie
    inside the buffer. *)
Definition slice (off len : Z) (buf : list Z) : option (list Z) :=
  if bool_decide (0 ≤ off ∧ 0 ≤ len ∧ off + len ≤ Z.of_nat (length buf))
  then Some (take (Z.to_nat len) (drop (Z.to_nat off) buf))
  else None.

Definition get_u64 (off : Z) (buf : list Z) : option Z :=
  le_decode <$> slice off 8 buf.

(** Overwrite the bytes at offset [off] with [bs]. *)
Definition blit (off : nat) (bs buf : list Z) : list Z :=
  take off buf ++ bs ++ drop (off + length bs) buf.

(** A C string: the characters before the terminating NUL. *)
Definition cstr (s : string) : list Z :=
  (λ c, Z.of_nat (nat_of_ascii c)) <$> list_ascii_of_string s.

(** ** Kernel memory seen through flat addresses

    The parser walks a kmalloc'ed object with raw pointer arithmetic.  An
    object is its address and its bytes; a load outside the object is an
    invalid access. *)

Record kobj := { ko_addr : Z; ko_bytes : list Z }.

Definition load_u64 (o : kobj) (p : Z) : option Z :=
  get_u64 (p - ko_addr o) (ko_bytes o).

Definition load_u8 (o : kobj) (p : Z) : option Z :=
  if bool_decide (0 ≤ p - ko_addr o) then ko_bytes o !! Z.to_nat (p - ko_addr o)
  else None.

(** Pointer arithmetic on a 64-bit machine. *)
Definition ptr_add (p n : Z) : Z := u64 (p + n).
Definition ptr_diff (p q : Z) : Z := s64 (p - q).

(** Outcome of one step of C code that can leave the function early:
    [Go a] falls through with [a], [Fail ret] is [ret = ...; goto out_err]
    (or a [return]), [Oops] an invalid memory access. *)
Inductive step (A : Type) : Type :=
  | Go (a : A)
  | Fail (ret : Z)
  | Oops.
Arguments Go {A} a.
Arguments Fail {A} ret.
Arguments Oops {A}.

Global Instance step_bind : MBind step := λ A B k m,
  match m with
  | Go a => k a
  | Fail r => Fail r
  | Oops => Oops
  end.

(** A load that traps when it leaves the object. *)
Definition deref {A} (o : option A) : step A :=
  match o with Some a => Go a | None => Oops end.

(** [if (!c) { ret = r; goto out_err; }] *)
Definition require (c : bool) (r : Z) : step unit :=
  if c then Go () else Fail r.

(** ** bus.c: the make-bus command parser *)
Module BusMake.

(** Modelled from the spec: [sizeof(struct kdbus_cmd_bus_make)] and its
    field offsets come from kdbus.h, which is not part of the sources; the
    frame layout of the spec is [size] at 0, [flags] at 8, [bloom_size] at
    16 and the items from 24 on. *)
Definition sizeof_kdbus_cmd_bus_make : Z := 24.
Definition offsetof_size : Z := 0.
Definition offsetof_flags : Z := 8.
Definition offsetof_bloom_size : Z := 16.
Definition offsetof_items : Z := 24.

(** Modelled from the spec: [KDBUS_IS_ALIGNED8] is a macro of the internal
    header; the spec reads it as "8-byte aligned". *)
Definition KDBUS_IS_ALIGNED8 (v : Z) : bool := bool_decide (Z.land v 7 = 0).

(** Modelled from the spec: [kdbus_validate_nul(s, l)] is a helper of the
    internal header; "the payload is a valid NUL-terminated string": the
    [l] bytes at [s] hold their first NUL in the last position.  The scan
    stops at the first NUL, and traps if it leaves the object before. *)
Fixpoint memchr_nul (o : kobj) (s : Z) (l : nat) : step (option Z) :=
  match l with
  | O => Go None
  | S l' =>
      c ← deref (load_u8 o s);
      if bool_decide (c = 0) then Go (Some s)
      else memchr_nul o (ptr_add s 1) l'
  end.

Definition kdbus_validate_nul (o : kobj) (s l : Z) : step bool :=
  if bool_decide (0 < l) then
    r ← memchr_nul o s (Z.to_nat l);
    Go (bool_decide (r = Some (ptr_add s (l - 1))))
  else Go false.

(** The fields of [struct kdbus_cmd_bus_kmake] in front of the copied
    frame: [name] points into the frame, [NULL] is [None]. *)
Record kmake_head := { km_name : option Z; km_cgroup_id : Z }.

(** The parsed command: the head fields and the frame [make]. *)
Record kdbus_cmd_bus_kmake := { km_head : kmake_head; km_make : kobj }.

Section Parser.
(** The item types of [enum kdbus_cmd_make_item_type] (kdbus.h).  They
    are labels of one [switch], hence distinct. *)
Variables KDBUS_CMD_MAKE_NAME KDBUS_CMD_MAKE_CGROUP : Z.

(** The body of the [KDBUS_ITEM_FOREACH] loop for the item at [item]. *)
Definition make_item (make : kobj) (km : kmake_head) (item : Z)
  : step kmake_head :=
  size ← deref (load_u64 make item);
  (* empty data records are invalid *)
  require (negb (bool_decide (size ≤ KDBUS_ITEM_HEADER_SIZE))) (- EINVAL);;
  type ← deref (load_u64 make (ptr_add item 8));
  if bool_decide (type = KDBUS_CMD_MAKE_NAME) then
    require (negb (bool_decide (is_Some (km_name km)))) (- EEXIST);;
    require (negb (bool_decide (size < KDBUS_ITEM_HEADER_SIZE + 2)))
      (- EINVAL);;
    require (negb (bool_decide (KDBUS_ITEM_HEADER_SIZE + 64 < size)))
      (- ENAMETOOLONG);;
    ok ← kdbus_validate_nul make (ptr_add item KDBUS_ITEM_HEADER_SIZE)
           (u64 (size - KDBUS_ITEM_HEADER_SIZE));
    require ok (- EINVAL);;
    Go {| km_name := Some (ptr_add item KDBUS_ITEM_HEADER_SIZE);
          km_cgroup_id := km_cgroup_id km |}
  else if bool_decide (type = KDBUS_CMD_MAKE_CGROUP) then
    require (bool_decide (km_cgroup_id km = 0)) (- EEXIST);;
    d ← deref (load_u64 make (ptr_add item KDBUS_ITEM_HEADER_SIZE));
    Go {| km_name := km_name km; km_cgroup_id := d |}
  else Fail (- ENOTSUPP).

(** [KDBUS_ITEM_NEXT(item)] *)
Definition KDBUS_ITEM_NEXT (make : kobj) (item : Z) : step Z :=
  size ← deref (load_u64 make item);
  Go (ptr_add item (KDBUS_ALIGN8 size)).

(** How the [KDBUS_ITEM_FOREACH] loop ends: normally, with the head
    fields and the final cursor; by a [goto out_err]; by an invalid
    access; or not within [fuel] iterations. *)
Inductive loop_end :=
  | LoopDone (km : kmake_head) (item : Z)
  | LoopErr (ret : Z)
  | LoopOops
  | LoopFuel.

(** [KDBUS_ITEM_FOREACH(item, head)]: start at [head->items], run while
    the address [item] is below [head + head->size], step with
    [KDBUS_ITEM_NEXT]. *)
Fixpoint item_foreach (fuel : nat) (make : kobj) (km : kmake_head)
    (item : Z) : loop_end :=
  match fuel with
  | O => LoopFuel
  | S fuel' =>
      match load_u64 make (ptr_add (ko_addr make) offsetof_size) with
      | None => LoopOops
      | Some hsize =>
          if bool_decide (item < ptr_add (ko_addr make) hsize) then
            match make_item make km item with
            | Go km' =>
                match KDBUS_ITEM_NEXT make item with
                | Go item' => item_foreach fuel' make km' item'
                | Fail r => LoopErr r
                | Oops => LoopOops
                end
            | Fail r => LoopErr r
            | Oops => LoopOops
            end
          else LoopDone km item
      end
  end.

(** What the call finds outside the function: the bytes readable at the
    user pointer [buf], the address kmalloc returns for [km->make]
    ([None] when it fails) and the uninitialised bytes of the object
    behind the copied frame. *)
Record make_env := {
  user_buf : list Z;
  kmalloc_make : option Z;
  kmalloc_slack : list Z;
}.

(** What the call does: return [ret], with [*kmake] when it was
    assigned; trap; or not leave the loop within [fuel] iterations. *)
Inductive outcome :=
  | Return (ret : Z) (kmake : option kdbus_cmd_bus_kmake)
  | Trap
  | NoReturn.

(** The checks behind the loop. *)
Definition make_checks (make : kobj) (km : kmake_head) (item : Z)
  : outcome :=
  match load_u64 make (ptr_add (ko_addr make) offsetof_size) with
  | None => Trap
  | Some hsize =>
      (* expect correct padding and size values *)
      if bool_decide (8 ≤ ptr_diff item (ptr_add (ko_addr make) hsize))
      then Return EINVAL None
      else if negb (bool_decide (is_Some (km_name km)))
      then Return (- EBADMSG) None
      else
        match load_u64 make (ptr_add (ko_addr make) offsetof_bloom_size) with
        | None => Trap
        | Some bloom_size =>
            if negb (KDBUS_IS_ALIGNED8 bloom_size)
            then Return (- EINVAL) None
            else if bool_decide (bloom_size < 8 ∨ 16 * 1024 < bloom_size)
            then Return (- EINVAL) None
            else Return 0 (Some {| km_head := km; km_make := make |})
        end
  end.

(** The first part of the function: fetch the size, allocate, copy the
    frame.  [memset] clears the head fields; the bytes behind the frame
    stay as kmalloc left them. *)
Definition copy_frame (env : make_env) : step kobj :=
  (* kdbus_size_get_user(size, buf, struct kdbus_cmd_bus_make) *)
  match get_u64 offsetof_size (user_buf env) with
  | None => Fail (- EFAULT)
  | Some size =>
      require (negb (bool_decide (size < sizeof_kdbus_cmd_bus_make
                                  ∨ 0xffff < size))) (- EMSGSIZE);;
      match kmalloc_make env with
      | None => Fail (- ENOMEM)
      | Some addr =>
          (* copy_from_user(&km->make, buf, size) *)
          match slice 0 size (user_buf env) with
          | None => Fail (- EFAULT)
          | Some frame =>
              Go {| ko_addr := addr; ko_bytes := frame ++ kmalloc_slack env |}
          end
      end
  end.

Definition km_zero : kmake_head := {| km_name := None; km_cgroup_id := 0 |}.

Definition first_item (make : kobj) : Z := ptr_add (ko_addr make) offsetof_items.

Definition kdbus_bus_make_user (fuel : nat) (env : make_env) : outcome :=
  match copy_frame env with
  | Fail ret => Return ret None
  | Oops => Trap
  | Go make =>
      match item_foreach fuel make km_zero (first_item make) with
      | LoopDone km item => make_checks make km item
      | LoopErr ret => Return ret None
      | LoopOops => Trap
      | LoopFuel => NoReturn
      end
  end.

End Parser.
End BusMake.


(** ** C strings

    A [char *] that is not [NULL] is a [string]: its characters up to the
    terminating NUL.  [NULL] is [None] where a pointer may be null. *)

Definition char_code (c : ascii) : Z := Z.of_nat (nat_of_ascii c).

Definition strlen (s : string) : Z := Z.of_nat (String.length s).

(** [strncmp(s1, s2, n)]: compare at most [n] characters as unsigned chars;
    the end of a string is its NUL. *)
Fixpoint strncmp (s1 s2 : string) (n : nat) {struct n} : Z :=
  match n with
  | O => 0
  | S n' =>
      match s1, s2 with
      | EmptyString, EmptyString => 0
      | EmptyString, String c2 _ => 0 - char_code c2
      | String c1 _, EmptyString => char_code c1 - 0
      | String c1 t1, String c2 t2 =>
          if Ascii.eqb c1 c2 then strncmp t1 t2 n'
          else char_code c1 - char_code c2
      end
  end.

(** [strcmp(s1, s2)] *)
Definition strcmp (s1 s2 : string) : Z :=
  strncmp s1 s2 (S (Nat.max (String.length s1) (String.length s2))).

(** The [%u] and [%llu] conversions of printf. *)
Definition fmt_u (v : Z) : string := NilEmpty.string_of_uint (N.to_uint (Z.to_N v)).

(** [snprintf(buf, size, ...)] keeps at most [size - 1] characters. *)
Fixpoint string_take (n : nat) (s : string) : string :=
  match n, s with
  | S n', String c t => String c (string_take n' t)
  | _, _ => EmptyString
  end.

(** [s] begins with [p]. *)
Fixpoint has_prefix (p s : string) : bool :=
  match p, s with
  | EmptyString, _ => true
  | String a p', String b s' => Ascii.eqb a b && has_prefix p' s'
  | String _ _, EmptyString => false
  end.

(** ** The object graph: namespaces and buses

    What the kernel does outside these files (device core, chrdev and idr
    bookkeeping, endpoints, the name registry, the log) is recorded as a
    trace of events, oldest first. *)

Inductive event :=
  | EvPrInfo (msg : string)
  | EvDeviceUnregister (dev : Z)
  | EvPutDevice (dev : Z)
  | EvIdrRemove (major : Z)
  | EvUnregisterChrdev (major : Z)
  | EvKfreeNs (ns : Z)
  | EvKfreeBus (bus : Z)
  | EvNameRegistryUnref (reg : option Z)
  | EvEpNew (bus : Z) (name : string) (mode uid gid policy_open : Z)
  | EvEpDisconnect (ep : Z)
  | EvEpUnref (ep : Z).

(** [struct kdbus_ns], the fields the code uses.  [ns_entry] is the
    membership in [namespace_list]. *)
Record kdbus_ns := {
  ns_kref : Z;
  ns_disconnected : bool;
  ns_id : Z;
  ns_name : option string;
  ns_devpath : option string;
  ns_parent : option Z;
  ns_major : Z;
  ns_dev : option Z;
  ns_bus_list : list Z;
  ns_bus_id_next : Z;
}.

(** [struct kdbus_bus]; [bus_entry] is the membership in the bus list of
    its namespace. *)
Record kdbus_bus := {
  bus_kref : Z;
  bus_disconnected : bool;
  bus_ns : Z;
  bus_id : Z;
  bus_name : option string;
  bus_flags : Z;
  bus_bloom_size : Z;
  bus_cgroup_id : Z;
  bus_conn_id_next : Z;
  bus_name_registry : option Z;
  bus_ep_list : list Z;
}.

(** The kernel state the two files share: the objects by address, the
    globals of ns.c, and the trace. *)
Record kstate := {
  ns_heap : gmap Z kdbus_ns;
  bus_heap : gmap Z kdbus_bus;
  namespace_list : list Z;
  kdbus_ns_id_next : Z;
  kdbus_ns_major_idr : gmap Z Z;
  trace : list event;
}.

Definition set_ns (a : Z) (n : kdbus_ns) (st : kstate) : kstate :=
  {| ns_heap := <[a := n]> (ns_heap st); bus_heap := bus_heap st;
     namespace_list := namespace_list st;
     kdbus_ns_id_next := kdbus_ns_id_next st;
     kdbus_ns_major_idr := kdbus_ns_major_idr st; trace := trace st |}.

Definition free_ns (a : Z) (st : kstate) : kstate :=
  {| ns_heap := delete a (ns_heap st); bus_heap := bus_heap st;
     namespace_list := namespace_list st;
     kdbus_ns_id_next := kdbus_ns_id_next st;
     kdbus_ns_major_idr := kdbus_ns_major_idr st;
     trace := trace st ++ [EvKfreeNs a] |}.

Definition set_bus (a : Z) (b : kdbus_bus) (st : kstate) : kstate :=
  {| ns_heap := ns_heap st; bus_heap := <[a := b]> (bus_heap st);
     namespace_list := namespace_list st;
     kdbus_ns_id_next := kdbus_ns_id_next st;
     kdbus_ns_major_idr := kdbus_ns_major_idr st; trace := trace st |}.

Definition free_bus (a : Z) (st : kstate) : kstate :=
  {| ns_heap := ns_heap st; bus_heap := delete a (bus_heap st);
     namespace_list := namespace_list st;
     kdbus_ns_id_next := kdbus_ns_id_next st;
     kdbus_ns_major_idr := kdbus_ns_major_idr st;
     trace := trace st ++ [EvKfreeBus a] |}.

Definition set_namespace_list (l : list Z) (st : kstate) : kstate :=
  {| ns_heap := ns_heap st; bus_heap := bus_heap st; namespace_list := l;
     kdbus_ns_id_next := kdbus_ns_id_next st;
     kdbus_ns_major_idr := kdbus_ns_major_idr st; trace := trace st |}.

Definition set_ns_id_next (v : Z) (st : kstate) : kstate :=
  {| ns_heap := ns_heap st; bus_heap := bus_heap st;
     namespace_list := namespace_list st; kdbus_ns_id_next := v;
     kdbus_ns_major_idr := kdbus_ns_major_idr st; trace := trace st |}.

Definition set_major_idr (m : gmap Z Z) (st : kstate) : kstate :=
  {| ns_heap := ns_heap st; bus_heap := bus_heap st;
     namespace_list := namespace_list st;
     kdbus_ns_id_next := kdbus_ns_id_next st;
     kdbus_ns_major_idr := m; trace := trace st |}.

Definition emit (evs : list event) (st : kstate) : kstate :=
  {| ns_heap := ns_heap st; bus_heap := bus_heap st;
     namespace_list := namespace_list st;
     kdbus_ns_id_next := kdbus_ns_id_next st;
     kdbus_ns_major_idr := kdbus_ns_major_idr st;
     trace := trace st ++ evs |}.

(** The list without the entry [a]. *)
Definition list_without (a : Z) (l : list Z) : list Z :=
  filter (λ x, x ≠ a) l.

(** [list_del(&x->entry)]: the entry leaves the list [l] it is on.  An
    entry that is on no list has null links (a kzalloc'ed object that was
    never linked) or poisoned ones (an earlier [list_del]); unlinking it
    dereferences them, an invalid access. *)
Definition list_del (a : Z) (l : list Z) : option (list Z) :=
  if bool_decide (a ∈ l) then Some (list_without a l) else None.

(** [list_add_tail(&x->entry, &head)] *)
Definition list_add_tail (a : Z) (l : list Z) : list Z := l ++ [a].

(** [printf("%s", p)] prints a null pointer as "(null)". *)
Definition fmt_s (s : option string) : string := default "(null)"%string s.

(** ** ns.c *)
Module Ns.

(** [KDBUS_CHAR_MAJOR], the static major of the initial namespace, is a
    constant of the internal header. *)
Class ns_config := { KDBUS_CHAR_MAJOR : Z }.

(** What one call of [kdbus_ns_new] gets from the allocator, the chrdev
    layer, the idr and the device core. *)
Record ns_env := {
  kzalloc_ns : option Z;        (* kzalloc(sizeof(struct kdbus_ns)) *)
  kstrdup_name : bool;          (* kstrdup(name) succeeds *)
  kstrdup_devpath : bool;       (* kstrdup/kasprintf of devpath succeeds *)
  register_chrdev : Z;          (* its return value *)
  idr_alloc : Z;                (* its return value *)
  kzalloc_dev : option Z;       (* kzalloc(sizeof(struct device)) *)
  device_register : Z;          (* its return value *)
}.

(** [kzalloc] hands out a zeroed object. *)
Definition ns_zero : kdbus_ns :=
  {| ns_kref := 0; ns_disconnected := false; ns_id := 0; ns_name := None;
     ns_devpath := None; ns_parent := None; ns_major := 0; ns_dev := None;
     ns_bus_list := []; ns_bus_id_next := 0 |}.

Definition with_kref (v : Z) (n : kdbus_ns) : kdbus_ns :=
  {| ns_kref := v; ns_disconnected := ns_disconnected n; ns_id := ns_id n;
     ns_name := ns_name n; ns_devpath := ns_devpath n;
     ns_parent := ns_parent n; ns_major := ns_major n; ns_dev := ns_dev n;
     ns_bus_list := ns_bus_list n; ns_bus_id_next := ns_bus_id_next n |}.

Definition with_disconnected (v : bool) (n : kdbus_ns) : kdbus_ns :=
  {| ns_kref := ns_kref n; ns_disconnected := v; ns_id := ns_id n;
     ns_name := ns_name n; ns_devpath := ns_devpath n;
     ns_parent := ns_parent n; ns_major := ns_major n; ns_dev := ns_dev n;
     ns_bus_list := ns_bus_list n; ns_bus_id_next := ns_bus_id_next n |}.

Definition with_id (v : Z) (n : kdbus_ns) : kdbus_ns :=
  {| ns_kref := ns_kref n; ns_disconnected := ns_disconnected n; ns_id := v;
     ns_name := ns_name n; ns_devpath := ns_devpath n;
     ns_parent := ns_parent n; ns_major := ns_major n; ns_dev := ns_dev n;
     ns_bus_list := ns_bus_list n; ns_bus_id_next := ns_bus_id_next n |}.

Definition with_name (v : option string) (n : kdbus_ns) : kdbus_ns :=
  {| ns_kref := ns_kref n; ns_disconnected := ns_disconnected n;
     ns_id := ns_id n; ns_name := v; ns_devpath := ns_devpath n;
     ns_parent := ns_parent n; ns_major := ns_major n; ns_dev := ns_dev n;
     ns_bus_list := ns_bus_list n; ns_bus_id_next := ns_bus_id_next n |}.

Definition with_devpath (v : option string) (n : kdbus_ns) : kdbus_ns :=
  {| ns_kref := ns_kref n; ns_disconnected := ns_disconnected n;
     ns_id := ns_id n; ns_name := ns_name n; ns_devpath := v;
     ns_parent := ns_parent n; ns_major := ns_major n; ns_dev := ns_dev n;
     ns_bus_list := ns_bus_list n; ns_bus_id_next := ns_bus_id_next n |}.

Definition with_parent (v : option Z) (n : kdbus_ns) : kdbus_ns :=
  {| ns_kref := ns_kref n; ns_disconnected := ns_disconnected n;
     ns_id := ns_id n; ns_name := ns_name n; ns_devpath := ns_devpath n;
     ns_parent := v; ns_major := ns_major n; ns_dev := ns_dev n;
     ns_bus_list := ns_bus_list n; ns_bus_id_next := ns_bus_id_next n |}.

Definition with_major (v : Z) (n : kdbus_ns) : kdbus_ns :=
  {| ns_kref := ns_kref n; ns_disconnected := ns_disconnected n;
     ns_id := ns_id n; ns_name := ns_name n; ns_devpath := ns_devpath n;
     ns_parent := ns_parent n; ns_major := v; ns_dev := ns_dev n;
     ns_bus_list := ns_bus_list n; ns_bus_id_next := ns_bus_id_next n |}.

Definition with_dev (v : option Z) (n : kdbus_ns) : kdbus_ns :=
  {| ns_kref := ns_kref n; ns_disconnected := ns_disconnected n;
     ns_id := ns_id n; ns_name := ns_name n; ns_devpath := ns_devpath n;
     ns_parent := ns_parent n; ns_major := ns_major n; ns_dev := v;
     ns_bus_list := ns_bus_list n; ns_bus_id_next := ns_bus_id_next n |}.

Definition with_bus_list (v : list Z) (n : kdbus_ns) : kdbus_ns :=
  {| ns_kref := ns_kref n; ns_disconnected := ns_disconnected n;
     ns_id := ns_id n; ns_name := ns_name n; ns_devpath := ns_devpath n;
     ns_parent := ns_parent n; ns_major := ns_major n; ns_dev := ns_dev n;
     ns_bus_list := v; ns_bus_id_next := ns_bus_id_next n |}.

Definition with_bus_id_next (v : Z) (n : kdbus_ns) : kdbus_ns :=
  {| ns_kref := ns_kref n; ns_disconnected := ns_disconnected n;
     ns_id := ns_id n; ns_name := ns_name n; ns_devpath := ns_devpath n;
     ns_parent := ns_parent n; ns_major := ns_major n; ns_dev := ns_dev n;
     ns_bus_list := ns_bus_list n; ns_bus_id_next := v |}.

(** The functions below return [None] when they dereference a pointer to
    no object. *)

Definition kdbus_ns_ref (ns : Z) (st : kstate) : option kstate :=
  n ← ns_heap st !! ns;
  Some (set_ns ns (with_kref (ns_kref n + 1) n) st).

Definition kdbus_ns_disconnect (ns : Z) (st : kstate) : option kstate :=
  n ← ns_heap st !! ns;
  if ns_disconnected n then Some st
  else
    let n1 := with_disconnected true n in
    l ← list_del ns (namespace_list st);
    let st1 := set_namespace_list l st in
    let '(n2, st2) :=
      match ns_dev n1 with
      | Some dev => (with_dev None n1, emit [EvDeviceUnregister dev] st1)
      | None => (n1, st1)
      end in
    let '(n3, st3) :=
      if bool_decide (0 < ns_major n2) then
        (with_major 0 n2,
         emit [EvIdrRemove (ns_major n2); EvUnregisterChrdev (ns_major n2)]
           (set_major_idr (delete (ns_major n2) (kdbus_ns_major_idr st2)) st2))
      else (n2, st2) in
    Some (emit [EvPrInfo ("closing namespace " +:+ fmt_s (ns_devpath n3))]
            (set_ns ns n3 st3)).

Definition __kdbus_ns_free (ns : Z) (st : kstate) : option kstate :=
  st1 ← kdbus_ns_disconnect ns st;
  n ← ns_heap st1 !! ns;
  Some (free_ns ns
          (emit [EvPrInfo ("clean up namespace " +:+ fmt_s (ns_devpath n))]
             st1)).

(** [kref_put(&ns->kref, __kdbus_ns_free)] *)
Definition kdbus_ns_unref (ns : Z) (st : kstate) : option kstate :=
  n ← ns_heap st !! ns;
  let st1 := set_ns ns (with_kref (ns_kref n - 1) n) st in
  if bool_decide (ns_kref n - 1 = 0) then __kdbus_ns_free ns st1
  else Some st1.

(** The loop of [kdbus_ns_find] over the entries [l] of the list: the
    address of the first entry with this parent and name. *)
Fixpoint ns_find_entry (heap : gmap Z kdbus_ns) (parent : option Z)
    (name : option string) (l : list Z) : option (option Z) :=
  match l with
  | [] => Some None
  | a :: l' =>
      n ← heap !! a;
      if negb (bool_decide (ns_parent n = parent))
      then ns_find_entry heap parent name l'
      else
        s1 ← ns_name n;
        s2 ← name;
        if negb (bool_decide (strcmp s1 s2 = 0))
        then ns_find_entry heap parent name l'
        else Some (Some a)
  end.

Definition kdbus_ns_find (parent : option Z) (name : option string)
    (st : kstate) : option (option Z * kstate) :=
  r ← ns_find_entry (ns_heap st) parent name (namespace_list st);
  match r with
  | None => Some (None, st)
  | Some a => st' ← kdbus_ns_ref a st; Some (Some a, st')
  end.

(** What [kdbus_ns_new] hands back: the returned [int] ([None] when the
    returned variable was never assigned), [*ns] when it was written, and
    the state. *)
Record ns_new_result := {
  nr_ret : option Z;
  nr_ns : option Z;
  nr_state : kstate;
}.

(** The labels [err_unlock:] and [ret:]. *)
Definition ns_new_fail (ret : option Z) (n : Z) (st : kstate)
  : option ns_new_result :=
  st' ← kdbus_ns_unref n st;
  Some {| nr_ret := ret; nr_ns := None; nr_state := st' |}.

Section NsNew.
Context `{ns_config}.

(** The second half of [kdbus_ns_new], from [mutex_lock] on; [ret] is the
    local variable as the first half left it. *)
Definition ns_new_register (env : ns_env) (n : Z) (ret : option Z)
    (st : kstate) : option ns_new_result :=
  o ← ns_heap st !! n;
  let i := idr_alloc env in
  if bool_decide (i ≤ 0) then ns_new_fail (Some (- EEXIST)) n st
  else
    let st1 := set_major_idr (<[i := n]> (kdbus_ns_major_idr st)) st in
    (* get id for this namespace *)
    let o1 := with_id (kdbus_ns_id_next st1) o in
    let st2 := set_ns n o1 (set_ns_id_next (u64 (kdbus_ns_id_next st1 + 1)) st1) in
    (* register control device for this namespace *)
    match kzalloc_dev env with
    | None => ns_new_fail ret n st2
    | Some dev =>
        let st3 := set_ns n (with_dev (Some dev) o1) st2 in
        let ret' := device_register env in
        if bool_decide (ret' < 0) then
          ns_new_fail (Some ret') n
            (set_ns n (with_dev None o1) (emit [EvPutDevice dev] st3))
        else
          let st4 :=
            set_namespace_list (list_add_tail n (namespace_list st3)) st3 in
          Some {| nr_ret := Some 0; nr_ns := Some n;
                  nr_state :=
                    emit [EvPrInfo ("created namespace " +:+
                                    fmt_u (ns_id o1) +:+ " '" +:+
                                    fmt_s (ns_devpath o1) +:+ "/'")] st4 |}
    end.

Definition kdbus_ns_new (env : ns_env) (parent : option Z)
    (name : option string) (mode : Z) (st : kstate)
  : option ns_new_result :=
  let st := emit [EvPrInfo ("kdbus_ns_new: " +:+ default "init"%string name)] st in
  if bool_decide ((is_Some parent ∧ name = None) ∨ (parent = None ∧ is_Some name))
  then Some {| nr_ret := Some (- EINVAL); nr_ns := None; nr_state := st |}
  else
    '(found, st) ← kdbus_ns_find parent name st;
    match found with
    | Some n =>
        st' ← kdbus_ns_unref n st;
        Some {| nr_ret := Some (- EEXIST); nr_ns := None; nr_state := st' |}
    | None =>
        match kzalloc_ns env with
        | None =>
            Some {| nr_ret := Some (- ENOMEM); nr_ns := None; nr_state := st |}
        | Some n =>
            if bool_decide (is_Some name) && negb (kstrdup_name env) then
              (* kfree(n) *)
              Some {| nr_ret := Some (- ENOMEM); nr_ns := None;
                      nr_state := emit [EvKfreeNs n] st |}
            else
              (* kref_init *)
              let o := with_kref 1 ns_zero in
              match parent with
              | None =>
                  (* initial namespace *)
                  if negb (kstrdup_devpath env) then
                    ns_new_fail (Some (- ENOMEM)) n (set_ns n o st)
                  else
                    let o := with_devpath (Some "kdbus"%string) o in
                    (* register static major to support module auto-loading *)
                    let ret := register_chrdev env in
                    if negb (bool_decide (ret = 0)) then
                      ns_new_fail (Some ret) n (set_ns n o st)
                    else
                      ns_new_register env n (Some ret)
                        (set_ns n (with_major KDBUS_CHAR_MAJOR o) st)
              | Some p =>
                  po ← ns_heap st !! p;
                  let o := with_parent parent o in
                  if negb (kstrdup_devpath env) then
                    ns_new_fail (Some (- ENOMEM)) n (set_ns n o st)
                  else
                    let o := with_devpath
                               (Some ("kdbus/ns/" +:+ fmt_s (ns_devpath po)
                                      +:+ "/" +:+ fmt_s name)) o in
                    (* get dynamic major *)
                    let o := with_major (register_chrdev env) o in
                    if bool_decide (ns_major o < 0) then
                      ns_new_fail (Some (ns_major o)) n (set_ns n o st)
                    else
                      ns_new_register env n None
                        (set_ns n (with_name name o) st)
              end
        end
    end.
End NsNew.
End Ns.

(** ** bus.c: bus objects *)
Module Bus.

(** [KDBUS_POLICY_OPEN] is a flag of kdbus.h. *)
Class bus_config := { KDBUS_POLICY_OPEN : Z }.

(** The fields of [struct kdbus_cmd_bus_kmake] that [kdbus_bus_new] reads;
    [name] is the C string at [bus_kmake->name]. *)
Record bus_kmake := {
  kmake_name : string;
  kmake_flags : Z;
  kmake_bloom_size : Z;
  kmake_cgroup_id : Z;
}.

(** What one call of [kdbus_bus_new] gets from outside. *)
Record bus_env := {
  from_kuid : Z;                    (* from_kuid(current_user_ns(), uid) *)
  kzalloc_bus : option Z;           (* kzalloc(sizeof(struct kdbus_bus)) *)
  kstrdup_name : bool;              (* kstrdup(bus_kmake->name) succeeds *)
  kdbus_name_registry_new : option Z;
  kdbus_ep_new : Z;                 (* its return value *)
  kdbus_ep_new_ep : Z;              (* the endpoint it links to b->ep_list *)
}.


Definition with_kref (v : Z) (b : kdbus_bus) : kdbus_bus :=
  {| bus_kref := v; bus_disconnected := bus_disconnected b;
     bus_ns := bus_ns b; bus_id := bus_id b; bus_name := bus_name b;
     bus_flags := bus_flags b; bus_bloom_size := bus_bloom_size b;
     bus_cgroup_id := bus_cgroup_id b;
     bus_conn_id_next := bus_conn_id_next b;
     bus_name_registry := bus_name_registry b;
     bus_ep_list := bus_ep_list b |}.

Definition with_disconnected (v : bool) (b : kdbus_bus) : kdbus_bus :=
  {| bus_kref := bus_kref b; bus_disconnected := v;
     bus_ns := bus_ns b; bus_id := bus_id b; bus_name := bus_name b;
     bus_flags := bus_flags b; bus_bloom_size := bus_bloom_size b;
     bus_cgroup_id := bus_cgroup_id b;
     bus_conn_id_next := bus_conn_id_next b;
     bus_name_registry := bus_name_registry b;
     bus_ep_list := bus_ep_list b |}.

Definition with_id (v : Z) (b : kdbus_bus) : kdbus_bus :=
  {| bus_kref := bus_kref b; bus_disconnected := bus_disconnected b;
     bus_ns := bus_ns b; bus_id := v; bus_name := bus_name b;
     bus_flags := bus_flags b; bus_bloom_size := bus_bloom_size b;
     bus_cgroup_id := bus_cgroup_id b;
     bus_conn_id_next := bus_conn_id_next b;
     bus_name_registry := bus_name_registry b;
     bus_ep_list := bus_ep_list b |}.

Definition with_name (v : option string) (b : kdbus_bus) : kdbus_bus :=
  {| bus_kref := bus_kref b; bus_disconnected := bus_disconnected b;
     bus_ns := bus_ns b; bus_id := bus_id b; bus_name := v;
     bus_flags := bus_flags b; bus_bloom_size := bus_bloom_size b;
     bus_cgroup_id := bus_cgroup_id b;
     bus_conn_id_next := bus_conn_id_next b;
     bus_name_registry := bus_name_registry b;
     bus_ep_list := bus_ep_list b |}.

Definition with_name_registry (v : option Z) (b : kdbus_bus) : kdbus_bus :=
  {| bus_kref := bus_kref b; bus_disconnected := bus_disconnected b;
     bus_ns := bus_ns b; bus_id := bus_id b; bus_name := bus_name b;
     bus_flags := bus_flags b; bus_bloom_size := bus_bloom_size b;
     bus_cgroup_id := bus_cgroup_id b;
     bus_conn_id_next := bus_conn_id_next b;
     bus_name_registry := v;
     bus_ep_list := bus_ep_list b |}.

Definition with_ep_list (v : list Z) (b : kdbus_bus) : kdbus_bus :=
  {| bus_kref := bus_kref b; bus_disconnected := bus_disconnected b;
     bus_ns := bus_ns b; bus_id := bus_id b; bus_name := bus_name b;
     bus_flags := bus_flags b; bus_bloom_size := bus_bloom_size b;
     bus_cgroup_id := bus_cgroup_id b;
     bus_conn_id_next := bus_conn_id_next b;
     bus_name_registry := bus_name_registry b;
     bus_ep_list := v |}.

Definition kdbus_bus_ref (bus : Z) (st : kstate) : option kstate :=
  b ← bus_heap st !! bus;
  Some (set_bus bus (with_kref (bus_kref b + 1) b) st).

(** The endpoint code is outside these files: its calls are events. *)
Definition ep_teardown (eps : list Z) : list event :=
  eps ≫= λ ep, [EvEpDisconnect ep; EvEpUnref ep].

Definition kdbus_bus_disconnect (bus : Z) (st : kstate) : option kstate :=
  b ← bus_heap st !! bus;
  if bus_disconnected b then Some st
  else
    let st1 := set_bus bus (with_disconnected true b) st in
    (* list_del(&bus->bus_entry): the entry is on the list of bus->ns *)
    n ← ns_heap st1 !! bus_ns b;
    l ← list_del bus (ns_bus_list n);
    let st2 := set_ns (bus_ns b) (Ns.with_bus_list l n) st1 in
    (* remove any endpoints attached to this bus *)
    let st3 := emit (ep_teardown (bus_ep_list b)) st2 in
    n ← ns_heap st3 !! bus_ns b;
    Some (emit [EvPrInfo ("closing bus " +:+ fmt_s (ns_devpath n) +:+ "/"
                          +:+ fmt_s (bus_name b))] st3).

Definition __kdbus_bus_free (bus : Z) (st : kstate) : option kstate :=
  b ← bus_heap st !! bus;
  let st1 := emit [EvNameRegistryUnref (bus_name_registry b)] st in
  st2 ← kdbus_bus_disconnect bus st1;
  n ← ns_heap st2 !! bus_ns b;
  Some (free_bus bus
          (emit [EvPrInfo ("clean up bus " +:+ fmt_s (ns_devpath n) +:+ "/"
                           +:+ fmt_s (bus_name b))] st2)).

(** [kref_put(&bus->kref, __kdbus_bus_free)] *)
Definition kdbus_bus_unref (bus : Z) (st : kstate) : option kstate :=
  b ← bus_heap st !! bus;
  let st1 := set_bus bus (with_kref (bus_kref b - 1) b) st in
  if bool_decide (bus_kref b - 1 = 0) then __kdbus_bus_free bus st1
  else Some st1.

(** The loop of [kdbus_bus_find] over the entries [l] of [ns->bus_list]. *)
Fixpoint bus_find_entry (heap : gmap Z kdbus_bus) (name : string)
    (l : list Z) : option (option Z) :=
  match l with
  | [] => Some None
  | a :: l' =>
      b ← heap !! a;
      s ← bus_name b;
      if negb (bool_decide (strcmp s name = 0))
      then bus_find_entry heap name l'
      else Some (Some a)
  end.

Definition kdbus_bus_find (ns : Z) (name : string) (st : kstate)
  : option (option Z * kstate) :=
  n ← ns_heap st !! ns;
  r ← bus_find_entry (bus_heap st) name (ns_bus_list n);
  match r with
  | None => Some (None, st)
  | Some a => st' ← kdbus_bus_ref a st; Some (Some a, st')
  end.

(** What [kdbus_bus_new] hands back: the returned [int], [*bus] when it
    was written, and the state. *)
Record bus_new_result := {
  br_ret : Z;
  br_bus : option Z;
  br_state : kstate;
}.

(** The label [ret:]. *)
Definition bus_new_fail (ret : Z) (b : Z) (st : kstate)
  : option bus_new_result :=
  st' ← kdbus_bus_unref b st;
  Some {| br_ret := ret; br_bus := None; br_state := st' |}.

(** [snprintf(prefix, sizeof(prefix), "%u-", from_kuid(...))] with
    [char prefix[16]]. *)
Definition uid_prefix (uid : Z) : string :=
  string_take 15 (fmt_u uid +:+ "-").

(** The comparison of a C expression as an [int]. *)
Definition c_bool (b : bool) : Z := if b then 1 else 0.

Section BusNew.
Context `{bus_config}.

Definition kdbus_bus_new (env : bus_env) (ns : Z) (bus_kmake : bus_kmake)
    (mode uid gid : Z) (st : kstate) : option bus_new_result :=
  (* enforce "$UID-" prefix *)
  let prefix := uid_prefix (from_kuid env) in
  if negb (bool_decide
             (strncmp (kmake_name bus_kmake) prefix
                (Z.to_nat (c_bool (negb (bool_decide (strlen prefix = 0)))))
              = 0))
  then Some {| br_ret := - EPERM; br_bus := None; br_state := st |}
  else
    '(found, st) ← kdbus_bus_find ns (kmake_name bus_kmake) st;
    match found with
    | Some b =>
        st' ← kdbus_bus_unref b st;
        Some {| br_ret := - EEXIST; br_bus := None; br_state := st' |}
    | None =>
        match kzalloc_bus env with
        | None =>
            Some {| br_ret := - ENOMEM; br_bus := None; br_state := st |}
        | Some b =>
            let o :=
              {| bus_kref := 1; bus_disconnected := false; bus_ns := ns;
                 bus_id := 0; bus_name := None;
                 bus_flags := kmake_flags bus_kmake;
                 bus_bloom_size := kmake_bloom_size bus_kmake;
                 bus_cgroup_id := kmake_cgroup_id bus_kmake;
                 (* connection 0 == kernel *)
                 bus_conn_id_next := 1;
                 bus_name_registry := None; bus_ep_list := [] |} in
            if negb (kstrdup_name env) then
              bus_new_fail (- ENOMEM) b (set_bus b o st)
            else
              let o := with_name (Some (kmake_name bus_kmake)) o in
              match kdbus_name_registry_new env with
              | None => bus_new_fail (- ENOMEM) b (set_bus b o st)
              | Some reg =>
                  let o := with_name_registry (Some reg) o in
                  let st :=
                    emit [EvEpNew b "bus" mode uid gid
                            (Z.land (bus_flags o) KDBUS_POLICY_OPEN)]
                      (set_bus b o st) in
                  let ret := kdbus_ep_new env in
                  if bool_decide (ret < 0) then bus_new_fail ret b st
                  else
                    let o := with_ep_list [kdbus_ep_new_ep env] o in
                    n ← ns_heap st !! ns;
                    let o := with_id (ns_bus_id_next n) o in
                    let n' :=
                      Ns.with_bus_list (list_add_tail b (ns_bus_list n))
                        (Ns.with_bus_id_next (u64 (ns_bus_id_next n + 1)) n) in
                    let st := set_ns ns n' (set_bus b o st) in
                    Some {| br_ret := 0; br_bus := Some b;
                            br_state :=
                              emit [EvPrInfo ("created bus " +:+
                                      fmt_u (bus_id o) +:+ " '" +:+
                                      fmt_s (ns_devpath n') +:+ "/" +:+
                                      fmt_s (bus_name o) +:+ "'")] st |}
              end
        end
    end.
End BusNew.
End Bus.

(** ** metadata.c *)
Module Meta.

(** Kernel constants. *)
Definition PAGE_SIZE : Z := 4096.
Definition KMALLOC_MAX_SIZE : Z := 2 ^ 22.
Definition _KERNEL_CAPABILITY_U32S : nat := 2.

(** The attach flags and item types of kdbus.h, the last capability of the
    kernel and the three configuration switches of the file. *)
Class kdbus_h := {
  KDBUS_ATTACH_TIMESTAMP : Z;
  KDBUS_ATTACH_CREDS : Z;
  KDBUS_ATTACH_AUXGROUPS : Z;
  KDBUS_ATTACH_NAMES : Z;
  KDBUS_ATTACH_COMM : Z;
  KDBUS_ATTACH_EXE : Z;
  KDBUS_ATTACH_CMDLINE : Z;
  KDBUS_ATTACH_CAPS : Z;
  KDBUS_ATTACH_CGROUP : Z;
  KDBUS_ATTACH_AUDIT : Z;
  KDBUS_ATTACH_SECLABEL : Z;
  KDBUS_ATTACH_CONN_NAME : Z;
  KDBUS_ITEM_TIMESTAMP : Z;
  KDBUS_ITEM_CREDS : Z;
  KDBUS_ITEM_AUXGROUPS : Z;
  KDBUS_ITEM_NAME : Z;
  KDBUS_ITEM_TID_COMM : Z;
  KDBUS_ITEM_PID_COMM : Z;
  KDBUS_ITEM_EXE : Z;
  KDBUS_ITEM_CMDLINE : Z;
  KDBUS_ITEM_CAPS : Z;
  KDBUS_ITEM_CGROUP : Z;
  KDBUS_ITEM_AUDIT : Z;
  KDBUS_ITEM_SECLABEL : Z;
  KDBUS_ITEM_CONN_NAME : Z;
  CAP_LAST_CAP : Z;
  CONFIG_CGROUPS : bool;
  CONFIG_AUDITSYSCALL : bool;
  CONFIG_SECURITY : bool;
}.

(** Modelled from the spec: the payload structs are declared in kdbus.h;
    the spec gives [kdbus_timestamp] as three [u64] (seqnum, monotonic_ns,
    realtime_ns), [kdbus_creds] as five (uid, gid, pid, tid, starttime),
    [kdbus_audit] as two (loginuid, sessionid); [kdbus_name] is a [u64]
    flag word in front of the string. *)
Definition sizeof_kdbus_timestamp : Z := 24.
Definition sizeof_kdbus_creds : Z := 40.
Definition sizeof_kdbus_audit : Z := 16.
Definition sizeof_kdbus_name : Z := 8.

(** [struct kdbus_meta] *)
Record kdbus_meta := {
  meta_pid_namespace : Z;
  meta_user_namespace : Z;
  meta_data : option (list Z);
  meta_size : Z;
  meta_allocated_size : Z;
  meta_attached : Z;
}.

Definition with_data (d : option (list Z)) (m : kdbus_meta) : kdbus_meta :=
  {| meta_pid_namespace := meta_pid_namespace m;
     meta_user_namespace := meta_user_namespace m;
     meta_data := d; meta_size := meta_size m;
     meta_allocated_size := meta_allocated_size m;
     meta_attached := meta_attached m |}.

Definition with_size (v : Z) (m : kdbus_meta) : kdbus_meta :=
  {| meta_pid_namespace := meta_pid_namespace m;
     meta_user_namespace := meta_user_namespace m;
     meta_data := meta_data m; meta_size := v;
     meta_allocated_size := meta_allocated_size m;
     meta_attached := meta_attached m |}.

Definition with_allocated_size (v : Z) (m : kdbus_meta) : kdbus_meta :=
  {| meta_pid_namespace := meta_pid_namespace m;
     meta_user_namespace := meta_user_namespace m;
     meta_data := meta_data m; meta_size := meta_size m;
     meta_allocated_size := v;
     meta_attached := meta_attached m |}.

Definition with_attached (v : Z) (m : kdbus_meta) : kdbus_meta :=
  {| meta_pid_namespace := meta_pid_namespace m;
     meta_user_namespace := meta_user_namespace m;
     meta_data := meta_data m; meta_size := meta_size m;
     meta_allocated_size := meta_allocated_size m;
     meta_attached := v |}.

(** The fields of [struct kdbus_conn] the file reads: the label and the
    owned names, each a flag word and a string. *)
Record kdbus_conn := {
  conn_name : option string;
  conn_names_list : list (Z * string);
}.

(** [struct mm_struct] of the calling task, as far as it is read: what
    [d_path] yields for the executable (an error, or the path bytes with
    their NUL, which end the page), the argument area and the bytes
    [copy_from_user] finds there. *)
Record mm_struct := {
  mm_exe_file : option (Z + list Z);
  mm_arg_start : Z;
  mm_arg_end : Z;
  mm_args : list Z;
}.

(** [current]: the calling task, ids already translated into its
    namespaces, and the clocks. *)
Record task := {
  monotonic_ns : Z;
  realtime_ns : Z;
  cur_uid : Z;
  cur_gid : Z;
  cur_pid : Z;
  cur_tgid : Z;
  start_time : Z;
  cur_groups : list Z;
  group_leader_comm : string;
  cur_comm : string;
  cur_mm : option mm_struct;
  cap_inheritable : list Z;
  cap_permitted : list Z;
  cap_effective : list Z;
  cap_bset : list Z;
  cgroup_path : option string;
  loginuid : Z;
  sessionid : Z;
  secctx_ret : Z;
  secctx_label : option (list Z);
  secctx_len : Z;
}.

(** The allocator is an oracle: the outcomes of the coming requests, in
    call order.  [None] is a refusal, [Some g] a grant whose object holds
    the bytes [g] (what kmalloc leaves uninitialised). *)
Definition mstate : Type := list (option (list Z)) * kdbus_meta.

(** A function of the file working on [*meta]; [None] is an invalid
    memory access. *)
Definition M (A : Type) : Type := mstate → option (A * mstate).

Global Instance M_ret : MRet M := λ A a s, Some (a, s).
Global Instance M_bind : MBind M := λ A B k f s,
  match f s with
  | Some (a, s') => k a s'
  | None => None
  end.

Definition get_meta : M kdbus_meta := λ s, Some (s.2, s).
Definition put_meta (m : kdbus_meta) : M unit := λ s, Some ((), (s.1, m)).
Definition trap {A} : M A := λ _, None.
Definition must {A} (o : option A) : M A :=
  match o with Some a => mret a | None => trap end.

Definition next_alloc : M (option (list Z)) := λ s,
  match s.1 with
  | [] => Some (None, s)
  | r :: w => Some (r, (w, s.2))
  end.

(** [kmalloc(size, GFP_KERNEL)]: refused above [KMALLOC_MAX_SIZE]. *)
Definition kmalloc (size : Z) : M (option (list Z)) :=
  r ← next_alloc;
  mret (g ← r;
        if bool_decide (size ≤ KMALLOC_MAX_SIZE)
        then Some (resize (Z.to_nat size) 0 g) else None).

(** [kzalloc(size, GFP_KERNEL)] *)
Definition kzalloc (size : Z) : M (option (list Z)) :=
  r ← next_alloc;
  mret (g ← r;
        if bool_decide (size ≤ KMALLOC_MAX_SIZE)
        then Some (replicate (Z.to_nat size) 0) else None).

(** [__get_free_page(GFP_TEMPORARY | __GFP_ZERO)] succeeds. *)
Definition get_free_page : M bool :=
  r ← next_alloc; mret (bool_decide (is_Some r)).

(** [roundup_pow_of_two(n)] of log2.h, for [n ≥ 1]. *)
Definition roundup_pow_of_two (n : Z) : Z := u64 (2 ^ Z.log2_up n).

(** A store of [bs] at offset [off] of the buffer, inside it. *)
Definition store (off : Z) (bs buf : list Z) : option (list Z) :=
  if bool_decide (0 ≤ off ∧ off + Z.of_nat (length bs) ≤ Z.of_nat (length buf))
  then Some (blit (Z.to_nat off) bs buf)
  else None.

(** A store through [meta->data]. *)
Definition meta_store (off : Z) (bs : list Z) : M unit :=
  m ← get_meta;
  buf ← must (meta_data m);
  buf' ← must (store off bs buf);
  put_meta (with_data (Some buf') m).

(** A store into the payload of the item at offset [item]:
    [item->data + k]. *)
Definition item_store (item k : Z) (bs : list Z) : M unit :=
  meta_store (item + KDBUS_ITEM_HEADER_SIZE + k) bs.

(** [ret = f(...); if (ret < 0) return ret;] followed by [k]. *)
Definition checked (f : M Z) (k : M Z) : M Z :=
  ret ← f; if bool_decide (ret < 0) then mret ret else k.

(** [if (c) { ret = f(...); if (ret < 0) return ret; }] followed by [k]. *)
Definition when_checked (c : bool) (f : M Z) (k : M Z) : M Z :=
  if c then checked f k else k.

Definition kdbus_meta_new (pid_ns user_ns : Z) (kzalloc_ok : bool)
  : Z * option kdbus_meta :=
  if kzalloc_ok then
    (0, Some {| meta_pid_namespace := pid_ns; meta_user_namespace := user_ns;
                meta_data := None; meta_size := 0;
                meta_allocated_size := 0; meta_attached := 0 |})
  else (- ENOMEM, None).

Definition kdbus_meta_ns_eq (meta_a meta_b : kdbus_meta) : bool :=
  bool_decide (meta_pid_namespace meta_a = meta_pid_namespace meta_b)
  && bool_decide (meta_user_namespace meta_a = meta_user_namespace meta_b).

(** The three blocks of [kdbus_meta_append_item].  The first two tell
    whether their allocation, if any, succeeded. *)

(** [if (!meta->data) { ... }]:
    get new metadata buffer, pre-allocate at least 512 bytes *)
Definition meta_first_alloc (extra_size : Z) : M bool :=
  m ← get_meta;
  match meta_data m with
  | None =>
      let size := roundup_pow_of_two (u64 (256 + extra_size)) in
      d ← kzalloc size;
      match d with
      | None => mret false
      | Some buf =>
          put_meta (with_allocated_size size (with_data (Some buf) m));;
          mret true
      end
  | Some _ => mret true
  end.

(** [size = meta->size + extra_size; if (size > meta->allocated_size) { ... }]:
    double the pre-allocated buffer size if needed *)
Definition meta_grow (extra_size : Z) : M bool :=
  m ← get_meta;
  let size := u64 (meta_size m + extra_size) in
  if bool_decide (meta_allocated_size m < size) then
    let size := roundup_pow_of_two size in
    let size_diff := u64 (size - meta_allocated_size m) in
    d ← kmalloc size;
    match d with
    | None => mret false
    | Some data =>
        old ← must (meta_data m);
        (* memcpy(data, meta->data, meta->size) *)
        bytes ← must (slice 0 (meta_size m) old);
        data ← must (store 0 bytes data);
        (* memset(data + meta->allocated_size, 0, size_diff) *)
        data ← must (store (meta_allocated_size m)
                       (replicate (Z.to_nat size_diff) 0) data);
        put_meta (with_allocated_size size (with_data (Some data) m));;
        mret true
    end
  else mret true.

(** insert new record *)
Definition meta_insert (type payload_size extra_size : Z) : M Z :=
  m ← get_meta;
  let item := meta_size m in
  meta_store (item + 8) (le_encode 8 type);;
  meta_store item (le_encode 8 (u64 (KDBUS_ITEM_HEADER_SIZE + payload_size)));;
  m ← get_meta;
  put_meta (with_size (u64 (meta_size m + extra_size)) m);;
  mret item.

(** Returns the offset of the new item in [meta->data], or the errno of
    [ERR_PTR]. *)
Definition kdbus_meta_append_item (type payload_size : Z) : M (Z + Z) :=
  let extra_size := KDBUS_ITEM_SIZE payload_size in
  ok ← meta_first_alloc extra_size;
  if negb ok then mret (inl (- ENOMEM)) else
  ok ← meta_grow extra_size;
  if negb ok then mret (inl (- ENOMEM)) else
  item ← meta_insert type payload_size extra_size;
  mret (inr item).

(** [data] is the object behind the pointer, [None] for [NULL]. *)
Definition kdbus_meta_append_data (type : Z) (data : option (list Z))
    (len : Z) : M Z :=
  if bool_decide (len = 0) then mret 0 else
  r ← kdbus_meta_append_item type len;
  match r with
  | inl err => mret err
  | inr item =>
      match data with
      | Some d => bytes ← must (slice 0 len d); item_store item 0 bytes
      | None => mret ()
      end;;
      mret 0
  end.

Definition kdbus_meta_append_str (type : Z) (str : string) : M Z :=
  kdbus_meta_append_data type (Some (cstr str ++ [0])) (u64 (strlen str + 1)).

Section Collect.
Context `{kdbus_h}.
(** [current] *)
Variable current : task.

Definition kdbus_meta_append_timestamp (seq : Z) : M Z :=
  r ← kdbus_meta_append_item KDBUS_ITEM_TIMESTAMP sizeof_kdbus_timestamp;
  match r with
  | inl err => mret err
  | inr item =>
      (if bool_decide (0 < seq) then item_store item 0 (le_encode 8 seq)
       else mret ());;
      item_store item 8 (le_encode 8 (monotonic_ns current));;
      item_store item 16 (le_encode 8 (realtime_ns current));;
      mret 0
  end.

Definition kdbus_meta_append_cred : M Z :=
  let creds :=
    le_encode 8 (cur_uid current) ++ le_encode 8 (cur_gid current) ++
    le_encode 8 (cur_pid current) ++ le_encode 8 (cur_tgid current) ++
    le_encode 8 (start_time current) in
  kdbus_meta_append_data KDBUS_ITEM_CREDS (Some creds) sizeof_kdbus_creds.

(** The loop [for (i = 0; i < info->ngroups; i++) gid[i] = ...] from
    index [i] on. *)
Fixpoint store_gids (item : Z) (i : Z) (gids : list Z) : M unit :=
  match gids with
  | [] => mret ()
  | g :: gids' =>
      item_store item (8 * i) (le_encode 8 g);;
      store_gids item (i + 1) gids'
  end.

Definition kdbus_meta_append_auxgroups : M Z :=
  let ngroups := Z.of_nat (length (cur_groups current)) in
  r ← kdbus_meta_append_item KDBUS_ITEM_AUXGROUPS (u64 (ngroups * 8));
  match r with
  | inl err => mret err
  | inr item => store_gids item 0 (cur_groups current);; mret 0
  end.

(** The loop of [kdbus_meta_append_src_names] over the entries left. *)
Fixpoint append_names (names : list (Z * string)) : M Z :=
  match names with
  | [] => mret 0
  | (flags, name) :: names' =>
      let len := u64 (strlen name + 1) in
      r ← kdbus_meta_append_item KDBUS_ITEM_NAME (u64 (sizeof_kdbus_name + len));
      match r with
      | inl err => mret err
      | inr item =>
          item_store item 0 (le_encode 8 flags);;
          item_store item 8 (cstr name ++ [0]);;
          append_names names'
      end
  end.

Definition kdbus_meta_append_src_names (conn : option kdbus_conn) : M Z :=
  match conn with
  | None => mret 0
  | Some c => append_names (conn_names_list c)
  end.

Definition kdbus_meta_append_exe : M Z :=
  match cur_mm current with
  | None => mret (- EFAULT)
  | Some mm =>
      match mm_exe_file mm with
      | None => mret 0
      | Some path =>
          page ← get_free_page;
          if negb page then mret (- ENOMEM) else
          match path with
          | inl err => mret err
          | inr pathname =>
              (* len = tmp + PAGE_SIZE - pathname *)
              let len := Z.of_nat (length pathname) in
              kdbus_meta_append_data KDBUS_ITEM_EXE (Some pathname) len
          end
      end
  end.

Definition kdbus_meta_append_cmdline : M Z :=
  page ← get_free_page;
  if negb page then mret (- ENOMEM) else
  match cur_mm current with
  | None => mret (- EFAULT)
  | Some mm =>
      if bool_decide (mm_arg_end mm = 0) then mret 0 else
      let len := u64 (mm_arg_end mm - mm_arg_start mm) in
      let len := if bool_decide (PAGE_SIZE < len) then PAGE_SIZE else len in
      (* copy_from_user into the zeroed page; it does not return < 0 *)
      let tmp := resize (Z.to_nat PAGE_SIZE) 0 (take (Z.to_nat len) (mm_args mm)) in
      kdbus_meta_append_data KDBUS_ITEM_CMDLINE (Some tmp) len
  end.

(** One capability set as [_KERNEL_CAPABILITY_U32S] words, the bits above
    [CAP_LAST_CAP] cleared in the word that holds it. *)
Definition cap_words (set : list Z) : list Z :=
  let words := resize _KERNEL_CAPABILITY_U32S 0 set in
  let idx := Z.to_nat (Z.shiftr CAP_LAST_CAP 5) in
  let mask := Z.shiftl 1 (Z.land (CAP_LAST_CAP + 1) 31) - 1 in
  alter (λ w, Z.land w mask) idx words.

Definition kdbus_meta_append_caps : M Z :=
  let cap :=
    [cap_inheritable current; cap_permitted current;
     cap_effective current; cap_bset current]
      ≫= λ set, cap_words set ≫= le_encode 4 in
  kdbus_meta_append_data KDBUS_ITEM_CAPS (Some cap)
    (Z.of_nat (4 * _KERNEL_CAPABILITY_U32S * 4)).

Definition kdbus_meta_append_cgroup : M Z :=
  page ← get_free_page;
  if negb page then mret (- ENOMEM) else
  match cgroup_path current with
  | Some path => kdbus_meta_append_str KDBUS_ITEM_CGROUP path
  | None => mret (- ENAMETOOLONG)
  end.

Definition kdbus_meta_append_audit : M Z :=
  let audit := le_encode 8 (loginuid current) ++ le_encode 8 (sessionid current) in
  kdbus_meta_append_data KDBUS_ITEM_AUDIT (Some audit) sizeof_kdbus_audit.

Definition kdbus_meta_append_seclabel : M Z :=
  let ret := secctx_ret current in
  if bool_decide (ret = - EOPNOTSUPP) then mret 0 else
  if bool_decide (ret < 0) then mret ret else
  match secctx_label current with
  | Some label =>
      if bool_decide (0 < secctx_len current)
      then kdbus_meta_append_data KDBUS_ITEM_SECLABEL (Some label)
             (secctx_len current)
      else mret ret
  | None => mret ret
  end.

(** [mask & FLAG] as a condition. *)
Definition has_flag (mask flag : Z) : bool :=
  negb (bool_decide (Z.land mask flag = 0)).

(** The two items of the COMM record. *)
Definition append_comm : M Z :=
  checked
    (kdbus_meta_append_str KDBUS_ITEM_TID_COMM
       (string_take 15 (group_leader_comm current)))
    (kdbus_meta_append_str KDBUS_ITEM_PID_COMM
       (string_take 15 (cur_comm current))).

(** The records of [kdbus_meta_append] for the bits of [mask], in the
    order of the function, up to the update of [meta->attached]. *)
Definition append_records (conn : option kdbus_conn) (seq mask : Z) : M Z :=
  when_checked (has_flag mask KDBUS_ATTACH_TIMESTAMP)
    (kdbus_meta_append_timestamp seq) $
  when_checked (has_flag mask KDBUS_ATTACH_CREDS)
    kdbus_meta_append_cred $
  when_checked (has_flag mask KDBUS_ATTACH_AUXGROUPS)
    kdbus_meta_append_auxgroups $
  when_checked (has_flag mask KDBUS_ATTACH_NAMES && bool_decide (is_Some conn))
    (kdbus_meta_append_src_names conn) $
  when_checked (has_flag mask KDBUS_ATTACH_COMM)
    append_comm $
  when_checked (has_flag mask KDBUS_ATTACH_EXE)
    kdbus_meta_append_exe $
  when_checked (has_flag mask KDBUS_ATTACH_CMDLINE)
    kdbus_meta_append_cmdline $
  (* we always return a 4 elements, the element size is 1/4 *)
  when_checked (has_flag mask KDBUS_ATTACH_CAPS)
    kdbus_meta_append_caps $
  (* attach the path of the one group hierarchy specified for the bus *)
  when_checked (CONFIG_CGROUPS && has_flag mask KDBUS_ATTACH_CGROUP)
    kdbus_meta_append_cgroup $
  when_checked (CONFIG_AUDITSYSCALL && has_flag mask KDBUS_ATTACH_AUDIT)
    kdbus_meta_append_audit $
  when_checked (CONFIG_SECURITY && has_flag mask KDBUS_ATTACH_SECLABEL)
    kdbus_meta_append_seclabel $
  match conn with
  | Some c =>
      match conn_name c with
      | Some name =>
          when_checked (has_flag mask KDBUS_ATTACH_CONN_NAME)
            (kdbus_meta_append_str KDBUS_ITEM_CONN_NAME name) (mret 0)
      | None => mret 0
      end
  | None => mret 0
  end.

Definition kdbus_meta_append (conn : option kdbus_conn) (seq which : Z)
  : M Z :=
  m ← get_meta;
  (* which metadata is wanted but not yet attached? *)
  let mask := Z.land which (Z.lnot (meta_attached m)) in
  if bool_decide (mask = 0) then mret 0 else
  checked (append_records conn seq mask)
    ((* We tried to add everything we got asked for; do not get
        here again for the same question. *)
     m ← get_meta;
     put_meta (with_attached (Z.lor (meta_attached m) mask) m);;
     mret 0).

End Collect.
End Meta.

(** * Properties *)

(** Run the sequencing of [step] on what is already known. *)
Ltac step_eval := cbn [mbind step_bind require deref negb].

(** Decide one test of the code from the context. *)
Ltac bd_side :=
  first [ done | lia | by eexists
        | by (intros [? ?]; congruence) | congruence ].
Ltac bd_true P := rewrite (bool_decide_eq_true_2 P) by bd_side.
Ltac bd_false P := rewrite (bool_decide_eq_false_2 P) by bd_side.

(** ** Basic facts about the encodings *)

Lemma u64_range z : 0 ≤ u64 z < 2 ^ 64.
Proof. unfold u64. apply Z.mod_pos_bound. lia. Qed.

Lemma u64_small z : 0 ≤ z < 2 ^ 64 → u64 z = z.
Proof. intros. unfold u64. by apply Z.mod_small. Qed.

Lemma land_lnot7 x : 0 ≤ x → Z.land x (Z.lnot 7) = 8 * (x / 8).
Proof.
  intros Hx. rewrite <- Z.ldiff_land.
  change 7 with (Z.ones 3). rewrite Z.ldiff_ones_r by lia.
  rewrite Z.shiftl_mul_pow2, Z.shiftr_div_pow2 by lia.
  change (2 ^ 3) with 8. lia.
Qed.

Lemma KDBUS_ALIGN8_eq l : KDBUS_ALIGN8 l = 8 * (u64 (l + 7) / 8).
Proof. unfold KDBUS_ALIGN8. apply land_lnot7. apply u64_range. Qed.

Lemma KDBUS_ALIGN8_nowrap l :
  0 ≤ l → l + 7 < 2 ^ 64 → KDBUS_ALIGN8 l = 8 * ((l + 7) / 8).
Proof. intros. rewrite KDBUS_ALIGN8_eq, u64_small; lia. Qed.

Lemma KDBUS_ALIGN8_bounds l :
  0 ≤ l → l + 7 < 2 ^ 64 →
  l ≤ KDBUS_ALIGN8 l < l + 8 ∧ KDBUS_ALIGN8 l mod 8 = 0.
Proof.
  intros. rewrite KDBUS_ALIGN8_nowrap by lia.
  split; [|by rewrite Z.mul_comm, Z.mod_mul].
  pose proof (Z.div_mod (l + 7) 8 ltac:(lia)).
  pose proof (Z.mod_pos_bound (l + 7) 8 ltac:(lia)). lia.
Qed.

Lemma length_le_encode n v : length (le_encode n v) = n.
Proof.
  revert v. induction n as [|n IH]; intros v; [done|].
  change (le_encode (S n) v) with (v mod 256 :: le_encode n (v / 256)).
  cbn [length]. by rewrite IH.
Qed.

Lemma le_decode_encode n v :
  le_decode (le_encode n v) = v mod 256 ^ Z.of_nat n.
Proof.
  revert v. induction n as [|n IH]; intros v.
  - cbn. by rewrite Z.mod_1_r.
  - change (le_encode (S n) v) with (v mod 256 :: le_encode n (v / 256)).
    change (le_decode (?b :: ?bs)) with (b + 256 * le_decode bs). rewrite IH.
    rewrite Nat2Z.inj_succ, Z.pow_succ_r by lia.
    rewrite Z.rem_mul_r by lia. lia.
Qed.

Lemma le_decode_encode_u64 v : le_decode (le_encode 8 v) = u64 v.
Proof. by rewrite le_decode_encode. Qed.

(** ** The make-bus parser *)
Module BusMakeSpec.
Import BusMake.

(** Sample frames for the concrete cases: a header and items, on a
    machine where the copied frame sits at [sample_addr]. *)
Definition sample_addr : Z := 0xffff880000001000.

Definition item_bytes (size type : Z) (payload : list Z) : list Z :=
  le_encode 8 size ++ le_encode 8 type ++ payload.

Definition frame_bytes (size flags bloom_size : Z) (items : list Z) : list Z :=
  le_encode 8 size ++ le_encode 8 flags ++ le_encode 8 bloom_size ++ items.

Definition sample_env (frame : list Z) : make_env :=
  {| user_buf := frame; kmalloc_make := Some sample_addr;
     kmalloc_slack := replicate 24 0xaa |}.

(** The name item of "1000-test": 10 bytes of payload, padded to 16. *)
Definition name_item (type : Z) : list Z :=
  item_bytes 26 type (cstr "1000-test" ++ [0; 0; 0; 0; 0; 0; 0]).

Section Facts.
Variables KDBUS_CMD_MAKE_NAME KDBUS_CMD_MAKE_CGROUP : Z.

Local Abbreviation item_foreach := (item_foreach KDBUS_CMD_MAKE_NAME KDBUS_CMD_MAKE_CGROUP).
Local Abbreviation make_item := (make_item KDBUS_CMD_MAKE_NAME KDBUS_CMD_MAKE_CGROUP).
Local Abbreviation kdbus_bus_make_user :=
  (kdbus_bus_make_user KDBUS_CMD_MAKE_NAME KDBUS_CMD_MAKE_CGROUP).

(** The address behind the frame: [head + head->size]. *)
Definition frame_end (make : kobj) : option Z :=
  hsize ← load_u64 make (ptr_add (ko_addr make) offsetof_size);
  Some (ptr_add (ko_addr make) hsize).

(** The loop comes to the item at [item] with the head fields [km], having
    started at [item0] with [km0]. *)
Inductive visits (make : kobj) (km0 : kmake_head) (item0 : Z)
  : kmake_head → Z → Prop :=
  | visits_first : visits make km0 item0 km0 item0
  | visits_next km item fend km' item' :
      visits make km0 item0 km item →
      frame_end make = Some fend →
      item < fend →
      make_item make km item = Go km' →
      KDBUS_ITEM_NEXT make item = Go item' →
      visits make km0 item0 km' item'.

(** The call returns [ret] without a parsed command, given enough
    iterations. *)
Definition returns_error (env : make_env) (ret : Z) : Prop :=
  ∃ n, ∀ fuel, (n ≤ fuel)%nat → kdbus_bus_make_user fuel env = Return ret None.

Lemma item_foreach_more fuel fuel' make km item r :
  item_foreach fuel make km item = r → r ≠ LoopFuel →
  (fuel ≤ fuel')%nat → item_foreach fuel' make km item = r.
Proof.
  revert fuel' km item. induction fuel as [|fuel IH]; intros fuel' km item.
  - simpl. intros <- Hr. by destruct Hr.
  - intros Hrun Hr Hle. destruct fuel' as [|fuel']; [lia|].
    simpl in *. destruct (load_u64 make _); [|done].
    case_bool_decide; [|done].
    destruct (make_item make km item); [|done..].
    destruct (KDBUS_ITEM_NEXT make item); [|done..].
    apply IH; [done..|lia].
Qed.

Lemma visits_foreach make km0 item0 km item :
  visits make km0 item0 km item →
  ∀ n r, item_foreach n make km item = r → r ≠ LoopFuel →
  ∃ n0, ∀ fuel, (n0 ≤ fuel)%nat → item_foreach fuel make km0 item0 = r.
Proof.
  induction 1 as [|km item fend km' item' Hv IH Hend Hlt Hitem Hnext];
    intros n r Hrun Hr.
  - exists n. intros fuel Hle. by eapply item_foreach_more.
  - apply (IH (S n) r); [|done].
    unfold frame_end in Hend. simpl.
    destruct (load_u64 make _) as [hsize|]; [|done]. simpl in Hend.
    injection Hend as <-. rewrite bool_decide_eq_true_2 by done.
    by rewrite Hitem, Hnext.
Qed.

Lemma item_error_returned env make km item fend ret :
  copy_frame env = Go make →
  visits make km_zero (first_item make) km item →
  frame_end make = Some fend → item < fend →
  make_item make km item = Fail ret →
  returns_error env ret.
Proof.
  intros Hcopy Hv Hend Hlt Hitem.
  destruct (visits_foreach _ _ _ _ _ Hv 1%nat (LoopErr ret)) as [n0 Hn0];
    [|done|].
  - simpl. unfold frame_end in Hend.
    destruct (load_u64 make _) as [hsize|]; [|done]. simpl in Hend.
    injection Hend as <-. rewrite bool_decide_eq_true_2 by done.
    by rewrite Hitem.
  - exists n0. intros fuel Hle. unfold BusMake.kdbus_bus_make_user.
    by rewrite Hcopy, (Hn0 fuel Hle).
Qed.

Lemma KDBUS_IS_ALIGNED8_mod v : KDBUS_IS_ALIGNED8 v = bool_decide (v mod 8 = 0).
Proof.
  unfold KDBUS_IS_ALIGNED8. change 7 with (Z.ones 3).
  rewrite Z.land_ones by lia. done.
Qed.

(** The padding check: what the function returns when the loop ends with
    the cursor 8 bytes or more behind the frame. *)
Lemma overrun_returns_EINVAL fuel env make km item fend :
  copy_frame env = Go make →
  item_foreach fuel make km_zero (first_item make) = LoopDone km item →
  frame_end make = Some fend →
  8 ≤ ptr_diff item fend →
  kdbus_bus_make_user fuel env = Return EINVAL None.
Proof.
  intros Hcopy Hloop Hend Hdiff.
  unfold BusMake.kdbus_bus_make_user. rewrite Hcopy, Hloop.
  unfold make_checks, frame_end in *.
  destruct (load_u64 make (ptr_add (ko_addr make) offsetof_size)); [|done].
  simpl in Hend. injection Hend as <-.
  by rewrite bool_decide_eq_true_2.
Qed.

(** C5: a frame whose items all pass and whose cursor ends within the
    padding tolerance is rejected with -EBADMSG when no MAKE_NAME item was
    seen; otherwise with -EINVAL when bloom_size is not a multiple of 8 or
    lies outside [8, 16384]; and only otherwise parsed, with result 0. *)
Theorem C5_final_checks fuel env make km item fend bloom_size :
  copy_frame env = Go make →
  item_foreach fuel make km_zero (first_item make) = LoopDone km item →
  frame_end make = Some fend →
  ptr_diff item fend < 8 →
  load_u64 make (ptr_add (ko_addr make) offsetof_bloom_size) = Some bloom_size →
  kdbus_bus_make_user fuel env =
    if bool_decide (km_name km = None) then Return (- EBADMSG) None
    else if bool_decide (bloom_size mod 8 ≠ 0 ∨ bloom_size < 8
                         ∨ 16384 < bloom_size)
    then Return (- EINVAL) None
    else Return 0 (Some {| km_head := km; km_make := make |}).
Proof.
  intros Hcopy Hloop Hend Hdiff Hbloom.
  unfold BusMake.kdbus_bus_make_user. rewrite Hcopy, Hloop.
  unfold make_checks, frame_end in *.
  destruct (load_u64 make (ptr_add (ko_addr make) offsetof_size)); [|done].
  simpl in Hend. injection Hend as <-.
  rewrite bool_decide_eq_false_2 by lia.
  destruct (km_name km) as [p|] eqn:Hname.
  - rewrite (bool_decide_eq_true_2 (is_Some (Some p))) by by eexists.
    rewrite (bool_decide_eq_false_2 (Some p = None)) by done.
    cbn [negb]. rewrite Hbloom, KDBUS_IS_ALIGNED8_mod.
    destruct (decide (bloom_size mod 8 = 0)) as [Hal|Hal].
    + rewrite (bool_decide_eq_true_2 _ Hal). cbn [negb].
      destruct (decide (bloom_size < 8 ∨ 16 * 1024 < bloom_size)) as [Hr|Hr].
      * rewrite (bool_decide_eq_true_2 _ Hr).
        by rewrite bool_decide_eq_true_2 by lia.
      * rewrite (bool_decide_eq_false_2 _ Hr).
        by rewrite bool_decide_eq_false_2 by lia.
    + rewrite (bool_decide_eq_false_2 _ Hal). cbn [negb].
      by rewrite bool_decide_eq_true_2 by (by left).
  - rewrite (bool_decide_eq_false_2 (is_Some None)) by (by intros [? ?]).
    by rewrite (bool_decide_eq_true_2 (None = None)).
Qed.

(** C6: for an item the loop comes to, in the order of the checks: a
    declared size of at most the item header gives -EINVAL; a MAKE_NAME
    item gives -EEXIST when a name was already seen, -EINVAL for a payload
    under 2 bytes, -ENAMETOOLONG for one over 64 bytes and -EINVAL when the
    payload is not a NUL-terminated string; an item of a type other than
    MAKE_NAME and MAKE_CGROUP gives -ENOTSUPP. *)
Theorem C6_item_errors env make km item fend size :
  copy_frame env = Go make →
  visits make km_zero (first_item make) km item →
  frame_end make = Some fend →
  item < fend →
  load_u64 make item = Some size →
  (size ≤ KDBUS_ITEM_HEADER_SIZE → returns_error env (- EINVAL)) ∧
  (∀ type,
     KDBUS_ITEM_HEADER_SIZE < size →
     load_u64 make (ptr_add item 8) = Some type →
     (type = KDBUS_CMD_MAKE_NAME → is_Some (km_name km) →
      returns_error env (- EEXIST)) ∧
     (type = KDBUS_CMD_MAKE_NAME → km_name km = None →
      size - KDBUS_ITEM_HEADER_SIZE < 2 → returns_error env (- EINVAL)) ∧
     (type = KDBUS_CMD_MAKE_NAME → km_name km = None →
      64 < size - KDBUS_ITEM_HEADER_SIZE →
      returns_error env (- ENAMETOOLONG)) ∧
     (type = KDBUS_CMD_MAKE_NAME → km_name km = None →
      2 ≤ size - KDBUS_ITEM_HEADER_SIZE ≤ 64 →
      kdbus_validate_nul make (ptr_add item KDBUS_ITEM_HEADER_SIZE)
        (size - KDBUS_ITEM_HEADER_SIZE) = Go false →
      returns_error env (- EINVAL)) ∧
     (type ≠ KDBUS_CMD_MAKE_NAME → type ≠ KDBUS_CMD_MAKE_CGROUP →
      returns_error env (- ENOTSUPP))).
Proof.
  intros Hcopy Hv Hend Hlt Hsize.
  assert (Hret : ∀ ret, make_item make km item = Fail ret →
                        returns_error env ret)
    by (intros ret; by eapply item_error_returned).
  unfold KDBUS_ITEM_HEADER_SIZE in *.
  split.
  - intros Hsmall. apply Hret. unfold BusMake.make_item. rewrite Hsize.
    unfold KDBUS_ITEM_HEADER_SIZE. step_eval.
    bd_true (size ≤ 16). by step_eval.
  - intros type Hbig Htype.
    assert (Hstep : make_item make km item =
      if bool_decide (type = KDBUS_CMD_MAKE_NAME) then
        require (negb (bool_decide (is_Some (km_name km)))) (- EEXIST);;
        require (negb (bool_decide (size < 16 + 2))) (- EINVAL);;
        require (negb (bool_decide (16 + 64 < size))) (- ENAMETOOLONG);;
        ok ← kdbus_validate_nul make (ptr_add item 16) (u64 (size - 16));
        require ok (- EINVAL);;
        Go {| km_name := Some (ptr_add item 16);
              km_cgroup_id := km_cgroup_id km |}
      else if bool_decide (type = KDBUS_CMD_MAKE_CGROUP) then
        require (bool_decide (km_cgroup_id km = 0)) (- EEXIST);;
        d ← deref (load_u64 make (ptr_add item 16));
        Go {| km_name := km_name km; km_cgroup_id := d |}
      else Fail (- ENOTSUPP)).
    { unfold BusMake.make_item. rewrite Hsize.
      unfold KDBUS_ITEM_HEADER_SIZE. step_eval.
      bd_false (size ≤ 16). step_eval.
      rewrite Htype. by step_eval. }
    rewrite Hstep in Hret. clear Hstep.
    repeat split.
    + intros -> Hseen. apply Hret.
      bd_true (KDBUS_CMD_MAKE_NAME = KDBUS_CMD_MAKE_NAME).
      bd_true (is_Some (km_name km)). by step_eval.
    + intros -> Hnone Hshort. apply Hret.
      bd_true (KDBUS_CMD_MAKE_NAME = KDBUS_CMD_MAKE_NAME).
      bd_false (is_Some (km_name km)). step_eval.
      bd_true (size < 16 + 2). by step_eval.
    + intros -> Hnone Hlong. apply Hret.
      bd_true (KDBUS_CMD_MAKE_NAME = KDBUS_CMD_MAKE_NAME).
      bd_false (is_Some (km_name km)). step_eval.
      bd_false (size < 16 + 2). step_eval.
      bd_true (16 + 64 < size). by step_eval.
    + intros -> Hnone Hlen Hnul. apply Hret.
      bd_true (KDBUS_CMD_MAKE_NAME = KDBUS_CMD_MAKE_NAME).
      bd_false (is_Some (km_name km)). step_eval.
      bd_false (size < 16 + 2). step_eval.
      bd_false (16 + 64 < size). step_eval.
      rewrite u64_small by lia. rewrite Hnul. by step_eval.
    + intros Hn Hc. apply Hret.
      bd_false (type = KDBUS_CMD_MAKE_NAME).
      by bd_false (type = KDBUS_CMD_MAKE_CGROUP).
Qed.

End Facts.

(** A frame of 48 bytes whose one MAKE_CGROUP item declares 1000 bytes. *)
Definition overrun_frame : list Z :=
  frame_bytes 48 0 64 (item_bytes 1000 2 (le_encode 8 1)).

(** C2: on a frame whose only item passes its checks and whose declared
    size carries the cursor 976 bytes behind the frame, the padding check
    returns the positive value EINVAL (22), not a negative errno. *)
Theorem C2_overrun_returns_positive_EINVAL :
  let env := sample_env overrun_frame in
  (∃ make km item fend,
     copy_frame env = Go make ∧
     item_foreach 1 2 16 make km_zero (first_item make) = LoopDone km item ∧
     frame_end make = Some fend ∧ ptr_diff item fend = 976) ∧
  kdbus_bus_make_user 1 2 16 env = Return 22 None ∧
  kdbus_bus_make_user 1 2 16 env ≠ Return (- EINVAL) None.
Proof.
  split; [|split].
  - eexists _, _, _, _. split; [reflexivity|]. split; [by vm_compute|].
    split; [by vm_compute|]. by vm_compute.
  - by vm_compute.
  - by vm_compute.
Qed.

(** C5 at the frame of scenario S3: a valid name and bloom_size = 4. *)
Lemma C5_final_checks_witness :
  kdbus_bus_make_user 1 2 16 (sample_env (frame_bytes 56 0 4 (name_item 1)))
  = Return (- EINVAL) None.
Proof.
  set (env := sample_env (frame_bytes 56 0 4 (name_item 1))).
  set (make := {| ko_addr := sample_addr;
                  ko_bytes := user_buf env ++ kmalloc_slack env |}).
  rewrite (C5_final_checks 1 2 16 env make
             {| km_name := Some (sample_addr + 40); km_cgroup_id := 0 |}
             (sample_addr + 56) (sample_addr + 56) 4).
  - reflexivity.
  - reflexivity.
  - vm_compute. reflexivity.
  - reflexivity.
  - vm_compute. reflexivity.
  - vm_compute. reflexivity.
Defined.

(** C6 at the frame of scenario S4: two MAKE_NAME items. *)
Lemma C6_item_errors_witness :
  returns_error 1 2
    (sample_env (frame_bytes 88 0 64 (name_item 1 ++ name_item 1)))
    (- EEXIST).
Proof.
  set (env := sample_env (frame_bytes 88 0 64 (name_item 1 ++ name_item 1))).
  set (make := {| ko_addr := sample_addr;
                  ko_bytes := user_buf env ++ kmalloc_slack env |}).
  set (km1 := {| km_name := Some (sample_addr + 40); km_cgroup_id := 0 |}).
  assert (Hv : visits 1 2 make km_zero (first_item make) km1 (sample_addr + 56)).
  { apply (visits_next 1 2 make _ _ km_zero (first_item make)
             (sample_addr + 88) km1 (sample_addr + 56)).
    - apply visits_first.
    - vm_compute. reflexivity.
    - vm_compute. reflexivity.
    - vm_compute. reflexivity.
    - vm_compute. reflexivity. }
  refine (proj1 (proj2 (C6_item_errors 1 2 env make km1 (sample_addr + 56)
                          (sample_addr + 88) 26 _ Hv _ _ _) 1 _ _) _ _).
  - reflexivity.
  - vm_compute. reflexivity.
  - vm_compute. reflexivity.
  - vm_compute. reflexivity.
  - vm_compute. reflexivity.
  - vm_compute. reflexivity.
  - reflexivity.
  - by eexists.
Defined.

End BusMakeSpec.

(** ** C strings *)

Lemma strncmp_refl s n : strncmp s s n = 0.
Proof.
  revert s. induction n as [|n IH]; intros s; [reflexivity|].
  destruct s as [|c s]; simpl; [reflexivity|].
  by rewrite Ascii.eqb_refl.
Qed.

Lemma strcmp_refl s : strcmp s s = 0.
Proof. apply strncmp_refl. Qed.

(** A C string holds no NUL before its end. *)
Fixpoint is_cstring (s : string) : bool :=
  match s with
  | EmptyString => true
  | String c s' => negb (Ascii.eqb c zero) && is_cstring s'
  end.

Lemma char_code_zero c : char_code c = 0 → c = zero.
Proof.
  unfold char_code. intros Hc.
  assert (nat_of_ascii c = 0%nat) as Hn by lia.
  rewrite <- (ascii_nat_embedding c), Hn. done.
Qed.

Lemma char_code_inj c1 c2 : char_code c1 - char_code c2 = 0 → c1 = c2.
Proof.
  unfold char_code. intros Hc.
  assert (nat_of_ascii c1 = nat_of_ascii c2) as Hn by lia.
  by rewrite <- (ascii_nat_embedding c1), Hn, ascii_nat_embedding.
Qed.

Lemma strncmp_eq n s1 s2 :
  (String.length s1 < n)%nat →
  is_cstring s1 → is_cstring s2 → strncmp s1 s2 n = 0 → s1 = s2.
Proof.
  revert s1 s2. induction n as [|n IH]; intros s1 s2 Hlen H1 H2; [lia|].
  destruct s1 as [|c1 s1], s2 as [|c2 s2]; simpl in *; try done.
  - intros Hc. assert (c2 = zero) as -> by (apply char_code_zero; lia).
    by rewrite Ascii.eqb_refl in H2.
  - intros Hc. assert (c1 = zero) as -> by (apply char_code_zero; lia).
    by rewrite Ascii.eqb_refl in H1.
  - apply andb_prop_elim in H1 as [_ H1], H2 as [_ H2].
    destruct (Ascii.eqb c1 c2) eqn:Hc.
    + apply Ascii.eqb_eq in Hc as ->. intros Hs. f_equal.
      apply IH; [lia|done..].
    + intros Hd. apply char_code_inj in Hd as ->.
      by rewrite Ascii.eqb_refl in Hc.
Qed.

Lemma strcmp_eq s1 s2 :
  is_cstring s1 → is_cstring s2 → strcmp s1 s2 = 0 → s1 = s2.
Proof. intros. eapply strncmp_eq; [|done..]. lia. Qed.

(** ** Namespaces and buses *)

Module ObjectSpec.
Import Ns Bus.

(** Unfold the state updates. *)
Ltac unfold_st :=
  unfold set_ns, free_ns, set_bus, free_bus, set_namespace_list,
    set_ns_id_next, set_major_idr, emit in *;
  cbn [ns_heap bus_heap namespace_list kdbus_ns_id_next kdbus_ns_major_idr
       trace] in *.

(** [(parent == null) XOR (name != null)] *)
Definition parent_xor_name (parent : option Z) (name : option string) : bool :=
  xorb (bool_decide (parent = None)) (bool_decide (name ≠ None)).

(** The entries of the global list are live objects, each with a parent
    exactly when it has a name, and the names are C strings. *)
Definition ns_list_wf (st : kstate) : Prop :=
  ∀ a, a ∈ namespace_list st →
    ∃ n, ns_heap st !! a = Some n ∧
         (is_Some (ns_parent n) ↔ is_Some (ns_name n)) ∧
         (∀ s, ns_name n = Some s → is_cstring s).

(** A listed namespace has this parent and name. *)
Definition ns_listed (st : kstate) (parent : option Z) (name : option string)
  : Prop :=
  ∃ a n, a ∈ namespace_list st ∧ ns_heap st !! a = Some n ∧
         ns_parent n = parent ∧ ns_name n = name.

(** Nothing that [kdbus_ns_new] asks for is refused. *)
Definition ns_env_succeeds `{ns_config} (env : ns_env) (parent : option Z)
    (name : option string) (st : kstate) (n : Z) : Prop :=
  kzalloc_ns env = Some n ∧
  (is_Some name → Ns.kstrdup_name env = true) ∧
  kstrdup_devpath env = true ∧
  match parent with
  | Some _ => 0 ≤ register_chrdev env
  | None => register_chrdev env = 0
  end ∧
  0 < idr_alloc env ∧
  is_Some (kzalloc_dev env) ∧
  0 ≤ device_register env ∧
  (∀ p, parent = Some p → is_Some (ns_heap st !! p)).

Lemma ns_find_entry_hit heap p nm l :
  (∀ a, a ∈ l → ∃ n, heap !! a = Some n ∧
                     (is_Some (ns_parent n) → is_Some (ns_name n))) →
  (∃ a n, a ∈ l ∧ heap !! a = Some n ∧ ns_parent n = Some p
          ∧ ns_name n = Some nm) →
  ∃ a, a ∈ l ∧ ns_find_entry heap (Some p) (Some nm) l = Some (Some a).
Proof.
  induction l as [|x l IH]; intros Hwf (a & n & Hin & Hn & Hp & Hnm).
  - by apply elem_of_nil in Hin.
  - destruct (Hwf x) as (nx & Hx & Hxn); [by left|].
    simpl. rewrite Hx. simpl.
    destruct (decide (ns_parent nx = Some p)) as [Hpx|Hpx].
    + rewrite (bool_decide_eq_true_2 _ Hpx). simpl.
      destruct Hxn as [s Hs]; [by rewrite Hpx|]. rewrite Hs. simpl.
      destruct (decide (strcmp s nm = 0)) as [Hc|Hc].
      * rewrite (bool_decide_eq_true_2 _ Hc). simpl.
        exists x. split; [by left|done].
      * rewrite (bool_decide_eq_false_2 _ Hc). simpl.
        destruct IH as (a' & Ha' & Hfind).
        { intros y Hy. apply Hwf. by right. }
        { apply elem_of_cons in Hin as [->|Hin]; [|by eauto 8].
          simplify_eq. by rewrite strcmp_refl in Hc. }
        exists a'. split; [by right|done].
    + rewrite (bool_decide_eq_false_2 _ Hpx). simpl.
      destruct IH as (a' & Ha' & Hfind).
      { intros y Hy. apply Hwf. by right. }
      { apply elem_of_cons in Hin as [->|Hin]; [|by eauto 8]. congruence. }
      exists a'. split; [by right|done].
Qed.

Lemma ns_find_entry_miss heap parent name l :
  (∀ a, a ∈ l → ∃ n, heap !! a = Some n ∧
                     (is_Some (ns_parent n) ↔ is_Some (ns_name n)) ∧
                     (∀ s, ns_name n = Some s → is_cstring s)) →
  (is_Some parent ↔ is_Some name) →
  (∀ s, name = Some s → is_cstring s) →
  (∀ a n, a ∈ l → heap !! a = Some n →
          ¬ (ns_parent n = parent ∧ ns_name n = name)) →
  ns_find_entry heap parent name l = Some None.
Proof.
  intros Hwf Hxor Hcs. induction l as [|x l IH]; intros Hnone; [done|].
  destruct (Hwf x) as (nx & Hx & Hxn & Hxs); [by left|].
  simpl. rewrite Hx. simpl.
  assert (Hrest : ns_find_entry heap parent name l = Some None).
  { apply IH; [intros y Hy; apply Hwf; by right|].
    intros a n Ha. apply Hnone. by right. }
  destruct (decide (ns_parent nx = parent)) as [Hpx|Hpx].
  - rewrite (bool_decide_eq_true_2 _ Hpx). simpl.
    destruct (ns_name nx) as [s1|] eqn:Hs1, name as [s2|] eqn:Hs2; simpl.
    + destruct (decide (strcmp s1 s2 = 0)) as [Hc|Hc].
      * exfalso. apply (Hnone x nx); [by left|done|].
        split; [done|]. f_equal. rewrite Hs1. f_equal.
        apply strcmp_eq; [by apply Hxs|by apply Hcs|done].
      * by rewrite (bool_decide_eq_false_2 _ Hc).
    + exfalso. rewrite Hpx in Hxn.
      destruct (proj2 Hxn) as [? ?]; [by eexists|].
      destruct (proj1 Hxor) as [? ?]; [by eexists|done].
    + exfalso. rewrite Hpx in Hxn.
      destruct (proj2 Hxor) as [? Hp]; [by eexists|].
      destruct (proj1 Hxn) as [? ?]; [by eexists|done].
    + exfalso. apply (Hnone x nx); [by left|done|]. by rewrite Hs1.
  - by rewrite (bool_decide_eq_false_2 _ Hpx).
Qed.

Lemma list_del_Some a l : a ∈ l → list_del a l = Some (list_without a l).
Proof. intros Ha. unfold list_del. by rewrite bool_decide_eq_true_2. Qed.

Lemma list_del_None a l : a ∉ l → list_del a l = None.
Proof. intros Ha. unfold list_del. by rewrite bool_decide_eq_false_2. Qed.

Lemma list_del_inv a l l' :
  list_del a l = Some l' → a ∈ l ∧ l' = list_without a l.
Proof. unfold list_del. case_bool_decide; [|done]. by intros [= <-]. Qed.

(** A namespace that is on the list, or disconnected already, can be
    disconnected. *)
Lemma ns_disconnect_total a n st :
  ns_heap st !! a = Some n →
  ns_disconnected n = true ∨ a ∈ namespace_list st →
  ∃ st' n', kdbus_ns_disconnect a st = Some st' ∧
            ns_heap st' !! a = Some n'.
Proof.
  intros Hn Hl. unfold kdbus_ns_disconnect. rewrite Hn. simpl.
  destruct (ns_disconnected n) eqn:Hd; [by eauto|].
  destruct Hl as [?|Hl]; [done|]. rewrite (list_del_Some _ _ Hl). simpl.
  repeat case_match; simplify_eq; unfold_st;
    eexists _, _; (split; [done|]); simpl; by rewrite lookup_insert_eq.
Qed.

Lemma ns_unref_total a n st :
  ns_heap st !! a = Some n →
  ns_disconnected n = true ∨ a ∈ namespace_list st →
  is_Some (kdbus_ns_unref a st).
Proof.
  intros Hn Hl. unfold kdbus_ns_unref. rewrite Hn. simpl.
  case_bool_decide; [|done].
  unfold __kdbus_ns_free.
  match goal with
  | |- context [kdbus_ns_disconnect a ?s] =>
      destruct (ns_disconnect_total a (Ns.with_kref (ns_kref n - 1) n) s)
        as (st' & n' & -> & Hn'); [apply lookup_insert_eq|done|]
  end.
  simpl. by rewrite Hn'.
Qed.

Section NsNewSpec.
Context `{ns_config}.

Lemma ns_new_EINVAL env parent name mode st :
  parent_xor_name parent name = false →
  ∃ r, kdbus_ns_new env parent name mode st = Some r ∧
       nr_ret r = Some (- EINVAL) ∧ nr_ns r = None ∧
       namespace_list (nr_state r) = namespace_list st ∧
       ns_heap (nr_state r) = ns_heap st.
Proof.
  intros Hxor. unfold kdbus_ns_new.
  rewrite (bool_decide_eq_true_2
             ((is_Some parent ∧ name = None) ∨ (parent = None ∧ is_Some name)));
    [eexists; split; [done|]; by unfold_st|].
  unfold parent_xor_name in Hxor.
  destruct parent, name; simpl in Hxor; try done.
  - left. split; [by eexists|done].
  - right. split; [done|by eexists].
Qed.

Lemma ns_new_EEXIST env p nm mode st :
  ns_list_wf st →
  ns_listed st (Some p) (Some nm) →
  ∃ r, kdbus_ns_new env (Some p) (Some nm) mode st = Some r ∧
       nr_ret r = Some (- EEXIST) ∧ nr_ns r = None.
Proof.
  intros Hwf Hhit. unfold kdbus_ns_new.
  rewrite (bool_decide_eq_false_2
             ((is_Some (Some p) ∧ Some nm = None)
              ∨ (Some p = None ∧ is_Some (Some nm))))
    by (intros [[_ ?]|[? _]]; done).
  destruct (ns_find_entry_hit (ns_heap st) p nm (namespace_list st))
    as (a & Ha & Hfind).
  { intros x Hx. destruct (Hwf x Hx) as (n & ? & Hn & _).
    exists n. split; [done|]. apply Hn. }
  { destruct Hhit as (a & n & ?). by exists a, n. }
  unfold kdbus_ns_find. unfold_st. rewrite Hfind. simpl.
  destruct (Hwf a Ha) as (n & Hn & _).
  unfold kdbus_ns_ref. unfold_st. rewrite Hn. simpl.
  match goal with
  | |- context [kdbus_ns_unref a ?s] =>
      destruct (ns_unref_total a (Ns.with_kref (ns_kref n + 1) n) s)
        as [st' Hst']; [apply lookup_insert_eq|by right|]
  end.
  rewrite Hst'. simpl. by eauto.
Qed.

Lemma ns_new_created env parent name mode st n :
  ns_list_wf st →
  (∀ s, name = Some s → is_cstring s) →
  ns_heap st !! n = None →
  parent_xor_name parent name = true →
  ¬ ns_listed st parent name →
  ns_env_succeeds env parent name st n →
  ∃ r o, kdbus_ns_new env parent name mode st = Some r ∧
         nr_ret r = Some 0 ∧ nr_ns r = Some n ∧
         namespace_list (nr_state r) = namespace_list st ++ [n] ∧
         ns_heap (nr_state r) !! n = Some o ∧
         ns_id o = kdbus_ns_id_next st ∧
         ns_parent o = parent ∧ ns_name o = name ∧
         ns_disconnected o = false ∧
         kdbus_ns_id_next (nr_state r) = u64 (kdbus_ns_id_next st + 1).
Proof.
  intros Hwf Hcs Hfresh Hxor Hnone
    (Halloc & Hdup & Hpath & Hchr & Hidr & [dev Hdev] & Hreg & Hparent).
  assert (Hpn : is_Some parent ↔ is_Some name).
  { unfold parent_xor_name in Hxor.
    destruct parent, name; simpl in Hxor; try done;
      split; intros [? ?]; by eauto. }
  unfold kdbus_ns_new.
  rewrite (bool_decide_eq_false_2
             ((is_Some parent ∧ name = None) ∨ (parent = None ∧ is_Some name))).
  2:{ intros [[Hp Hn]|[Hp Hn]].
      - apply Hpn in Hp as [? ?]. congruence.
      - apply Hpn in Hn as [? ?]. congruence. }
  unfold kdbus_ns_find. unfold_st.
  rewrite (ns_find_entry_miss _ parent name); [|done..|].
  2:{ intros a o Ha Ho Hpair. apply Hnone. by exists a, o. }
  simpl. rewrite Halloc. clear Hpn.
  destruct parent as [p|], name as [nm|]; try done.
  - rewrite Hdup by (by exists nm). simpl.
    destruct (Hparent p eq_refl) as [po Hpo]. rewrite Hpo. simpl.
    rewrite Hpath. simpl.
    rewrite bool_decide_eq_false_2 by lia.
    unfold ns_new_register. unfold_st. rewrite lookup_insert_eq. simpl.
    rewrite bool_decide_eq_false_2 by lia.
    rewrite Hdev. rewrite bool_decide_eq_false_2 by lia.
    eexists _, _. split; [done|]. simpl.
    rewrite !lookup_insert_eq. done.
  - simpl. rewrite Hpath. simpl.
    rewrite bool_decide_eq_true_2 by done. simpl.
    unfold ns_new_register. unfold_st. rewrite lookup_insert_eq. simpl.
    rewrite bool_decide_eq_false_2 by lia.
    rewrite Hdev. rewrite bool_decide_eq_false_2 by lia.
    eexists _, _. split; [done|]. simpl.
    rewrite !lookup_insert_eq. done.
Qed.

(** When the control device cannot be allocated, a return of the function
    carries whatever [ret] held before. *)
Lemma dev_alloc_failure_keeps_ret env n ret st r :
  kzalloc_dev env = None → 0 < idr_alloc env →
  ns_new_register env n ret st = Some r → nr_ret r = ret.
Proof.
  intros Hdev Hidr. unfold ns_new_register, ns_new_fail.
  destruct (ns_heap st !! n) as [o|]; [|done]. simpl.
  bd_false (idr_alloc env ≤ 0). rewrite Hdev.
  destruct (kdbus_ns_unref n _); [|done]. simpl. by intros [= <-].
Qed.

(** C7 (amended): kdbus_ns_new returns -EINVAL when (parent == null) XOR
    (name != null) fails; returns -EEXIST when parent and name are given
    and a listed namespace has that parent and name; and when the XOR
    holds, no listed namespace has that parent and name, and every
    allocation and registration of the call succeeds, it returns 0 with a
    new namespace whose id is the value of the counter, advances the
    counter and appends the namespace to the global list.  Nothing is
    said of a call in which an allocation or a registration fails, nor of
    a call without parent and name while an initial namespace is listed. *)
Theorem C7_ns_new env parent name mode st :
  ns_list_wf st →
  (∀ s, name = Some s → is_cstring s) →
  (∀ n, kzalloc_ns env = Some n → ns_heap st !! n = None) →
  (parent_xor_name parent name = false →
   ∃ r, kdbus_ns_new env parent name mode st = Some r ∧
        nr_ret r = Some (- EINVAL) ∧ nr_ns r = None ∧
        namespace_list (nr_state r) = namespace_list st ∧
        ns_heap (nr_state r) = ns_heap st) ∧
  (is_Some parent → is_Some name → ns_listed st parent name →
   ∃ r, kdbus_ns_new env parent name mode st = Some r ∧
        nr_ret r = Some (- EEXIST) ∧ nr_ns r = None) ∧
  (∀ n, parent_xor_name parent name = true →
        ¬ ns_listed st parent name →
        ns_env_succeeds env parent name st n →
   ∃ r o, kdbus_ns_new env parent name mode st = Some r ∧
          nr_ret r = Some 0 ∧ nr_ns r = Some n ∧
          namespace_list (nr_state r) = namespace_list st ++ [n] ∧
          ns_heap (nr_state r) !! n = Some o ∧
          ns_id o = kdbus_ns_id_next st ∧
          ns_parent o = parent ∧ ns_name o = name ∧
          ns_disconnected o = false ∧
          kdbus_ns_id_next (nr_state r) = u64 (kdbus_ns_id_next st + 1)).
Proof.
  intros Hwf Hcs Hfresh. split; [|split].
  - apply ns_new_EINVAL.
  - intros [p ->] [nm ->]. by apply ns_new_EEXIST.
  - intros n Hxor Hnone Henv. apply ns_new_created; try done.
    apply Hfresh. apply Henv.
Qed.

End NsNewSpec.

(** The state before the first namespace exists. *)
Definition st_empty : kstate :=
  {| ns_heap := ∅; bus_heap := ∅; namespace_list := [];
     kdbus_ns_id_next := 0; kdbus_ns_major_idr := ∅; trace := [] |}.

#[local] Instance sample_ns_config : ns_config := {| KDBUS_CHAR_MAJOR := 222 |}.

(** An environment that refuses nothing: the namespace at [n], the
    device at [dev], the major [major]. *)
Definition ns_env_ok (n dev major : Z) (static : bool) : ns_env :=
  {| kzalloc_ns := Some n; Ns.kstrdup_name := true; kstrdup_devpath := true;
     register_chrdev := if static then 0 else major; idr_alloc := major;
     kzalloc_dev := Some dev; device_register := 0 |}.

(** The same with the allocation of the control device refused. *)
Definition ns_env_no_dev (n major : Z) (static : bool) : ns_env :=
  {| kzalloc_ns := Some n; Ns.kstrdup_name := true; kstrdup_devpath := true;
     register_chrdev := if static then 0 else major; idr_alloc := major;
     kzalloc_dev := None; device_register := 0 |}.

(** The state with the initial namespace at 0x1000. *)
Definition st_root : kstate :=
  default st_empty
    (nr_state <$> kdbus_ns_new (ns_env_ok 0x1000 0x2000 222 true) None None
                    438 st_empty).

(** C7 at the creation of the initial namespace. *)
Lemma C7_ns_new_witness :
  ∃ r o, kdbus_ns_new (ns_env_ok 0x1000 0x2000 222 true) None None 438
           st_empty = Some r ∧
         nr_ret r = Some 0 ∧ nr_ns r = Some 0x1000 ∧
         namespace_list (nr_state r) = [0x1000] ∧
         ns_heap (nr_state r) !! 0x1000 = Some o ∧
         ns_id o = 0 ∧ ns_parent o = None ∧ ns_name o = None ∧
         ns_disconnected o = false ∧
         kdbus_ns_id_next (nr_state r) = 1.
Proof.
  refine (proj2 (proj2 (C7_ns_new (ns_env_ok 0x1000 0x2000 222 true) None None
                          438 st_empty _ _ _)) 0x1000 _ _ _).
  - intros a Ha. exfalso. inversion Ha.
  - intros s Hs. discriminate Hs.
  - intros n Hn. reflexivity.
  - reflexivity.
  - intros (a & n & Ha & _). inversion Ha.
  - unfold ns_env_succeeds. simpl. repeat split; try lia.
    + by eexists.
    + intros p Hp. discriminate Hp.
Defined.

(** C7, as stated, fails when the allocator refuses the namespace: the
    XOR condition holds and no namespace exists at all, yet the call
    returns -ENOMEM and the list stays empty. *)
Lemma C7_counterexample :
  let env := {| kzalloc_ns := None; Ns.kstrdup_name := true;
                kstrdup_devpath := true; register_chrdev := 0;
                idr_alloc := 222; kzalloc_dev := Some 0x2000;
                device_register := 0 |} in
  parent_xor_name None None = true ∧
  namespace_list st_empty = [] ∧
  ∃ r, kdbus_ns_new env None None 438 st_empty = Some r ∧
       nr_ret r = Some (- ENOMEM) ∧ nr_ns r = None ∧
       namespace_list (nr_state r) = [].
Proof.
  split; [done|]. split; [done|]. eexists. split; [by vm_compute|]. done.
Qed.

(** A second initial namespace: [kdbus_ns_find] calls [strcmp] on the null
    names. *)
Lemma ns_new_second_root_oops :
  kdbus_ns_new (ns_env_ok 0x3000 0x4000 222 true) None None 438 st_root
  = None.
Proof. by vm_compute. Qed.

(** The exit labels [err_unlock:] and [ret:] release a namespace that was
    never put on the list: [kdbus_ns_unref] drops its only reference and
    [kdbus_ns_disconnect] finds the flag unset and unlinks an entry that
    is on no list. *)
Lemma ns_new_fail_unlinked ret n o st :
  ns_heap st !! n = Some o → ns_kref o = 1 → ns_disconnected o = false →
  n ∉ namespace_list st →
  ns_new_fail ret n st = None.
Proof.
  intros Ho Hk Hd Hl. unfold ns_new_fail, kdbus_ns_unref. rewrite Ho. simpl.
  rewrite bool_decide_eq_true_2 by lia.
  unfold __kdbus_ns_free, kdbus_ns_disconnect. unfold_st.
  rewrite lookup_insert_eq. simpl. rewrite Hd.
  by rewrite (list_del_None _ _ Hl).
Qed.

(** With the control device refused, the second half of [kdbus_ns_new]
    goes to [err_unlock:] with [ret] as it found it. *)
(** The state in which [kdbus_ns_new] finds the control device refused:
    the major is in the idr and the id is assigned. *)
Definition st_before_dev (env : ns_env) (n : Z) (o : kdbus_ns) (st : kstate)
  : kstate :=
  let st1 := set_major_idr (<[idr_alloc env := n]> (kdbus_ns_major_idr st)) st in
  set_ns n (Ns.with_id (kdbus_ns_id_next st) o)
    (set_ns_id_next (u64 (kdbus_ns_id_next st + 1)) st1).

Lemma dev_alloc_failure_exit `{ns_config} env n ret st o :
  kzalloc_dev env = None → 0 < idr_alloc env →
  ns_heap st !! n = Some o →
  ns_new_register env n ret st = ns_new_fail ret n (st_before_dev env n o st).
Proof.
  intros Hdev Hidr Ho. unfold ns_new_register. rewrite Ho. simpl.
  bd_false (idr_alloc env ≤ 0). by rewrite Hdev.
Qed.

(** C3: with the allocation of the control device refused, kdbus_ns_new
    does not return -ENOMEM.  The exit label is reached with [ret] as it
    was, 0 for the initial namespace and unassigned for a child, so no
    return of the call carries -ENOMEM in its place; and the release at
    the label unlinks the namespace, which was never put on the global
    list: an invalid access, for the initial namespace as for a child. *)
Theorem C3_dev_alloc_failure_return_value :
  kdbus_ns_new (ns_env_no_dev 0x1000 222 true) None None 438 st_empty = None ∧
  kdbus_ns_new (ns_env_no_dev 0x3000 250 false) (Some 0x1000)
    (Some "a"%string) 438 st_root = None ∧
  (∀ env n ret st o,
     kzalloc_dev env = None → 0 < idr_alloc env →
     ns_heap st !! n = Some o →
     ns_new_register env n ret st
       = ns_new_fail ret n (st_before_dev env n o st) ∧
     (∀ r, ns_new_register env n ret st = Some r → nr_ret r = ret) ∧
     (ns_kref o = 1 → ns_disconnected o = false → n ∉ namespace_list st →
      ns_new_register env n ret st = None)).
Proof.
  split; [by vm_compute|]. split; [by vm_compute|].
  intros env n ret st o Hdev Hidr Ho.
  pose proof (dev_alloc_failure_exit env n ret st o Hdev Hidr Ho) as Heq.
  split; [done|]. split; [intros r; by apply dev_alloc_failure_keeps_ret|].
  intros Hk Hd Hl. rewrite Heq.
  eapply (ns_new_fail_unlinked _ _ (Ns.with_id (kdbus_ns_id_next st) o));
    try done.
  unfold st_before_dev. unfold_st. by rewrite lookup_insert_eq.
Qed.

(** The namespace at [a] is disconnected. *)
Definition ns_flagged (a : Z) (st : kstate) : Prop :=
  ∃ n, ns_heap st !! a = Some n ∧ ns_disconnected n = true.

























Lemma ns_find_none parent name st st' :
  kdbus_ns_find parent name st = Some (None, st') → st' = st.
Proof.
  unfold kdbus_ns_find. intros Hrun.
  destruct (ns_find_entry _ _ _ _) as [[a|]|]; simplify_eq/=; [|done].
  by destruct (kdbus_ns_ref a st).
Qed.

Section NsNewFlags.
Context `{ns_config}.



End NsNewFlags.




Lemma bus_find_none ns name st st' :
  kdbus_bus_find ns name st = Some (None, st') → st' = st.
Proof.
  unfold kdbus_bus_find. intros Hrun.
  destruct (ns_heap st !! ns); [|done]. simpl in Hrun.
  destruct (bus_find_entry _ _ _) as [[a|]|]; simplify_eq/=; [|done].
  by destruct (kdbus_bus_ref a st).
Qed.

Section BusNewFlags.
Context `{bus_config}.


End BusNewFlags.

(** What the first disconnect of a namespace does outside the object:
    the control device, when there is one, is unregistered; the major,
    when it is set, leaves the index and is unregistered; the log line. *)
Definition ns_teardown (n : kdbus_ns) : list event :=
  match ns_dev n with Some dev => [EvDeviceUnregister dev] | None => [] end ++
  (if bool_decide (0 < ns_major n)
   then [EvIdrRemove (ns_major n); EvUnregisterChrdev (ns_major n)] else []) ++
  [EvPrInfo ("closing namespace " +:+ fmt_s (ns_devpath n))].

(** The calls into ep.c that take the endpoints of a bus down: each
    endpoint of the list, from the head on, is disconnected and then
    released. *)
Fixpoint ep_calls (eps : list Z) : list event :=
  match eps with
  | [] => []
  | ep :: eps' => EvEpDisconnect ep :: EvEpUnref ep :: ep_calls eps'
  end.


(** The loop of [kdbus_bus_disconnect] makes these calls. *)
Lemma ep_teardown_calls eps : ep_teardown eps = ep_calls eps.
Proof.
  induction eps as [|ep eps IH]; [done|].
  change (ep_teardown (ep :: eps))
    with ([EvEpDisconnect ep; EvEpUnref ep] ++ ep_teardown eps).
  by rewrite IH.
Qed.


Lemma ns_disconnect_again a st :
  ns_flagged a st → kdbus_ns_disconnect a st = Some st.
Proof.
  intros (n & Hn & Hf). unfold kdbus_ns_disconnect. rewrite Hn. simpl.
  by rewrite Hf.
Qed.

Lemma ns_disconnect_first a n st :
  ns_heap st !! a = Some n → ns_disconnected n = false →
  a ∈ namespace_list st →
  ∃ st', kdbus_ns_disconnect a st = Some st' ∧
         ns_flagged a st' ∧
         namespace_list st' = list_without a (namespace_list st) ∧
         bus_heap st' = bus_heap st ∧
         ns_bus_list <$> ns_heap st' !! a = Some (ns_bus_list n) ∧
         trace st' = trace st ++ ns_teardown n.
Proof.
  intros Hn Hf Hl. unfold kdbus_ns_disconnect, ns_teardown.
  rewrite Hn. simpl. rewrite Hf, (list_del_Some _ _ Hl). simpl.
  destruct n as [kref disc id name devpath parent major dev buses next].
  simpl in *. destruct dev as [dev|]; simpl;
    case_bool_decide; simpl; unfold_st;
    (eexists; split; [done|]; unfold ns_flagged; simpl; split_and!;
      [ eexists; rewrite lookup_insert_eq; done
      | done
      | done
      | by rewrite lookup_insert_eq
      | by rewrite <- ?(assoc_L (++)) ]).
Qed.

(** A namespace that is neither flagged nor on the list cannot be
    disconnected: unlinking it is an invalid access. *)
Lemma ns_disconnect_unlinked a n st :
  ns_heap st !! a = Some n → ns_disconnected n = false →
  a ∉ namespace_list st →
  kdbus_ns_disconnect a st = None.
Proof.
  intros Hn Hf Hl. unfold kdbus_ns_disconnect. rewrite Hn. simpl.
  by rewrite Hf, (list_del_None _ _ Hl).
Qed.



(** The operations of the two files on the object graph. *)
Inductive op :=
  | NsRef (ns : Z)
  | NsUnref (ns : Z)
  | NsDisconnect (ns : Z)
  | NsNew (env : ns_env) (parent : option Z) (name : option string) (mode : Z)
  | BusRef (bus : Z)
  | BusUnref (bus : Z)
  | BusDisconnect (bus : Z)
  | BusNew (env : bus_env) (ns : Z) (kmake : bus_kmake) (mode uid gid : Z).

Definition run_op `{ns_config} `{bus_config} (o : op) (st : kstate)
  : option kstate :=
  match o with
  | NsRef ns => kdbus_ns_ref ns st
  | NsUnref ns => kdbus_ns_unref ns st
  | NsDisconnect ns => kdbus_ns_disconnect ns st
  | NsNew env parent name mode =>
      nr_state <$> kdbus_ns_new env parent name mode st
  | BusRef bus => kdbus_bus_ref bus st
  | BusUnref bus => kdbus_bus_unref bus st
  | BusDisconnect bus => kdbus_bus_disconnect bus st
  | BusNew env ns kmake mode uid gid =>
      br_state <$> kdbus_bus_new env ns kmake mode uid gid st
  end.

(** The allocator hands out addresses that are not in use. *)
Definition allocates_fresh (o : op) (st : kstate) : Prop :=
  match o with
  | NsNew env _ _ _ => ∀ n, kzalloc_ns env = Some n → ns_heap st !! n = None
  | BusNew env _ _ _ _ _ =>
      ∀ b, kzalloc_bus env = Some b → bus_heap st !! b = None
  | _ => True
  end.


#[local] Instance sample_bus_config : bus_config := {| KDBUS_POLICY_OPEN := 1 |}.

(** The initial namespace of [st_root]. *)
Definition root_ns : kdbus_ns :=
  {| ns_kref := 1; ns_disconnected := false; ns_id := 0; ns_name := None;
     ns_devpath := Some "kdbus"%string; ns_parent := None; ns_major := 222;
     ns_dev := Some 0x2000; ns_bus_list := []; ns_bus_id_next := 0 |}.

(** The test of [kdbus_bus_new] looks at one character: the length given
    to [strncmp] is the truth value of [strlen(prefix) != 0]. *)
Lemma prefix_check_one_char uid name :
  strncmp name (uid_prefix uid)
    (Z.to_nat (c_bool (negb (bool_decide (strlen (uid_prefix uid) = 0)))))
  = strncmp name (uid_prefix uid) 1.
Proof.
  f_equal. rewrite bool_decide_eq_false_2; [done|].
  unfold uid_prefix, strlen. destruct (fmt_u uid); simpl; lia.
Qed.

(** An environment of [kdbus_bus_new] that refuses nothing, for a caller
    with uid 1000. *)
Definition bus_env_ok : bus_env :=
  {| from_kuid := 1000; kzalloc_bus := Some 0x5000; Bus.kstrdup_name := true;
     kdbus_name_registry_new := Some 0x6000; kdbus_ep_new := 0;
     kdbus_ep_new_ep := 0x7000 |}.

Definition kmake_named (name : string) : bus_kmake :=
  {| kmake_name := name; kmake_flags := 0; kmake_bloom_size := 64;
     kmake_cgroup_id := 0 |}.

(** The state with the bus "1000-test" in the initial namespace. *)
Definition st_bus : kstate :=
  default st_root
    (br_state <$> kdbus_bus_new bus_env_ok 0x1000
                    (kmake_named "1000-test") 438 1000 1000 st_root).





(** C1: for the caller with uid 1000 the name "1001-test" does not begin
    with "1000-", yet kdbus_bus_new returns 0 and links the new bus into
    the namespace; only a name that differs in its first character, like
    "999-test", is refused with -EPERM. *)
Theorem C1_prefix_check_compares_one_char :
  has_prefix (uid_prefix 1000) "1001-test" = false ∧
  (∃ r, kdbus_bus_new bus_env_ok 0x1000 (kmake_named "1001-test") 438 1000
          1000 st_root = Some r ∧
        br_ret r = 0 ∧ br_bus r = Some 0x5000 ∧
        bus_name <$> bus_heap (br_state r) !! 0x5000
          = Some (Some "1001-test"%string) ∧
        ns_bus_list <$> ns_heap (br_state r) !! 0x1000 = Some [0x5000]) ∧
  (∃ r, kdbus_bus_new bus_env_ok 0x1000 (kmake_named "999-test") 438 1000
          1000 st_root = Some r ∧
        br_ret r = - EPERM ∧ br_bus r = None ∧
        bus_heap (br_state r) = ∅).
Proof.
  split; [done|]. split.
  - eexists. split; [by vm_compute|]. by vm_compute.
  - eexists. split; [by vm_compute|]. by vm_compute.
Qed.

End ObjectSpec.

(** ** The metadata buffer *)
Module MetaSpec.
Import Meta.

Lemma slice_Some off len buf bs :
  slice off len buf = Some bs →
  0 ≤ off ∧ 0 ≤ len ∧ off + len ≤ Z.of_nat (length buf) ∧
  bs = take (Z.to_nat len) (drop (Z.to_nat off) buf).
Proof. unfold slice. case_bool_decide; [|done]. intros [= <-]. tauto. Qed.

Lemma length_slice off len buf bs :
  slice off len buf = Some bs → Z.of_nat (length bs) = len.
Proof.
  intros (? & ? & ? & ->)%slice_Some.
  rewrite length_take, length_drop. lia.
Qed.

(** Two buffers agree on the offsets from [lo] up to [hi]. *)
Definition agree (lo hi : Z) (buf buf' : list Z) : Prop :=
  ∀ i : nat, lo ≤ Z.of_nat i < hi → buf' !! i = buf !! i.

Lemma agree_weaken lo hi lo' hi' buf buf' :
  agree lo hi buf buf' → lo ≤ lo' → hi' ≤ hi → agree lo' hi' buf buf'.
Proof. intros H ?? i ?. apply H. lia. Qed.

Lemma agree_trans lo hi b1 b2 b3 :
  agree lo hi b1 b2 → agree lo hi b2 b3 → agree lo hi b1 b3.
Proof. intros H1 H2 i ?. by rewrite H2, H1. Qed.

Lemma get_u64_agree off buf buf' v :
  agree off (off + 8) buf buf' →
  get_u64 off buf = Some v → get_u64 off buf' = Some v.
Proof.
  unfold get_u64. intros Hag Hget.
  destruct (slice off 8 buf) as [bs|] eqn:Hs; [|done].
  apply slice_Some in Hs as (Hoff & _ & Hin & ->).
  assert (Hlen : off + 8 ≤ Z.of_nat (length buf')).
  { assert (is_Some (buf' !! Z.to_nat (off + 7))) as Hl.
    { rewrite Hag by lia. apply lookup_lt_is_Some. lia. }
    apply lookup_lt_is_Some in Hl. lia. }
  unfold slice. rewrite bool_decide_eq_true_2 by lia.
  simpl in *. rewrite <- Hget. do 2 f_equal.
  apply list_eq. intros i.
  destruct (decide (i < 8)%nat) as [Hi|Hi].
  - rewrite !lookup_take_lt, !lookup_drop by lia. apply Hag. lia.
  - rewrite !lookup_take_ge by lia. done.
Qed.

Lemma store_Some off bs buf buf' :
  store off bs buf = Some buf' →
  0 ≤ off ∧ off + Z.of_nat (length bs) ≤ Z.of_nat (length buf) ∧
  buf' = blit (Z.to_nat off) bs buf.
Proof. unfold store. case_bool_decide; [|done]. intros [= <-]. tauto. Qed.

Lemma length_store off bs buf buf' :
  store off bs buf = Some buf' → length buf' = length buf.
Proof.
  intros (? & ? & ->)%store_Some. unfold blit.
  rewrite !length_app, length_take, length_drop. lia.
Qed.

Lemma store_agree_below off bs buf buf' :
  store off bs buf = Some buf' → agree 0 off buf buf'.
Proof.
  intros (? & ? & ->)%store_Some i Hi. unfold blit.
  rewrite lookup_app_l by (rewrite length_take; lia).
  apply lookup_take_lt. lia.
Qed.

Lemma store_agree_above off bs buf buf' :
  store off bs buf = Some buf' →
  agree (off + Z.of_nat (length bs)) (Z.of_nat (length buf)) buf buf'.
Proof.
  intros (? & ? & ->)%store_Some i Hi. unfold blit.
  rewrite lookup_app_r by (rewrite length_take; lia).
  rewrite lookup_app_r by (rewrite length_take; lia).
  rewrite lookup_drop. f_equal. rewrite length_take. lia.
Qed.

Lemma get_u64_store off v buf buf' :
  store off (le_encode 8 v) buf = Some buf' →
  get_u64 off buf' = Some (u64 v).
Proof.
  intros Hst. pose proof (length_store _ _ _ _ Hst) as Hlen.
  apply store_Some in Hst as (? & Hin & ->).
  rewrite length_le_encode in Hin.
  unfold get_u64, slice. rewrite bool_decide_eq_true_2 by lia.
  simpl. f_equal. rewrite <- le_decode_encode_u64. f_equal.
  unfold blit. rewrite drop_app_length' by (rewrite length_take; lia).

  rewrite take_app_length' by (by rewrite length_le_encode). done.
Qed.

Lemma store_agree_in off bs buf buf' :
  store off bs buf = Some buf' →
  ∀ i : nat, (i < length bs)%nat → buf' !! (Z.to_nat off + i)%nat = bs !! i.
Proof.
  intros (? & ? & ->)%store_Some i Hi. unfold blit.
  rewrite lookup_app_r by (rewrite length_take; lia).
  rewrite lookup_app_l by (rewrite length_take; lia).
  f_equal. rewrite length_take. lia.
Qed.

(** The items of a buffer from offset [off] up to [fin]: the type and the
    declared size of each, every item on an 8-byte boundary, of at least
    the header size, followed by the next at the aligned size. *)
Inductive items_in (buf : list Z) : Z → Z → list (Z * Z) → Prop :=
  | items_nil off : items_in buf off off []
  | items_cons off fin type size its :
      0 ≤ off → off mod 8 = 0 →
      get_u64 off buf = Some size →
      get_u64 (off + 8) buf = Some type →
      KDBUS_ITEM_HEADER_SIZE ≤ size → size + 7 < 2 ^ 64 →
      items_in buf (off + KDBUS_ALIGN8 size) fin its →
      items_in buf off fin ((type, size) :: its).

Lemma align8_ge size :
  KDBUS_ITEM_HEADER_SIZE ≤ size → size + 7 < 2 ^ 64 →
  16 ≤ KDBUS_ALIGN8 size ∧ size ≤ KDBUS_ALIGN8 size < size + 8 ∧
  KDBUS_ALIGN8 size mod 8 = 0.
Proof.
  unfold KDBUS_ITEM_HEADER_SIZE. intros.
  destruct (KDBUS_ALIGN8_bounds size) as [??]; lia.
Qed.

Lemma items_in_le buf off fin its : items_in buf off fin its → off ≤ fin.
Proof.
  induction 1 as [|off fin ty sz its ???? Hsz Hw _ IH]; [lia|].
  pose proof (align8_ge sz Hsz Hw). lia.
Qed.

Lemma items_in_aligned buf off fin its :
  items_in buf off fin its → off mod 8 = 0 → fin mod 8 = 0.
Proof.
  induction 1 as [|off fin ty sz its ???? Hsz Hw _ IH]; [done|].
  intros _. apply IH. pose proof (align8_ge sz Hsz Hw) as (_ & _ & Ha).
  rewrite Z.add_mod by lia. rewrite Ha. by rewrite H0.
Qed.

Lemma items_in_agree buf buf' off fin its :
  items_in buf off fin its → agree off fin buf buf' →
  items_in buf' off fin its.
Proof.
  induction 1 as [|off fin ty sz its ?? Hs Ht Hsz Hw Hrest IH]; intros Hag.
  - constructor.
  - pose proof (align8_ge sz Hsz Hw). pose proof (items_in_le _ _ _ _ Hrest).
    constructor; try done.
    + eapply get_u64_agree; [|done]. eapply agree_weaken; [done|lia..].
    + eapply get_u64_agree; [|done]. eapply agree_weaken; [done|lia..].
    + apply IH. eapply agree_weaken; [done|lia..].
Qed.

Lemma items_in_app buf off mid fin its1 its2 :
  items_in buf off mid its1 → items_in buf mid fin its2 →
  items_in buf off fin (its1 ++ its2).
Proof.
  induction 1; intros Hrest; [done|]. simpl. constructor; auto.
Qed.

Lemma items_in_det buf off fin its1 its2 :
  items_in buf off fin its1 → items_in buf off fin its2 → its1 = its2.
Proof.
  intros H1. revert its2.
  induction H1 as [|off fin ty sz its ?? Hs Ht Hsz Hw Hrest IH]; intros its2 H2.
  - inversion H2 as [|??????? Hs2 Ht2 Hsz2 Hw2 Hrest2]; [done|]. subst.
    pose proof (align8_ge _ Hsz2 Hw2). apply items_in_le in Hrest2. lia.
  - inversion H2 as [|??????? Hs2 Ht2 Hsz2 Hw2 Hrest2]; subst.
    + pose proof (align8_ge _ Hsz Hw). apply items_in_le in Hrest. lia.
    + simplify_eq. f_equal. by apply IH.
Qed.

(** The buffer of [m] holds exactly the items [its]: the invariant of the
    metadata object. *)
Definition holds (m : kdbus_meta) (its : list (Z * Z)) : Prop :=
  0 ≤ meta_size m ≤ meta_allocated_size m ∧
  meta_size m mod 8 = 0 ∧
  meta_allocated_size m ≤ KMALLOC_MAX_SIZE ∧
  match meta_data m with
  | Some buf =>
      Z.of_nat (length buf) = meta_allocated_size m ∧
      items_in buf 0 (meta_size m) its
  | None => meta_size m = 0 ∧ meta_allocated_size m = 0 ∧ its = []
  end.

(** Unfold the sequencing of [M]. *)
Ltac run_M :=
  repeat progress
    (unfold mbind, M_bind, mret, M_ret, get_meta, put_meta, must, trap,
       next_alloc in *; cbn beta iota zeta delta [fst snd] in * ).

Lemma roundup_pow_of_two_ge n :
  0 < n ≤ 2 ^ 63 → n ≤ roundup_pow_of_two n ∧ roundup_pow_of_two n ≤ 2 ^ 63.
Proof.
  intros Hn. unfold roundup_pow_of_two.
  assert (Z.log2_up n ≤ 63) by (apply Z.log2_up_le_pow2; lia).
  assert (0 ≤ Z.log2_up n) by apply Z.log2_up_nonneg.
  assert (2 ^ Z.log2_up n ≤ 2 ^ 63) by (apply Z.pow_le_mono_r; lia).
  assert (n ≤ 2 ^ Z.log2_up n).
  { destruct (decide (n = 1)) as [->|]; [done|].
    apply Z.log2_up_spec. lia. }
  rewrite u64_small by lia. lia.
Qed.

Lemma first_alloc_spec extra w m ok w' m' its :
  holds m its →
  meta_first_alloc extra (w, m) = Some (ok, (w', m')) →
  meta_attached m' = meta_attached m ∧
  if ok then holds m' its ∧ is_Some (meta_data m') ∧ meta_size m' = meta_size m
  else m' = m.
Proof.
  intros (Hsz & Hal & Hmax & Hdata). unfold meta_first_alloc, kzalloc. run_M.
  destruct (meta_data m) as [buf|] eqn:Hd.
  - intros [= <- <- <-]. split; [done|]. unfold holds. rewrite Hd. eauto 10.
  - destruct Hdata as (Hs0 & Ha0 & ->).
    destruct w as [|[g|] w0]; simpl; try (by intros [= <- <- <-]).
    case_bool_decide as Hfit; simpl; [|by intros [= <- <- <-]].
    intros [= <- <- <-]. simpl. split; [done|]. split; [|by eauto].
    unfold holds. simpl. rewrite Hs0.
    set (size := roundup_pow_of_two _) in *.
    assert (0 ≤ size) by apply u64_range.
    split_and!; try lia; try done.
    + rewrite length_replicate. lia.
    + constructor.
Qed.

Lemma grow_spec extra w m ok w' m' its :
  holds m its → is_Some (meta_data m) → 0 ≤ extra < 2 ^ 62 + 24 →
  meta_grow extra (w, m) = Some (ok, (w', m')) →
  meta_attached m' = meta_attached m ∧
  if ok then holds m' its ∧ is_Some (meta_data m') ∧
             meta_size m' = meta_size m ∧
             meta_size m + extra ≤ meta_allocated_size m'
  else m' = m.
Proof.
  intros (Hsz & Hal & Hmax & Hdata) [buf Hd] Hex.
  rewrite Hd in Hdata. destruct Hdata as [Hlen Hits].
  assert (Hkm : KMALLOC_MAX_SIZE = 2 ^ 22) by done.
  unfold meta_grow, kmalloc. run_M.
  rewrite (u64_small (meta_size m + extra)) by lia.
  case_bool_decide as Hgrow.
  2:{ intros [= <- <- <-]. split; [done|]. unfold holds. rewrite Hd.
      split_and!; try done; try lia. }
  set (size := roundup_pow_of_two _) in *.
  destruct (roundup_pow_of_two_ge (meta_size m + extra)) as [Hge Hle];
    [lia|]. fold size in Hge, Hle.
  destruct w as [|[g|] w0]; simpl; try (by intros [= <- <- <-]).
  case_bool_decide as Hfit; simpl; [|by intros [= <- <- <-]].
  rewrite Hd. simpl.
  destruct (slice 0 (meta_size m) buf) as [bytes|] eqn:Hbytes; [|done].
  simpl. destruct (store 0 bytes _) as [d1|] eqn:Hd1; [|done]. simpl.
  destruct (store (meta_allocated_size m) _ d1) as [d2|] eqn:Hd2; [|done].
  simpl. intros [= <- <- <-]. simpl. split; [done|].
  split; [|split; [by eauto|split; [done|lia]]].
  unfold holds. simpl.
  split_and!; try lia.
  - rewrite (length_store _ _ _ _ Hd2), (length_store _ _ _ _ Hd1).
    rewrite length_resize. lia.
  - eapply items_in_agree; [done|]. intros i Hi.
    rewrite (store_agree_below _ _ _ _ Hd2 i) by lia.
    pose proof (length_slice _ _ _ _ Hbytes) as Hbl.
    pose proof (store_agree_in _ _ _ _ Hd1 i ltac:(lia)) as Hin.
    simpl in Hin. rewrite Hin.
    apply slice_Some in Hbytes as (_ & _ & _ & ->).
    rewrite lookup_take_lt by lia. by rewrite lookup_drop.
Qed.

(** The item at offset [item], of type [type] and declared size [size],
    is the last of the buffer of [m], behind the items [its]; its payload
    may still be written. *)
Definition open_at (m : kdbus_meta) (its : list (Z * Z)) (item type size : Z)
  : Prop :=
  ∃ buf, meta_data m = Some buf ∧
    Z.of_nat (length buf) = meta_allocated_size m ∧
    meta_allocated_size m ≤ KMALLOC_MAX_SIZE ∧
    items_in buf 0 item its ∧
    get_u64 item buf = Some size ∧ get_u64 (item + 8) buf = Some type ∧
    KDBUS_ITEM_HEADER_SIZE ≤ size ∧ size + 7 < 2 ^ 64 ∧
    meta_size m = item + KDBUS_ALIGN8 size ∧
    meta_size m ≤ meta_allocated_size m.

Lemma open_at_holds m its item type size :
  open_at m its item type size → holds m (its ++ [(type, size)]).
Proof.
  intros (buf & Hd & Hlen & Hmax & Hits & Hs & Ht & Hsz & Hw & Hsize & Hfit).
  pose proof (align8_ge size Hsz Hw) as (? & ? & Hal).
  pose proof (items_in_le _ _ _ _ Hits).
  pose proof (items_in_aligned _ _ _ _ Hits eq_refl) as Hial.
  unfold holds. rewrite Hd. split_and!; try lia; try done.
  - rewrite Hsize, Z.add_mod by lia. by rewrite Hial, Hal.
  - eapply items_in_app; [done|].
    constructor; try done; try lia. rewrite <- Hsize. constructor.
Qed.

Lemma insert_spec type payload extra w m item w' m' its :
  holds m its → is_Some (meta_data m) →
  0 ≤ payload < 2 ^ 62 →
  extra = KDBUS_ITEM_SIZE payload →
  meta_size m + extra ≤ meta_allocated_size m →
  meta_insert type payload extra (w, m) = Some (item, (w', m')) →
  meta_attached m' = meta_attached m ∧ item = meta_size m ∧
  open_at m' its item (u64 type) (KDBUS_ITEM_HEADER_SIZE + payload).
Proof.
  intros (Hsz & Hal & Hmax & Hdata) [buf Hd] Hp -> Hroom.
  rewrite Hd in Hdata. destruct Hdata as [Hlen Hits].
  assert (Hkm : KMALLOC_MAX_SIZE = 2 ^ 22) by done.
  unfold KDBUS_ITEM_SIZE, KDBUS_ITEM_HEADER_SIZE in *.
  rewrite (u64_small (payload + 16)) in * by lia.
  pose proof (align8_ge (payload + 16)) as (? & ? & Hal8);
    [unfold KDBUS_ITEM_HEADER_SIZE; lia..|].
  unfold meta_insert, meta_store. run_M. rewrite Hd. simpl.
  destruct (store (meta_size m + 8) _ buf) as [b1|] eqn:Hb1; [|done]. simpl.
  destruct (store (meta_size m) _ b1) as [b2|] eqn:Hb2; [|done]. simpl.
  intros [= <- <- <-]. simpl. split; [done|]. split; [done|].
  unfold KDBUS_ITEM_HEADER_SIZE in *.
  rewrite (u64_small (meta_size m + _)) by lia.
  exists b2. simpl.
  split_and!; try done; try lia.
  - rewrite (length_store _ _ _ _ Hb2), (length_store _ _ _ _ Hb1). done.
  - eapply items_in_agree; [done|]. intros i Hi.
    rewrite (store_agree_below _ _ _ _ Hb2 i) by lia.
    apply (store_agree_below _ _ _ _ Hb1 i). lia.
  - rewrite (get_u64_store _ _ _ _ Hb2). f_equal.
    rewrite (u64_small (16 + payload)) by lia. apply u64_small. lia.
  - eapply get_u64_agree; [|by eapply get_u64_store].
    rewrite <- (length_store _ _ _ _ Hb1) in Hlen.
    pose proof (store_agree_above _ _ _ _ Hb2) as Hab.
    rewrite length_le_encode in Hab.
    eapply agree_weaken; [exact Hab|lia..].
  - unfold KDBUS_ITEM_HEADER_SIZE. lia.
  - replace (16 + payload) with (payload + 16) by lia. done.
Qed.

Lemma append_item_spec type payload w m r w' m' its :
  holds m its → 0 ≤ payload < 2 ^ 62 →
  kdbus_meta_append_item type payload (w, m) = Some (r, (w', m')) →
  meta_attached m' = meta_attached m ∧
  match r with
  | inl err => err = - ENOMEM ∧ holds m' its
  | inr item =>
      open_at m' its item (u64 type) (KDBUS_ITEM_HEADER_SIZE + payload)
  end.
Proof.
  intros Hm Hp. unfold kdbus_meta_append_item.
  set (extra := KDBUS_ITEM_SIZE payload).
  assert (Hextra : 0 ≤ extra < 2 ^ 62 + 24).
  { unfold extra, KDBUS_ITEM_SIZE, KDBUS_ITEM_HEADER_SIZE.
    rewrite (u64_small (payload + 16)) by lia.
    pose proof (align8_ge (payload + 16)) as (? & ? & _);
      [unfold KDBUS_ITEM_HEADER_SIZE; lia..|]. lia. }
  unfold mbind at 1, M_bind at 1.
  destruct (meta_first_alloc extra (w, m)) as [[ok1 [w1 m1]]|] eqn:H1; [|done].
  destruct (first_alloc_spec _ _ _ _ _ _ _ Hm H1) as [Ha1 Hr1].
  destruct ok1; simpl.
  2:{ intros [= <- <- <-]. subst m1. done. }
  destruct Hr1 as (Hm1 & Hd1 & Hs1).
  unfold mbind at 1, M_bind at 1.
  destruct (meta_grow extra (w1, m1)) as [[ok2 [w2 m2]]|] eqn:H2; [|done].
  destruct (grow_spec _ _ _ _ _ _ _ Hm1 Hd1 Hextra H2) as [Ha2 Hr2].
  destruct ok2; simpl.
  2:{ intros [= <- <- <-]. subst m2. split; [congruence|done]. }
  destruct Hr2 as (Hm2 & Hd2 & Hs2 & Hroom).
  unfold mbind at 1, M_bind at 1.
  destruct (meta_insert type payload extra (w2, m2)) as [[item [w3 m3]]|]
    eqn:H3; [|done].
  destruct (insert_spec _ _ _ _ _ _ _ _ _ Hm2 Hd2 Hp eq_refl
              ltac:(lia) H3) as (Ha3 & -> & Hopen).
  intros [= <- <- <-]. split; [congruence|done].
Qed.

Lemma item_store_spec item k bs w m w' m' its type size :
  open_at m its item type size → 0 ≤ k →
  item_store item k bs (w, m) = Some ((), (w', m')) →
  w' = w ∧ meta_attached m' = meta_attached m ∧
  open_at m' its item type size.
Proof.
  intros (buf & Hd & Hlen & Hmax & Hits & Hs & Ht & Hsz & Hw & Hsize & Hfit) Hk.
  unfold item_store, meta_store, KDBUS_ITEM_HEADER_SIZE in *. run_M.
  rewrite Hd. simpl.
  destruct (store (item + 16 + k) bs buf) as [b1|] eqn:Hb1; [|done]. simpl.
  intros [= <- <-]. simpl. split; [done|]. split; [done|].
  pose proof (store_agree_below _ _ _ _ Hb1) as Hag.
  pose proof (items_in_le _ _ _ _ Hits).
  exists b1. simpl. split_and!; try done.
  - by rewrite (length_store _ _ _ _ Hb1).
  - eapply items_in_agree; [done|]. eapply agree_weaken; [done|lia..].
  - eapply get_u64_agree; [|done]. eapply agree_weaken; [done|lia..].
  - eapply get_u64_agree; [|done]. eapply agree_weaken; [done|lia..].
Qed.

(** [f] appends, to a buffer that holds [its], the items [E] and returns a
    value that is not negative, or appends a prefix of [E] and returns a
    negative one; it leaves [meta->attached] alone. *)
Definition runs (f : M Z) (E : list (Z * Z)) : Prop :=
  ∀ w m its ret w' m',
    holds m its → f (w, m) = Some (ret, (w', m')) →
    meta_attached m' = meta_attached m ∧
    ∃ P, holds m' (its ++ P) ∧
         if bool_decide (ret < 0) then P `prefix_of` E else P = E.

Lemma runs_mret ret E : (0 ≤ ret → E = []) → runs (mret ret) E.
Proof.
  intros HE w m its r w' m' Hm [= <- <- <-]. split; [done|].
  exists []. rewrite app_nil_r. split; [done|].
  case_bool_decide; [apply prefix_nil|]. symmetry. apply HE. lia.
Qed.

Lemma runs_checked f k E1 E2 :
  runs f E1 → runs k E2 → runs (checked f k) (E1 ++ E2).
Proof.
  intros Hf Hk w m its ret w' m' Hm. unfold checked.
  unfold mbind at 1, M_bind at 1.
  destruct (f (w, m)) as [[r1 [w1 m1]]|] eqn:H1; [|done].
  destruct (Hf _ _ _ _ _ _ Hm H1) as (Ha1 & P1 & Hm1 & HP1).
  case_bool_decide as Hneg.
  - intros [= <- <- <-]. split; [done|]. exists P1. split; [done|].
    rewrite bool_decide_eq_true_2 by done. by apply prefix_app_r.
  - subst P1. intros H2.
    destruct (Hk _ _ _ _ _ _ Hm1 H2) as (Ha2 & P2 & Hm2 & HP2).
    split; [congruence|]. exists (E1 ++ P2).
    rewrite (assoc_L (++)). split; [done|].
    case_bool_decide; [by apply prefix_app|by subst].
Qed.

Lemma runs_when_checked (c : bool) f k E1 E2 :
  runs f E1 → runs k E2 →
  runs (when_checked c f k) ((if c then E1 else []) ++ E2).
Proof.
  intros Hf Hk. unfold when_checked. destruct c; [|done].
  by apply runs_checked.
Qed.

Lemma runs_page k E :
  runs k E →
  runs (page ← get_free_page; if negb page then mret (- ENOMEM) else k) E.
Proof.
  intros Hk w m its ret w' m' Hm. unfold get_free_page. run_M.
  destruct w as [|[g|] w0]; simpl.
  - by apply runs_mret.
  - by apply Hk.
  - by apply runs_mret.
Qed.

(** The item of one [kdbus_meta_append_data]. *)
Definition data_item (type len : Z) : list (Z * Z) :=
  if bool_decide (len = 0) then []
  else [(u64 type, KDBUS_ITEM_HEADER_SIZE + len)].

Lemma runs_append_data type data len :
  0 ≤ len < 2 ^ 62 →
  runs (kdbus_meta_append_data type data len) (data_item type len).
Proof.
  intros Hlen. unfold kdbus_meta_append_data, data_item.
  case_bool_decide; [by apply runs_mret|].
  intros w m its ret w' m' Hm.
  unfold mbind at 1, M_bind at 1.
  destruct (kdbus_meta_append_item type len (w, m)) as [[r [w1 m1]]|] eqn:H1;
    [|done].
  destruct (append_item_spec _ _ _ _ _ _ _ _ Hm Hlen H1) as [Ha1 Hr].
  destruct r as [err|item].
  - destruct Hr as [-> Hm1]. intros [= <- <- <-]. split; [done|].
    exists []. rewrite app_nil_r. split; [done|]. apply prefix_nil.
  - destruct data as [d|].
    + run_M. destruct (slice 0 len d) as [bytes|]; [|done]. simpl.
      destruct (item_store item 0 bytes (w1, m1)) as [[[] [w2 m2]]|] eqn:H2;
        [|done].
      destruct (item_store_spec item 0 bytes _ _ _ _ _ _ _ Hr ltac:(lia) H2)
        as (-> & Ha2 & Hopen).
      intros [= <- <- <-]. split; [congruence|].
      eexists. split; [by eapply open_at_holds|done].
    + intros [= <- <- <-]. split; [done|].
      eexists. split; [by eapply open_at_holds|done].
Qed.

Lemma runs_append_str type str :
  strlen str < 2 ^ 32 →
  runs (kdbus_meta_append_str type str)
    [(u64 type, KDBUS_ITEM_HEADER_SIZE + (strlen str + 1))].
Proof.
  intros Hlen. unfold kdbus_meta_append_str.
  assert (0 ≤ strlen str) by (unfold strlen; lia).
  rewrite u64_small by lia.
  pose proof (runs_append_data type (Some (cstr str ++ [0])) (strlen str + 1))
    as Hr. unfold data_item in Hr.
  rewrite bool_decide_eq_false_2 in Hr by lia. apply Hr. lia.
Qed.

(** [f] writes into the payload of the open item at [item] only. *)
Definition fills (item : Z) (f : M unit) : Prop :=
  ∀ w m w' m' its type size,
    open_at m its item type size → f (w, m) = Some ((), (w', m')) →
    meta_attached m' = meta_attached m ∧ open_at m' its item type size.

Lemma fills_mret item : fills item (mret ()).
Proof. by intros w m w' m' its ty sz Ho [= <- <-]. Qed.

Lemma fills_item_store item k bs : 0 ≤ k → fills item (item_store item k bs).
Proof.
  intros Hk w m w' m' its ty sz Ho Hrun.
  by destruct (item_store_spec _ _ _ _ _ _ _ _ _ _ Ho Hk Hrun) as (_ & ? & ?).
Qed.

Lemma fills_seq item (f g : M unit) :
  fills item f → fills item g → fills item (f;; g).
Proof.
  intros Hf Hg w m w' m' its ty sz Ho. unfold mbind, M_bind.
  destruct (f (w, m)) as [[[] [w1 m1]]|] eqn:H1; [|done]. intros H2.
  destruct (Hf _ _ _ _ _ _ _ Ho H1) as [Ha1 Ho1].
  destruct (Hg _ _ _ _ _ _ _ Ho1 H2) as [Ha2 Ho2].
  split; [congruence|done].
Qed.

(** [g] goes on behind the open item at [item] like a function that
    appends [E]. *)
Definition finishes (item : Z) (g : M Z) (E : list (Z * Z)) : Prop :=
  ∀ w m its type size ret w' m',
    open_at m its item type size → g (w, m) = Some (ret, (w', m')) →
    meta_attached m' = meta_attached m ∧
    ∃ P, holds m' (its ++ (type, size) :: P) ∧
         if bool_decide (ret < 0) then P `prefix_of` E else P = E.

Lemma finishes_runs item k E : runs k E → finishes item k E.
Proof.
  intros Hk w m its ty sz ret w' m' Ho Hrun.
  apply open_at_holds in Ho.
  destruct (Hk _ _ _ _ _ _ Ho Hrun) as (Ha & P & Hm & HP).
  split; [done|]. exists P. by rewrite <- (assoc_L (++)) in Hm.
Qed.

Lemma finishes_seq item (f : M unit) (g : M Z) E :
  fills item f → finishes item g E → finishes item (f;; g) E.
Proof.
  intros Hf Hg w m its ty sz ret w' m' Ho. unfold mbind, M_bind.
  destruct (f (w, m)) as [[[] [w1 m1]]|] eqn:H1; [|done]. intros H2.
  destruct (Hf _ _ _ _ _ _ _ Ho H1) as [Ha1 Ho1].
  destruct (Hg _ _ _ _ _ _ _ _ Ho1 H2) as (Ha2 & P & Hm & HP).
  split; [congruence|]. by exists P.
Qed.

Lemma runs_item type payload (body : Z → M Z) E :
  0 ≤ payload < 2 ^ 62 →
  (∀ item, finishes item (body item) E) →
  runs (r ← kdbus_meta_append_item type payload;
        match r with
        | inl err => mret err
        | inr item => body item
        end)
    ((u64 type, KDBUS_ITEM_HEADER_SIZE + payload) :: E).
Proof.
  intros Hp Hbody w m its ret w' m' Hm.
  unfold mbind at 1, M_bind at 1.
  destruct (kdbus_meta_append_item type payload (w, m)) as [[r [w1 m1]]|]
    eqn:H1; [|done].
  destruct (append_item_spec _ _ _ _ _ _ _ _ Hm Hp H1) as [Ha1 Hr].
  destruct r as [err|item].
  - destruct Hr as [-> Hm1]. intros [= <- <- <-]. split; [done|].
    exists []. rewrite app_nil_r. split; [done|]. apply prefix_nil.
  - intros H2.
    destruct (Hbody item _ _ _ _ _ _ _ _ Hr H2) as (Ha2 & P & Hm2 & HP).
    split; [congruence|].
    exists ((u64 type, KDBUS_ITEM_HEADER_SIZE + payload) :: P).
    split; [done|].
    case_bool_decide; [by apply prefix_cons|by subst].
Qed.

Lemma runs_mret0 : runs (mret 0) [].
Proof. by apply runs_mret. Qed.

Lemma strlen_string_take n s : strlen (string_take n s) ≤ Z.of_nat n.
Proof.
  unfold strlen. revert s. induction n as [|n IH]; intros [|c s]; simpl;
    try lia. specialize (IH s). lia.
Qed.

Section Records.
Context `{kdbus_h}.
Variable current : task.

(** The sizes the snapshot of the task needs stay far below the range of
    [size_t]. *)
Definition task_sane : Prop :=
  Z.of_nat (length (cur_groups current)) < 2 ^ 32 ∧
  (∀ mm path, cur_mm current = Some mm →
              mm_exe_file mm = Some (inr path) →
              Z.of_nat (length path) ≤ PAGE_SIZE) ∧
  (∀ p, cgroup_path current = Some p → strlen p < PAGE_SIZE) ∧
  0 ≤ secctx_len current < 2 ^ 32.

Definition conn_sane (conn : option kdbus_conn) : Prop :=
  ∀ c, conn = Some c →
    (∀ nm, conn_name c = Some nm → strlen nm < 2 ^ 32) ∧
    Forall (λ e, strlen e.2 < 2 ^ 32) (conn_names_list c).

(** The record set of the spec, as item headers (type, declared size):
    what each bit of the mask adds for this task and connection. *)
Definition str_item (type : Z) (s : string) : Z * Z :=
  (u64 type, KDBUS_ITEM_HEADER_SIZE + (strlen s + 1)).

Definition timestamp_items : list (Z * Z) :=
  [(u64 KDBUS_ITEM_TIMESTAMP, KDBUS_ITEM_HEADER_SIZE + sizeof_kdbus_timestamp)].

Definition cred_items : list (Z * Z) :=
  [(u64 KDBUS_ITEM_CREDS, KDBUS_ITEM_HEADER_SIZE + sizeof_kdbus_creds)].

Definition auxgroups_items : list (Z * Z) :=
  [(u64 KDBUS_ITEM_AUXGROUPS,
    KDBUS_ITEM_HEADER_SIZE + Z.of_nat (length (cur_groups current)) * 8)].

Definition name_item (e : Z * string) : Z * Z :=
  (u64 KDBUS_ITEM_NAME,
   KDBUS_ITEM_HEADER_SIZE + (sizeof_kdbus_name + (strlen e.2 + 1))).

Definition names_items (conn : option kdbus_conn) : list (Z * Z) :=
  match conn with
  | Some c => name_item <$> conn_names_list c
  | None => []
  end.

Definition comm_items : list (Z * Z) :=
  [str_item KDBUS_ITEM_TID_COMM (string_take 15 (group_leader_comm current));
   str_item KDBUS_ITEM_PID_COMM (string_take 15 (cur_comm current))].

Definition exe_items : list (Z * Z) :=
  match cur_mm current with
  | Some mm =>
      match mm_exe_file mm with
      | Some (inr path) => data_item KDBUS_ITEM_EXE (Z.of_nat (length path))
      | _ => []
      end
  | None => []
  end.

Definition cmdline_len (mm : mm_struct) : Z :=
  let len := u64 (mm_arg_end mm - mm_arg_start mm) in
  if bool_decide (PAGE_SIZE < len) then PAGE_SIZE else len.

Definition cmdline_items : list (Z * Z) :=
  match cur_mm current with
  | Some mm =>
      if bool_decide (mm_arg_end mm = 0) then []
      else data_item KDBUS_ITEM_CMDLINE (cmdline_len mm)
  | None => []
  end.

Definition caps_items : list (Z * Z) :=
  [(u64 KDBUS_ITEM_CAPS,
    KDBUS_ITEM_HEADER_SIZE + Z.of_nat (4 * _KERNEL_CAPABILITY_U32S * 4))].

Definition cgroup_items : list (Z * Z) :=
  match cgroup_path current with
  | Some path => [str_item KDBUS_ITEM_CGROUP path]
  | None => []
  end.

Definition audit_items : list (Z * Z) :=
  [(u64 KDBUS_ITEM_AUDIT, KDBUS_ITEM_HEADER_SIZE + sizeof_kdbus_audit)].

Definition seclabel_items : list (Z * Z) :=
  if bool_decide (secctx_ret current < 0) then []
  else match secctx_label current with
       | Some _ => data_item KDBUS_ITEM_SECLABEL (secctx_len current)
       | None => []
       end.

Definition conn_name_items (conn : option kdbus_conn) : list (Z * Z) :=
  match conn ≫= conn_name with
  | Some name => [str_item KDBUS_ITEM_CONN_NAME name]
  | None => []
  end.

Definition records (conn : option kdbus_conn) (mask : Z) : list (Z * Z) :=
  (if has_flag mask KDBUS_ATTACH_TIMESTAMP then timestamp_items else []) ++
  (if has_flag mask KDBUS_ATTACH_CREDS then cred_items else []) ++
  (if has_flag mask KDBUS_ATTACH_AUXGROUPS then auxgroups_items else []) ++
  (if has_flag mask KDBUS_ATTACH_NAMES then names_items conn else []) ++
  (if has_flag mask KDBUS_ATTACH_COMM then comm_items else []) ++
  (if has_flag mask KDBUS_ATTACH_EXE then exe_items else []) ++
  (if has_flag mask KDBUS_ATTACH_CMDLINE then cmdline_items else []) ++
  (if has_flag mask KDBUS_ATTACH_CAPS then caps_items else []) ++
  (if CONFIG_CGROUPS && has_flag mask KDBUS_ATTACH_CGROUP
   then cgroup_items else []) ++
  (if CONFIG_AUDITSYSCALL && has_flag mask KDBUS_ATTACH_AUDIT
   then audit_items else []) ++
  (if CONFIG_SECURITY && has_flag mask KDBUS_ATTACH_SECLABEL
   then seclabel_items else []) ++
  (if has_flag mask KDBUS_ATTACH_CONN_NAME then conn_name_items conn else []).

Lemma runs_timestamp seq :
  runs (kdbus_meta_append_timestamp current seq) timestamp_items.
Proof.
  unfold kdbus_meta_append_timestamp, timestamp_items.
  apply runs_item; [done|].
  intros item. repeat apply finishes_seq; try (by apply fills_item_store).
  - case_bool_decide; [by apply fills_item_store|apply fills_mret].
  - apply finishes_runs, runs_mret0.
Qed.

Lemma runs_cred : runs (kdbus_meta_append_cred current) cred_items.
Proof. unfold kdbus_meta_append_cred. by apply runs_append_data. Qed.

Lemma fills_store_gids item i gids :
  0 ≤ i → fills item (store_gids item i gids).
Proof.
  revert i. induction gids as [|g gids IH]; intros i Hi; simpl.
  - apply fills_mret.
  - apply fills_seq; [apply fills_item_store; lia|apply IH; lia].
Qed.

Lemma runs_auxgroups :
  task_sane → runs (kdbus_meta_append_auxgroups current) auxgroups_items.
Proof.
  intros (Hg & _). unfold kdbus_meta_append_auxgroups, auxgroups_items.
  rewrite u64_small by lia.
  apply runs_item; [lia|].
  intros item. apply finishes_seq; [by apply fills_store_gids|].
  apply finishes_runs, runs_mret0.
Qed.

Lemma runs_append_names names :
  Forall (λ e, strlen e.2 < 2 ^ 32) names →
  runs (append_names names) (name_item <$> names).
Proof.
  induction 1 as [|[flags name] names Hn _ IH]; simpl.
  - apply runs_mret0.
  - simpl in Hn. assert (0 ≤ strlen name) by (unfold strlen; lia).
    unfold sizeof_kdbus_name in *.
    rewrite (u64_small (strlen name + 1)) by lia.
    rewrite (u64_small (8 + _)) by lia.
    apply runs_item; [lia|].
    intros item. repeat apply finishes_seq; try (by apply fills_item_store).
    by apply finishes_runs.
Qed.

Lemma runs_src_names conn :
  conn_sane conn →
  runs (kdbus_meta_append_src_names conn) (names_items conn).
Proof.
  intros Hc. unfold kdbus_meta_append_src_names, names_items.
  destruct conn as [c|]; [|apply runs_mret0].
  apply runs_append_names. by apply (Hc c).
Qed.

Lemma runs_comm : runs (append_comm current) comm_items.
Proof.
  unfold append_comm, comm_items.
  apply (runs_checked _ _ [_] [_]); apply runs_append_str.
  - pose proof (strlen_string_take 15 (group_leader_comm current)). lia.
  - pose proof (strlen_string_take 15 (cur_comm current)). lia.
Qed.

Lemma runs_exe : task_sane → runs (kdbus_meta_append_exe current) exe_items.
Proof.
  intros (_ & Hexe & _). unfold kdbus_meta_append_exe, exe_items.
  destruct (cur_mm current) as [mm|] eqn:Hmm; [|by apply runs_mret].
  destruct (mm_exe_file mm) as [[err|path]|] eqn:Hp; [| |apply runs_mret0].
  - apply runs_page. by apply runs_mret.
  - apply runs_page. apply runs_append_data.
    specialize (Hexe mm path eq_refl Hp). unfold PAGE_SIZE in Hexe. lia.
Qed.

Lemma runs_cmdline : runs (kdbus_meta_append_cmdline current) cmdline_items.
Proof.
  unfold kdbus_meta_append_cmdline, cmdline_items.
  apply runs_page.
  destruct (cur_mm current) as [mm|] eqn:Hmm; [|by apply runs_mret].
  case_bool_decide; [apply runs_mret0|].
  apply runs_append_data. unfold cmdline_len, PAGE_SIZE.
  pose proof (u64_range (mm_arg_end mm - mm_arg_start mm)).
  case_bool_decide; lia.
Qed.

Lemma runs_caps : runs (kdbus_meta_append_caps current) caps_items.
Proof. unfold kdbus_meta_append_caps. by apply runs_append_data. Qed.

Lemma runs_cgroup :
  task_sane → runs (kdbus_meta_append_cgroup current) cgroup_items.
Proof.
  intros (_ & _ & Hcg & _). unfold kdbus_meta_append_cgroup, cgroup_items.
  apply runs_page.
  destruct (cgroup_path current) as [path|] eqn:Hp; [|by apply runs_mret].
  apply runs_append_str. specialize (Hcg path eq_refl).
  unfold PAGE_SIZE in Hcg. lia.
Qed.

Lemma runs_audit : runs (kdbus_meta_append_audit current) audit_items.
Proof. unfold kdbus_meta_append_audit. by apply runs_append_data. Qed.

Lemma runs_seclabel :
  task_sane → runs (kdbus_meta_append_seclabel current) seclabel_items.
Proof.
  intros (_ & _ & _ & Hlen). unfold kdbus_meta_append_seclabel, seclabel_items.
  case_bool_decide as Hsupp.
  { rewrite bool_decide_eq_true_2 by (rewrite Hsupp; done).
    apply runs_mret0. }
  case_bool_decide as Hneg; [by apply runs_mret|].
  destruct (secctx_label current) as [label|].
  - case_bool_decide.
    + apply runs_append_data. lia.
    + unfold data_item. rewrite bool_decide_eq_true_2 by lia.
      by apply runs_mret.
  - by apply runs_mret.
Qed.

End Records.

(** [f] does not write [meta->attached]. *)
Definition keeps_attached {A} (f : M A) : Prop :=
  ∀ w m a w' m', f (w, m) = Some (a, (w', m')) →
                 meta_attached m' = meta_attached m.

Lemma ka_mret {A} (a : A) : keeps_attached (mret a).
Proof. by intros w m x w' m' [= <- <- <-]. Qed.

Lemma ka_bind {A B} (f : M A) (k : A → M B) :
  keeps_attached f → (∀ a, keeps_attached (k a)) → keeps_attached (f ≫= k).
Proof.
  intros Hf Hk w m b w' m'. unfold mbind, M_bind.
  destruct (f (w, m)) as [[a [w1 m1]]|] eqn:H1; [|done]. intros H2.
  rewrite (Hk a _ _ _ _ _ H2). by eapply Hf.
Qed.

Lemma ka_get_free_page : keeps_attached get_free_page.
Proof.
  intros w m a w' m'. unfold get_free_page. run_M.
  destruct w; by intros [= <- <- <-].
Qed.

Lemma ka_meta_store off bs : keeps_attached (meta_store off bs).
Proof.
  intros w m a w' m'. unfold meta_store. run_M.
  destruct (meta_data m) as [buf|]; [|done]. simpl.
  destruct (store off bs buf); [|done]. by intros [= <- <- <-].
Qed.

Lemma ka_first_alloc extra : keeps_attached (meta_first_alloc extra).
Proof.
  intros w m a w' m'. unfold meta_first_alloc, kzalloc. run_M.
  destruct (meta_data m); [by intros [= <- <- <-]|].
  destruct w as [|[g|] w0]; simpl; try (by intros [= <- <- <-]).
  case_bool_decide; by intros [= <- <- <-].
Qed.

Lemma ka_grow extra : keeps_attached (meta_grow extra).
Proof.
  intros w m a w' m'. unfold meta_grow, kmalloc. run_M.
  case_bool_decide; [|by intros [= <- <- <-]].
  destruct w as [|[g|] w0]; simpl; try (by intros [= <- <- <-]).
  case_bool_decide; simpl; [|by intros [= <- <- <-]].
  destruct (meta_data m) as [buf|]; [|done]. simpl.
  destruct (slice _ _ _); [|done]. simpl.
  destruct (store 0 _ _); [|done]. simpl.
  destruct (store _ _ _); [|done]. by intros [= <- <- <-].
Qed.

Lemma ka_insert type payload extra :
  keeps_attached (meta_insert type payload extra).
Proof.
  intros w m a w' m' Hrun. unfold meta_insert in Hrun.
  unfold mbind at 1, M_bind at 1, get_meta at 1 in Hrun. simpl in Hrun.
  unfold mbind at 1, M_bind at 1 in Hrun.
  destruct (meta_store _ _ (w, m)) as [[[] [w1 m1]]|] eqn:H1; [|done].
  unfold mbind at 1, M_bind at 1 in Hrun.
  destruct (meta_store _ _ (w1, m1)) as [[[] [w2 m2]]|] eqn:H2; [|done].
  run_M. injection Hrun as <- <- <-. simpl.
  rewrite (ka_meta_store _ _ _ _ _ _ _ H2). by eapply ka_meta_store.
Qed.

(** Go through a function built from the blocks above. *)
Ltac ka_step :=
  lazymatch goal with
  | |- keeps_attached (mret _) => apply ka_mret
  | |- keeps_attached (_ ≫= _) => apply ka_bind; [|intros ?]
  | |- keeps_attached get_free_page => apply ka_get_free_page
  | |- keeps_attached (meta_store _ _) => apply ka_meta_store
  | |- keeps_attached (item_store _ _ _) => apply ka_meta_store
  | |- keeps_attached (meta_first_alloc _) => apply ka_first_alloc
  | |- keeps_attached (meta_grow _) => apply ka_grow
  | |- keeps_attached (meta_insert _ _ _) => apply ka_insert
  | |- keeps_attached (must ?o) =>
      destruct o; [apply ka_mret|by intros ?????]
  | |- keeps_attached (if ?c then _ else _) => destruct c
  | |- keeps_attached (match ?x with _ => _ end) => destruct x
  end.

Lemma ka_append_item type payload :
  keeps_attached (kdbus_meta_append_item type payload).
Proof. unfold kdbus_meta_append_item. repeat ka_step. Qed.

Lemma ka_append_data type data len :
  keeps_attached (kdbus_meta_append_data type data len).
Proof.
  unfold kdbus_meta_append_data. repeat ka_step. apply ka_append_item.
Qed.

Lemma ka_checked f k :
  keeps_attached f → keeps_attached k → keeps_attached (checked f k).
Proof. intros. unfold checked. by repeat ka_step. Qed.

Lemma ka_when_checked (c : bool) f k :
  keeps_attached f → keeps_attached k → keeps_attached (when_checked c f k).
Proof. intros. unfold when_checked. destruct c; [by apply ka_checked|done]. Qed.

Section KeepsAttached.
Context `{kdbus_h}.
Variable current : task.

Lemma ka_store_gids item i gids : keeps_attached (store_gids item i gids).
Proof.
  revert i. induction gids as [|g gids IH]; intros i; simpl; repeat ka_step.
  apply IH.
Qed.

Lemma ka_append_names names : keeps_attached (append_names names).
Proof.
  induction names as [|[flags name] names IH]; simpl; repeat ka_step; try done.
  apply ka_append_item.
Qed.

Lemma ka_append_records conn seq mask :
  keeps_attached (append_records current conn seq mask).
Proof.
  unfold append_records.
  repeat (apply ka_when_checked); try (destruct conn as [[[?|] ?]|]);
    try apply ka_when_checked; try apply ka_mret.
  all: unfold kdbus_meta_append_timestamp, kdbus_meta_append_cred,
         kdbus_meta_append_auxgroups, kdbus_meta_append_src_names,
         append_comm, kdbus_meta_append_exe, kdbus_meta_append_cmdline,
         kdbus_meta_append_caps, kdbus_meta_append_cgroup,
         kdbus_meta_append_audit, kdbus_meta_append_seclabel,
         kdbus_meta_append_str.
  all: repeat first
         [ apply ka_append_data | apply ka_append_item | apply ka_checked
         | apply ka_store_gids | apply ka_append_names | ka_step ].
Qed.
End KeepsAttached.

Section AppendSpec.
Context `{kdbus_h}.
Variable current : task.

Lemma runs_conn_name conn mask :
  conn_sane conn →
  runs
    match conn with
    | Some c =>
        match conn_name c with
        | Some name =>
            when_checked (has_flag mask KDBUS_ATTACH_CONN_NAME)
              (kdbus_meta_append_str KDBUS_ITEM_CONN_NAME name) (mret 0)
        | None => mret 0
        end
    | None => mret 0
    end
    (if has_flag mask KDBUS_ATTACH_CONN_NAME then conn_name_items conn else []).
Proof.
  intros Hc. unfold conn_name_items.
  destruct conn as [c|]; simpl.
  - destruct (conn_name c) as [name|] eqn:Hn.
    + pose proof (runs_when_checked (has_flag mask KDBUS_ATTACH_CONN_NAME)
                    (kdbus_meta_append_str KDBUS_ITEM_CONN_NAME name) (mret 0)
                    [str_item KDBUS_ITEM_CONN_NAME name] []) as Hr.
      rewrite app_nil_r in Hr. apply Hr; [|apply runs_mret0].
      apply runs_append_str. by apply (Hc c).
    + destruct (has_flag _ _); apply runs_mret0.
  - destruct (has_flag _ _); apply runs_mret0.
Qed.

Lemma runs_records conn seq mask :
  task_sane current → conn_sane conn →
  runs (append_records current conn seq mask) (records current conn mask).
Proof.
  intros Ht Hc. unfold append_records, records.
  apply runs_when_checked; [apply runs_timestamp|].
  apply runs_when_checked; [apply runs_cred|].
  apply runs_when_checked; [by apply runs_auxgroups|].
  replace (if has_flag mask KDBUS_ATTACH_NAMES then names_items conn else [])
    with (if has_flag mask KDBUS_ATTACH_NAMES && bool_decide (is_Some conn)
          then names_items conn else []).
  2:{ destruct (has_flag _ _); [|done]. destruct conn; [|done].
      by rewrite bool_decide_eq_true_2 by by eexists. }
  apply runs_when_checked; [by apply runs_src_names|].
  apply runs_when_checked; [apply runs_comm|].
  apply runs_when_checked; [by apply runs_exe|].
  apply runs_when_checked; [apply runs_cmdline|].
  apply runs_when_checked; [apply runs_caps|].
  apply runs_when_checked; [by apply runs_cgroup|].
  apply runs_when_checked; [apply runs_audit|].
  apply runs_when_checked; [by apply runs_seclabel|].
  by apply runs_conn_name.
Qed.

Lemma has_flag_0 flag : has_flag 0 flag = false.
Proof. unfold has_flag. by rewrite Z.land_0_l. Qed.

Lemma records_0 conn : records current conn 0 = [].
Proof. unfold records. by rewrite !has_flag_0, !andb_false_r. Qed.

Lemma holds_with_attached v m its : holds m its → holds (with_attached v m) its.
Proof. done. Qed.

(** What [kdbus_meta_append] does to a buffer that holds [its]. *)
Lemma meta_append_spec conn seq which w m its ret w' m' :
  task_sane current → conn_sane conn → holds m its →
  kdbus_meta_append current conn seq which (w, m) = Some (ret, (w', m')) →
  let mask := Z.land which (Z.lnot (meta_attached m)) in
  if bool_decide (ret < 0) then
    meta_attached m' = meta_attached m ∧
    ∃ P, P `prefix_of` records current conn mask ∧ holds m' (its ++ P)
  else
    ret = 0 ∧ meta_attached m' = Z.lor (meta_attached m) mask ∧
    holds m' (its ++ records current conn mask).
Proof.
  intros Ht Hc Hm. unfold kdbus_meta_append.
  unfold mbind at 1, M_bind at 1, get_meta at 1. simpl.
  set (mask := Z.land which (Z.lnot (meta_attached m))).
  case_bool_decide as Hmask.
  { intros [= <- <- <-]. rewrite bool_decide_eq_false_2 by lia.
    rewrite Hmask, records_0, app_nil_r, Z.lor_0_r. done. }
  unfold checked. unfold mbind at 1, M_bind at 1.
  destruct (append_records current conn seq mask (w, m))
    as [[r [w1 m1]]|] eqn:H1; [|done].
  destruct (runs_records conn seq mask Ht Hc _ _ _ _ _ _ Hm H1)
    as (Ha & P & Hm1 & HP).
  case_bool_decide as Hneg.
  - intros [= <- <- <-]. rewrite bool_decide_eq_true_2 by done. eauto.
  - subst P. run_M. intros [= <- <- <-].
    rewrite bool_decide_eq_false_2 by lia. simpl. rewrite Ha. done.
Qed.

Lemma mask_again which attached :
  Z.land which (Z.lnot (Z.lor attached (Z.land which (Z.lnot attached)))) = 0.
Proof.
  apply Z.bits_inj'. intros n Hn.
  rewrite Z.land_spec, Z.lnot_spec, Z.lor_spec, Z.land_spec, Z.lnot_spec,
    Z.bits_0 by lia.
  by destruct (Z.testbit which n), (Z.testbit attached n).
Qed.

Lemma mask_disjoint which attached :
  Z.land attached (Z.land which (Z.lnot attached)) = 0.
Proof.
  apply Z.bits_inj'. intros n Hn.
  rewrite !Z.land_spec, Z.lnot_spec, Z.bits_0 by lia.
  by destruct (Z.testbit which n), (Z.testbit attached n).
Qed.

End AppendSpec.

(** A decision procedure for [items_in], to read the items of a concrete
    buffer. *)
Fixpoint parse_items (fuel : nat) (buf : list Z) (off fin : Z)
  : option (list (Z * Z)) :=
  if bool_decide (off = fin) then Some [] else
  match fuel with
  | O => None
  | S fuel' =>
      size ← get_u64 off buf;
      type ← get_u64 (off + 8) buf;
      if bool_decide (0 ≤ off ∧ off mod 8 = 0 ∧ KDBUS_ITEM_HEADER_SIZE ≤ size
                      ∧ size + 7 < 2 ^ 64)
      then rest ← parse_items fuel' buf (off + KDBUS_ALIGN8 size) fin;
           Some ((type, size) :: rest)
      else None
  end.

(** The items of the buffer of [m], when it is well formed. *)
Definition meta_items (m : kdbus_meta) : option (list (Z * Z)) :=
  match meta_data m with
  | Some buf => parse_items (length buf) buf 0 (meta_size m)
  | None => Some []
  end.

Lemma parse_items_sound fuel buf off fin its :
  parse_items fuel buf off fin = Some its → items_in buf off fin its.
Proof.
  revert off its. induction fuel as [|fuel IH]; intros off its; simpl.
  - case_bool_decide; [|done]. intros [= <-]. subst. constructor.
  - case_bool_decide; [intros [= <-]; subst; constructor|].
    destruct (get_u64 off buf) as [size|] eqn:Hs; [|done]. simpl.
    destruct (get_u64 (off + 8) buf) as [type|] eqn:Ht; [|done]. simpl.
    case_bool_decide as Hok; [|done].
    destruct (parse_items fuel buf _ fin) as [rest|] eqn:Hr; [|done].
    intros [= <-]. destruct Hok as (? & ? & ? & ?).
    constructor; auto.
Qed.

#[local] Instance sample_kdbus_h : kdbus_h := {|
  KDBUS_ATTACH_TIMESTAMP := 1; KDBUS_ATTACH_CREDS := 2;
  KDBUS_ATTACH_AUXGROUPS := 4; KDBUS_ATTACH_NAMES := 8;
  KDBUS_ATTACH_COMM := 16; KDBUS_ATTACH_EXE := 32;
  KDBUS_ATTACH_CMDLINE := 64; KDBUS_ATTACH_CGROUP := 128;
  KDBUS_ATTACH_CAPS := 256; KDBUS_ATTACH_SECLABEL := 512;
  KDBUS_ATTACH_AUDIT := 1024; KDBUS_ATTACH_CONN_NAME := 2048;
  KDBUS_ITEM_TIMESTAMP := 0x1000; KDBUS_ITEM_CREDS := 0x1001;
  KDBUS_ITEM_AUXGROUPS := 0x1002; KDBUS_ITEM_NAME := 0x1003;
  KDBUS_ITEM_TID_COMM := 0x1004; KDBUS_ITEM_PID_COMM := 0x1005;
  KDBUS_ITEM_EXE := 0x1006; KDBUS_ITEM_CMDLINE := 0x1007;
  KDBUS_ITEM_CGROUP := 0x1008; KDBUS_ITEM_CAPS := 0x1009;
  KDBUS_ITEM_SECLABEL := 0x100a; KDBUS_ITEM_AUDIT := 0x100b;
  KDBUS_ITEM_CONN_NAME := 0x100c;
  CAP_LAST_CAP := 36;
  CONFIG_CGROUPS := true; CONFIG_AUDITSYSCALL := true; CONFIG_SECURITY := true;
|}.

Definition sample_task : task := {|
  monotonic_ns := 1000; realtime_ns := 2000;
  cur_uid := 1000; cur_gid := 1000; cur_pid := 77; cur_tgid := 77;
  start_time := 5;
  cur_groups := [1000; 10];
  group_leader_comm := "busd"; cur_comm := "worker";
  cur_mm := Some {| mm_exe_file := Some (inr (cstr "/bin/busd" ++ [0]));
                    mm_arg_start := 0x7000; mm_arg_end := 0x7005;
                    mm_args := cstr "busd" ++ [0] |};
  cap_inheritable := [0; 0]; cap_permitted := [0xffffffff; 0xffffffff];
  cap_effective := [0xffffffff; 0xffffffff]; cap_bset := [0xffffffff; 0xffffffff];
  cgroup_path := Some "/"%string;
  loginuid := 1000; sessionid := 1;
  secctx_ret := - EOPNOTSUPP; secctx_label := None; secctx_len := 0;
|}.

Definition meta0 : kdbus_meta :=
  {| meta_pid_namespace := 1; meta_user_namespace := 2; meta_data := None;
     meta_size := 0; meta_allocated_size := 0; meta_attached := 0 |}.


Lemma meta_new_holds pid_ns user_ns m :
  kdbus_meta_new pid_ns user_ns true = (0, Some m) → holds m [].
Proof.
  intros [= <-]. unfold holds. simpl. unfold KMALLOC_MAX_SIZE.
  split_and!; done || lia.
Qed.

Lemma items_in_sizes buf off fin its :
  items_in buf off fin its →
  Forall (λ it, KDBUS_ITEM_HEADER_SIZE ≤ it.2) its.
Proof. induction 1; constructor; auto. Qed.

Lemma items_in_first buf off fin its :
  items_in buf off fin its → off ≠ fin →
  ∃ size, get_u64 off buf = Some size ∧ KDBUS_ITEM_HEADER_SIZE ≤ size.
Proof. destruct 1; [done|eauto]. Qed.

(** The invariant in the words of the claim: the data fits the
    allocation, its size is a multiple of 8, and the buffer is a chain of
    items from offset 0 to [meta->size], each of a declared size of 16 or
    more and on an 8-byte boundary. *)
Definition meta_inv (m : kdbus_meta) : Prop :=
  meta_size m ≤ meta_allocated_size m ∧
  meta_size m mod 8 = 0 ∧
  ∃ its, Forall (λ it, KDBUS_ITEM_HEADER_SIZE ≤ it.2) its ∧
         match meta_data m with
         | Some buf => items_in buf 0 (meta_size m) its
         | None => meta_size m = 0 ∧ its = []
         end.

Lemma holds_meta_inv m its : holds m its → meta_inv m.
Proof.
  intros (Hsz & Hal & Hmax & Hd). split; [lia|]. split; [done|].
  exists its. destruct (meta_data m) as [buf|].
  - destruct Hd as [_ Hits]. split; [by eapply items_in_sizes|done].
  - destruct Hd as (? & ? & ->). by split.
Qed.

Section Claims.
Context `{kdbus_h}.

(** C4: when kdbus_meta_append succeeds, a second call with the same
    connection, sequence number and mask returns 0 and leaves the whole
    metadata object, buffer and attached mask, as the first call left it,
    whatever the task state and the allocator do in between. *)
Theorem C4_meta_append_idempotent current current' conn seq which w m ret
    w1 m1 w2 :
  kdbus_meta_append current conn seq which (w, m) = Some (ret, (w1, m1)) →
  0 ≤ ret →
  kdbus_meta_append current' conn seq which (w2, m1) = Some (0, (w2, m1)).
Proof.
  unfold kdbus_meta_append.
  unfold mbind at 1, M_bind at 1, get_meta at 1. simpl.
  set (mask := Z.land which (Z.lnot (meta_attached m))).
  assert (Hagain : ∀ m', meta_attached m' = Z.lor (meta_attached m) mask →
    (get_meta ≫= λ m0,
       if bool_decide (Z.land which (Z.lnot (meta_attached m0)) = 0)
       then mret 0
       else checked
              (append_records current' conn seq
                 (Z.land which (Z.lnot (meta_attached m0))))
              (get_meta ≫= λ m2,
                 put_meta
                   (with_attached
                      (Z.lor (meta_attached m2)
                         (Z.land which (Z.lnot (meta_attached m0)))) m2)
                 ≫= λ _, mret 0)) (w2, m') = Some (0, (w2, m'))).
  { intros m' Hm'. unfold mbind at 1, M_bind at 1, get_meta at 1. simpl.
    rewrite Hm'. unfold mask. by rewrite mask_again. }
  case_bool_decide as Hmask.
  { intros [= <- <- <-] _. apply Hagain. by rewrite Hmask, Z.lor_0_r. }
  unfold checked. unfold mbind at 1, M_bind at 1.
  destruct (append_records current conn seq mask (w, m))
    as [[r [w' m']]|] eqn:H1; [|done].
  pose proof (ka_append_records current conn seq mask _ _ _ _ _ H1) as Ha.
  case_bool_decide as Hneg.
  { intros [= <- <- <-] Hret. lia. }
  run_M. intros [= <- <- <-] _. apply Hagain. simpl. by rewrite Ha.
Qed.

(** C8: an append keeps the invariant of the metadata object: the data
    size stays within the allocated size and a multiple of 8, and the
    buffer stays a chain of items, each with a declared size of at least
    the 16-byte header and on an 8-byte boundary, that ends at the data
    size.  This holds for kdbus_meta_append_item and
    kdbus_meta_append_data with a payload below 2^62 bytes, and for
    kdbus_meta_append with all the record functions it calls. *)
Theorem C8_append_keeps_invariant :
  (∀ type payload w m its item w' m',
     holds m its → 0 ≤ payload < 2 ^ 62 →
     kdbus_meta_append_item type payload (w, m) = Some (inr item, (w', m')) →
     holds m' (its ++ [(u64 type, KDBUS_ITEM_HEADER_SIZE + payload)]) ∧
     meta_inv m') ∧
  (∀ type data len w m its ret w' m',
     holds m its → 0 ≤ len < 2 ^ 62 →
     kdbus_meta_append_data type data len (w, m) = Some (ret, (w', m')) →
     0 ≤ ret →
     holds m' (its ++ data_item type len) ∧ meta_inv m') ∧
  (∀ current conn seq which w m its ret w' m',
     task_sane current → conn_sane conn → holds m its →
     kdbus_meta_append current conn seq which (w, m) = Some (ret, (w', m')) →
     0 ≤ ret →
     holds m' (its ++ records current conn
                        (Z.land which (Z.lnot (meta_attached m)))) ∧
     meta_inv m').
Proof.
  split_and!.
  - intros type payload w m its item w' m' Hm Hp Hrun.
    destruct (append_item_spec _ _ _ _ _ _ _ _ Hm Hp Hrun) as [_ Ho].
    apply open_at_holds in Ho. split; [done|by eapply holds_meta_inv].
  - intros type data len w m its ret w' m' Hm Hlen Hrun Hret.
    destruct (runs_append_data type data len Hlen _ _ _ _ _ _ Hm Hrun)
      as (_ & P & Hm' & HP).
    rewrite bool_decide_eq_false_2 in HP by lia. subst P.
    split; [done|by eapply holds_meta_inv].
  - intros current conn seq which w m its ret w' m' Ht Hc Hm Hrun Hret.
    pose proof (meta_append_spec current conn seq which _ _ _ _ _ _
                  Ht Hc Hm Hrun) as Hspec. simpl in Hspec.
    rewrite bool_decide_eq_false_2 in Hspec by lia.
    destruct Hspec as (_ & _ & Hm'). split; [done|by eapply holds_meta_inv].
Qed.

(** C10: when kdbus_meta_append fails, meta->attached is what it was
    before the call, so none of the requested missing bits is set, while
    the records appended before the failure stay in the buffer; a later
    successful call with the same mask therefore appends the whole record
    set of the mask behind them, the ones already present included. *)
Theorem C10_failed_append_keeps_attached current conn seq which w m its ret
    w1 m1 :
  task_sane current → conn_sane conn → holds m its →
  kdbus_meta_append current conn seq which (w, m) = Some (ret, (w1, m1)) →
  ret < 0 →
  let mask := Z.land which (Z.lnot (meta_attached m)) in
  meta_attached m1 = meta_attached m ∧
  Z.land (meta_attached m1) mask = 0 ∧
  ∃ P, P `prefix_of` records current conn mask ∧
       holds m1 (its ++ P) ∧
       ∀ current' w' ret' w2 m2,
         task_sane current' →
         kdbus_meta_append current' conn seq which (w', m1)
           = Some (ret', (w2, m2)) →
         0 ≤ ret' →
         meta_attached m2 = Z.lor (meta_attached m) mask ∧
         holds m2 (its ++ P ++ records current' conn mask).
Proof.
  intros Ht Hc Hm Hrun Hret mask.
  pose proof (meta_append_spec current conn seq which _ _ _ _ _ _
                Ht Hc Hm Hrun) as Hspec. simpl in Hspec.
  rewrite bool_decide_eq_true_2 in Hspec by done.
  destruct Hspec as (Ha & P & HP & Hm1).
  split; [done|]. split; [rewrite Ha; apply mask_disjoint|].
  exists P. split; [done|]. split; [done|].
  intros current' w' ret' w2 m2 Ht' Hrun' Hret'.
  pose proof (meta_append_spec current' conn seq which _ _ _ _ _ _
                Ht' Hc Hm1 Hrun') as Hspec. simpl in Hspec.
  rewrite bool_decide_eq_false_2 in Hspec by lia.
  rewrite Ha in Hspec. destruct Hspec as (_ & Ha2 & Hm2).
  split; [done|]. by rewrite (assoc_L (++)).
Qed.

End Claims.

Lemma sample_task_sane : task_sane sample_task.
Proof.
  unfold task_sane, PAGE_SIZE. simpl. split_and!; try lia.
  - intros mm path [= <-] [= <-]. simpl. lia.
  - intros p [= <-]. done.
Defined.

Lemma no_conn_sane : conn_sane None.
Proof. intros c Hc. discriminate Hc. Defined.

Lemma meta0_holds : holds meta0 [].
Proof. by apply (meta_new_holds 1 2). Defined.

(** C4 at scenario S6: two calls with CREDS|COMM (sequence number 42) on a
    fresh object leave one CREDS item and the two COMM items. *)
Lemma C4_meta_append_idempotent_witness :
  ∃ m1,
    kdbus_meta_append sample_task None 42 (2 + 16) ([Some []], meta0)
      = Some (0, ([], m1)) ∧
    meta_attached m1 = 18 ∧
    meta_items m1 = Some [(0x1001, 56); (0x1004, 21); (0x1005, 23)] ∧
    kdbus_meta_append sample_task None 42 (2 + 16) ([], m1)
      = Some (0, ([], m1)).
Proof.
  eexists. split; [vm_compute; reflexivity|].
  split; [reflexivity|]. split; [vm_compute; reflexivity|].
  eapply (C4_meta_append_idempotent sample_task sample_task None 42 18
            [Some []] meta0 0).
  - vm_compute. reflexivity.
  - lia.
Defined.

(** C8 at a call that attaches every record to a fresh object. *)
Lemma C8_append_keeps_invariant_witness :
  ∃ m1,
    kdbus_meta_append sample_task None 42 4095
      ([Some []; Some []; Some []; Some []], meta0)
      = Some (0, ([], m1)) ∧
    holds m1 (records sample_task None 4095) ∧ meta_inv m1.
Proof.
  eexists. split; [vm_compute; reflexivity|].
  eapply (proj2 (proj2 C8_append_keeps_invariant) sample_task None 42 4095
            [Some []; Some []; Some []; Some []] meta0 [] 0).
  - exact sample_task_sane.
  - exact no_conn_sane.
  - exact meta0_holds.
  - vm_compute. reflexivity.
  - lia.
Defined.

(** C8, as stated, fails for a payload size at the top of [size_t]:
    kdbus_meta_append_data(meta, type, NULL, 2^64 - 8) on a fresh object
    returns 0, but the sizes have wrapped around: the data size is 8 and
    the item at offset 0 declares a size of 8, less than the 16 bytes of
    its header, so the buffer is no chain of items. *)
Lemma C8_counterexample :
  ∃ m1 buf,
    kdbus_meta_append_data 7 None (2 ^ 64 - 8) ([Some []], meta0)
      = Some (0, ([], m1)) ∧
    meta_inv meta0 ∧
    meta_data m1 = Some buf ∧ meta_size m1 = 8 ∧
    meta_allocated_size m1 = 512 ∧
    get_u64 0 buf = Some 8 ∧ get_u64 8 buf = Some 7 ∧
    ¬ meta_inv m1.
Proof.
  eexists _, _. split; [vm_compute; reflexivity|].
  split; [exact (holds_meta_inv _ _ meta0_holds)|].
  split; [reflexivity|]. split; [reflexivity|]. split; [reflexivity|].
  split; [vm_compute; reflexivity|]. split; [vm_compute; reflexivity|].
  intros (_ & _ & its & _ & Hits). cbn [meta_data meta_size] in Hits.
  apply items_in_first in Hits as (sz & Hs & Hge); [|done].
  vm_compute in Hs. injection Hs as <-.
  unfold KDBUS_ITEM_HEADER_SIZE in Hge. lia.
Qed.

(** C10 at a call with CREDS|CMDLINE whose page allocation for the
    command line is refused: the CREDS item stays, no bit is set, and the
    next call appends CREDS again in front of CMDLINE. *)
Lemma C10_failed_append_keeps_attached_witness :
  ∃ m1,
    kdbus_meta_append sample_task None 42 (2 + 64) ([Some []; None], meta0)
      = Some (- ENOMEM, ([], m1)) ∧
    meta_items m1 = Some [(0x1001, 56)] ∧
    (meta_attached m1 = 0 ∧ Z.land (meta_attached m1) (2 + 64) = 0) ∧
    ∃ m2,
      kdbus_meta_append sample_task None 42 (2 + 64) ([Some []], m1)
        = Some (0, ([], m2)) ∧
      meta_attached m2 = 2 + 64 ∧
      meta_items m2 = Some [(0x1001, 56); (0x1001, 56); (0x1007, 21)].
Proof.
  eexists. split; [vm_compute; reflexivity|].
  split; [vm_compute; reflexivity|]. split.
  - refine (let Hc :=
              C10_failed_append_keeps_attached sample_task None 42 (2 + 64)
                [Some []; None] meta0 [] (- ENOMEM) [] _
                sample_task_sane no_conn_sane meta0_holds _ _ in
            conj (proj1 Hc) (proj1 (proj2 Hc))).
    + vm_compute. reflexivity.
    + reflexivity.
  - eexists. split; [vm_compute; reflexivity|].
    split; [reflexivity|]. vm_compute. reflexivity.
Defined.

End MetaSpec.

(** ** The make-bus parser: entry, acceptance and the loop *)
Module ParserProps.
Import BusMake BusMakeSpec.

Lemma ptr_add_range p n : 0 ≤ ptr_add p n < 2 ^ 64.
Proof. apply u64_range. Qed.

Lemma ptr_add_add p a b : ptr_add (ptr_add p a) b = ptr_add p (a + b).
Proof.
  unfold ptr_add, u64. rewrite Zplus_mod_idemp_l. f_equal. lia.
Qed.


Lemma ptr_add_0 p : 0 ≤ p < 2 ^ 64 → ptr_add p 0 = p.
Proof. intros. unfold ptr_add. rewrite Z.add_0_r. by apply u64_small. Qed.

(** What a successful [copy_frame] has done. *)
Lemma copy_frame_Go env make :
  copy_frame env = Go make →
  ∃ addr size frame,
    get_u64 0 (user_buf env) = Some size ∧ 24 ≤ size ≤ 0xffff ∧
    kmalloc_make env = Some addr ∧
    slice 0 size (user_buf env) = Some frame ∧
    make = {| ko_addr := addr; ko_bytes := frame ++ kmalloc_slack env |}.
Proof.
  unfold copy_frame, offsetof_size, sizeof_kdbus_cmd_bus_make.
  destruct (get_u64 0 (user_buf env)) as [size|]; [|done].
  case_bool_decide as Hsize; [done|]. cbn [negb require mbind step_bind].
  destruct (kmalloc_make env) as [addr|]; [|done].
  destruct (slice 0 size (user_buf env)) as [frame|] eqn:Hf; [|done].
  intros [= <-]. exists addr, size, frame. split_and!; try done; lia.
Qed.



(** What the scan for the NUL has seen when it stops. *)
Lemma memchr_nul_spec o l : ∀ s r,
  0 ≤ s < 2 ^ 64 → memchr_nul o s l = Go r →
  match r with
  | Some q =>
      ∃ k : nat, (k < l)%nat ∧ q = ptr_add s (Z.of_nat k) ∧
        load_u8 o q = Some 0 ∧
        ∀ j : nat, (j < k)%nat →
          ∃ c, load_u8 o (ptr_add s (Z.of_nat j)) = Some c ∧ c ≠ 0
  | None =>
      ∀ j : nat, (j < l)%nat →
        ∃ c, load_u8 o (ptr_add s (Z.of_nat j)) = Some c ∧ c ≠ 0
  end.
Proof.
  induction l as [|l IH]; intros s r Hs; simpl.
  - intros [= <-]. intros j Hj. lia.
  - destruct (load_u8 o s) as [c|] eqn:Hc; [|done]. step_eval.
    case_bool_decide as Hz.
    + intros [= <-]. exists 0%nat. rewrite ptr_add_0 by done.
      split_and!; [lia|done|by rewrite Hc, Hz|intros j Hj; lia].
    + intros Hrun.
      specialize (IH (ptr_add s 1) r (ptr_add_range _ _) Hrun).
      assert (Hshift : ∀ j : nat,
                ptr_add (ptr_add s 1) (Z.of_nat j) = ptr_add s (Z.of_nat (S j))).
      { intros j. rewrite ptr_add_add. f_equal. lia. }
      assert (Hhead : ∀ j : nat, (j < S l)%nat →
                (j = 0%nat ∨ ∃ j', j = S j' ∧ (j' < l)%nat)).
      { intros [|j'] ?; [by left|right; exists j'; split; [done|lia]]. }
      destruct r as [q|].
      * destruct IH as (k & Hk & -> & Hq & Hbefore).
        exists (S k). split_and!; [lia|by rewrite Hshift|done|].
        intros [|j] Hj.
        -- rewrite ptr_add_0 by done. by exists c.
        -- rewrite <- Hshift. apply Hbefore. lia.
      * intros [|j] Hj.
        -- rewrite ptr_add_0 by done. by exists c.
        -- rewrite <- Hshift. apply IH. lia.
Qed.

Lemma ptr_add_inj s a b :
  0 ≤ a < 2 ^ 64 → 0 ≤ b < 2 ^ 64 → ptr_add s a = ptr_add s b → a = b.
Proof.
  unfold ptr_add, u64. intros Ha Hb Heq.
  pose proof (Z.div_mod (s + a) (2 ^ 64) ltac:(lia)) as H1.
  pose proof (Z.div_mod (s + b) (2 ^ 64) ltac:(lia)) as H2.
  rewrite Heq in H1. nia.
Qed.

(** A payload that [kdbus_validate_nul] accepts is a C string that fills
    it: no NUL before the last byte, a NUL in the last. *)
Lemma kdbus_validate_nul_true o s l :
  0 ≤ s < 2 ^ 64 → l < 2 ^ 64 →
  kdbus_validate_nul o s l = Go true →
  0 < l ∧
  (∀ j, 0 ≤ j < l - 1 → ∃ c, load_u8 o (ptr_add s j) = Some c ∧ c ≠ 0) ∧
  load_u8 o (ptr_add s (l - 1)) = Some 0.
Proof.
  intros Hs Hl. unfold kdbus_validate_nul.
  case_bool_decide as Hpos; [|done].
  destruct (memchr_nul o s (Z.to_nat l)) as [r| |] eqn:Hscan; [|done..].
  step_eval. intros [= Hr]. apply bool_decide_eq_true_1 in Hr. subst r.
  apply memchr_nul_spec in Hscan as (k & Hk & Heq & Hnul & Hbefore); [|done].
  apply ptr_add_inj in Heq; [|lia..].
  split; [done|]. split; [|done].
  intros j Hj. replace j with (Z.of_nat (Z.to_nat j)) by lia.
  apply Hbefore. lia.
Qed.

(** Split on one test of the code. *)
Ltac bd_case P :=
  destruct (decide P); [bd_true P|bd_false P]; step_eval.

Section Props.
Variables KDBUS_CMD_MAKE_NAME KDBUS_CMD_MAKE_CGROUP : Z.

Local Abbreviation item_foreach :=
  (item_foreach KDBUS_CMD_MAKE_NAME KDBUS_CMD_MAKE_CGROUP).
Local Abbreviation make_item :=
  (make_item KDBUS_CMD_MAKE_NAME KDBUS_CMD_MAKE_CGROUP).
Local Abbreviation kdbus_bus_make_user :=
  (kdbus_bus_make_user KDBUS_CMD_MAKE_NAME KDBUS_CMD_MAKE_CGROUP).
Local Abbreviation visits :=
  (visits KDBUS_CMD_MAKE_NAME KDBUS_CMD_MAKE_CGROUP).

(** X1: before it looks at any item, kdbus_bus_make_user returns -EFAULT
    when the size field cannot be read from the user buffer, -EMSGSIZE
    when that size is below the 24-byte header or above 0xffff, -ENOMEM
    when kmalloc fails, and -EFAULT when the buffer is shorter than the
    size it declares; no command is handed back in any of these cases. *)
Theorem X1_make_user_entry_errors fuel env :
  (get_u64 0 (user_buf env) = None →
   kdbus_bus_make_user fuel env = Return (- EFAULT) None) ∧
  (∀ size, get_u64 0 (user_buf env) = Some size →
     (size < 24 ∨ 0xffff < size →
      kdbus_bus_make_user fuel env = Return (- EMSGSIZE) None) ∧
     (24 ≤ size ≤ 0xffff → kmalloc_make env = None →
      kdbus_bus_make_user fuel env = Return (- ENOMEM) None) ∧
     (24 ≤ size ≤ 0xffff → is_Some (kmalloc_make env) →
      Z.of_nat (length (user_buf env)) < size →
      kdbus_bus_make_user fuel env = Return (- EFAULT) None)).
Proof.
  unfold BusMake.kdbus_bus_make_user, copy_frame, offsetof_size,
    sizeof_kdbus_cmd_bus_make.
  split.
  - by intros ->.
  - intros size ->. split_and!.
    + intros Hsize. by bd_true (size < 24 ∨ 65535 < size).
    + intros Hsize ->. by bd_false (size < 24 ∨ 65535 < size).
    + intros Hsize [addr ->] Hshort.
      bd_false (size < 24 ∨ 65535 < size). step_eval.
      unfold slice. by rewrite bool_decide_eq_false_2 by lia.
Qed.


(** The name recorded so far, if any, passed the checks of a MAKE_NAME
    item. *)
Definition name_ok (make : kobj) (km : kmake_head) : Prop :=
  ∀ p, km_name km = Some p →
    0 ≤ p < 2 ^ 64 ∧
    ∃ len, 2 ≤ len ≤ 64 ∧ kdbus_validate_nul make p len = Go true.

Lemma make_item_name_ok make km item km' :
  name_ok make km → make_item make km item = Go km' → name_ok make km'.
Proof.
  intros Hok. unfold BusMake.make_item, KDBUS_ITEM_HEADER_SIZE.
  destruct (load_u64 make item) as [size|]; [|done]. step_eval.
  bd_case (size ≤ 16); [done|].
  destruct (load_u64 make (ptr_add item 8)) as [type|]; [|done]. step_eval.
  bd_case (type = KDBUS_CMD_MAKE_NAME).
  - bd_case (is_Some (km_name km)); [done|].
    bd_case (size < 16 + 2); [done|].
    bd_case (16 + 64 < size); [done|].
    rewrite (u64_small (size - 16)) by lia.
    destruct (kdbus_validate_nul make (ptr_add item 16) (size - 16))
      as [[]| |] eqn:Hnul; step_eval; try done.
    intros [= <-] p [= <-].
    split; [apply ptr_add_range|]. exists (size - 16). split; [lia|done].
  - bd_case (type = KDBUS_CMD_MAKE_CGROUP); [|done].
    bd_case (km_cgroup_id km = 0); [|done].
    destruct (load_u64 make (ptr_add item 16)); step_eval; [|done].
    by intros [= <-].
Qed.

Lemma item_foreach_name_ok fuel make : ∀ km item km' item',
  name_ok make km →
  item_foreach fuel make km item = LoopDone km' item' → name_ok make km'.
Proof.
  induction fuel as [|fuel IH]; intros km item km' item' Hok; [done|]. simpl.
  destruct (load_u64 make _); [|done].
  case_bool_decide; [|by intros [= <- <-]].
  destruct (make_item make km item) as [km1| |] eqn:Hitem; [|done..].
  destruct (KDBUS_ITEM_NEXT make item); [|done..].
  apply IH. by eapply make_item_name_ok.
Qed.

(** X2: a command that kdbus_bus_make_user accepts is well formed: the
    call returned 0, the kmalloc'ed object begins with the copy of the
    declared 24 to 0xffff bytes of the user buffer, followed by the bytes
    kmalloc left behind them, bloom_size is a multiple of 8 from 8 to
    16384, and the recorded name points into that object at a string of 1
    to 63 characters that ends in a NUL.  The characters and the NUL are
    bytes of the object, not necessarily copied ones. *)
Theorem X2_accepted_command_well_formed fuel env ret k :
  kdbus_bus_make_user fuel env = Return ret (Some k) →
  ret = 0 ∧
  ∃ addr size bloom p n,
    kmalloc_make env = Some addr ∧
    get_u64 0 (user_buf env) = Some size ∧ 24 ≤ size ≤ 0xffff ∧
    km_make k =
      {| ko_addr := addr;
         ko_bytes := take (Z.to_nat size) (user_buf env) ++ kmalloc_slack env |} ∧
    load_u64 (km_make k) (ptr_add addr offsetof_bloom_size) = Some bloom ∧
    bloom mod 8 = 0 ∧ 8 ≤ bloom ≤ 16384 ∧
    km_name (km_head k) = Some p ∧ 1 ≤ n ≤ 63 ∧
    (∀ j, 0 ≤ j < n →
       ∃ c, load_u8 (km_make k) (ptr_add p j) = Some c ∧ c ≠ 0) ∧
    load_u8 (km_make k) (ptr_add p n) = Some 0.
Proof.
  unfold BusMake.kdbus_bus_make_user.
  destruct (copy_frame env) as [make| |] eqn:Hcopy; [|done..].
  destruct (copy_frame_Go _ _ Hcopy)
    as (addr & size & frame & Hsize & Hrange & Haddr & Hframe & Hmake).
  destruct (item_foreach fuel make km_zero (first_item make))
    as [km item| | |] eqn:Hloop; [|done..].
  assert (Hok : name_ok make km).
  { eapply item_foreach_name_ok; [|done]. by intros p. }
  unfold make_checks.
  destruct (load_u64 make (ptr_add (ko_addr make) offsetof_size)); [|done].
  case_bool_decide; [done|].
  destruct (km_name km) as [p|] eqn:Hname.
  2:{ by rewrite (bool_decide_eq_false_2 (is_Some None))
        by (by intros [? ?]). }
  rewrite (bool_decide_eq_true_2 (is_Some (Some p))) by (by eexists).
  cbn [negb].
  destruct (load_u64 make (ptr_add (ko_addr make) offsetof_bloom_size))
    as [bloom|] eqn:Hbloom; [|done].
  rewrite KDBUS_IS_ALIGNED8_mod.
  case_bool_decide as Hal; [|done]. cbn [negb].
  case_bool_decide as Hbr; [done|].
  intros [= <- <-]. split; [done|].
  destruct (Hok p Hname) as (Hp & len & Hlen & Hnul).
  apply kdbus_validate_nul_true in Hnul as (_ & Hchars & Hend); [|done|lia].
  exists addr, size, bloom, p, (len - 1). cbn [km_make km_head].
  split_and!; try done; try lia.
  - rewrite Hmake. do 2 f_equal.
    unfold slice in Hframe. case_bool_decide; [|done].
    injection Hframe as <-. by rewrite drop_0.
  - subst make. exact Hbloom.
Qed.


Lemma visits_range make km0 item0 km item :
  visits make km0 item0 km item → 0 ≤ item0 < 2 ^ 64 → 0 ≤ item < 2 ^ 64.
Proof.
  induction 1 as [|km item fend km' item' _ _ _ _ _ Hnext]; [done|].
  intros _. unfold KDBUS_ITEM_NEXT in Hnext.
  destruct (load_u64 make item); [|done]. step_eval.
  injection Hnext as <-. apply ptr_add_range.
Qed.


(** The loop cannot end before an item that it will never get past. *)
Lemma visits_stuck make km0 item0 km item :
  visits make km0 item0 km item →
  (∀ n, item_foreach n make km item = LoopFuel) →
  ∀ n, item_foreach n make km0 item0 = LoopFuel.
Proof.
  induction 1 as [|km item fend km' item' Hv IH Hend Hlt Hitem Hnext];
    [done|].
  intros Hstuck. apply IH. intros [|n]; [done|]. simpl.
  unfold frame_end in Hend.
  destruct (load_u64 make _) as [hsize|]; [|done]. simpl in Hend.
  injection Hend as <-. rewrite bool_decide_eq_true_2 by done.
  by rewrite Hitem, Hnext.
Qed.

(** X3: a MAKE_CGROUP item with a zero id whose size field is so large
    that KDBUS_ALIGN8 wraps it to 0 leaves the cursor where it is: the
    item passes its checks again and again, and kdbus_bus_make_user never
    returns. *)
Theorem X3_zero_stride_never_returns env make km item fend size :
  KDBUS_CMD_MAKE_CGROUP ≠ KDBUS_CMD_MAKE_NAME →
  copy_frame env = Go make →
  visits make km_zero (first_item make) km item →
  frame_end make = Some fend → item < fend →
  load_u64 make item = Some size →
  KDBUS_ITEM_HEADER_SIZE < size → KDBUS_ALIGN8 size = 0 →
  load_u64 make (ptr_add item 8) = Some KDBUS_CMD_MAKE_CGROUP →
  km_cgroup_id km = 0 →
  load_u64 make (ptr_add item KDBUS_ITEM_HEADER_SIZE) = Some 0 →
  ∀ fuel, kdbus_bus_make_user fuel env = NoReturn.
Proof.
  intros Hne Hcopy Hv Hend Hlt Hsize Hbig Hal Htype Hcg Hdata fuel.
  unfold BusMake.kdbus_bus_make_user. rewrite Hcopy.
  assert (Hitem : 0 ≤ item < 2 ^ 64).
  { eapply visits_range; [done|apply ptr_add_range]. }
  rewrite (visits_stuck _ _ _ _ _ Hv); [done|].
  intros n. induction n as [|n IH]; [done|]. simpl.
  unfold frame_end in Hend.
  destruct (load_u64 make (ptr_add (ko_addr make) offsetof_size))
    as [hsize|]; [|done]. simpl in Hend. injection Hend as <-.
  rewrite bool_decide_eq_true_2 by done.
  unfold BusMake.make_item, KDBUS_ITEM_NEXT, KDBUS_ITEM_HEADER_SIZE in *.
  rewrite Hsize. step_eval. bd_false (size ≤ 16). step_eval.
  rewrite Htype. step_eval.
  bd_false (KDBUS_CMD_MAKE_CGROUP = KDBUS_CMD_MAKE_NAME).
  bd_true (KDBUS_CMD_MAKE_CGROUP = KDBUS_CMD_MAKE_CGROUP).
  bd_true (km_cgroup_id km = 0). step_eval.
  rewrite Hdata. step_eval. rewrite Hal, ptr_add_0 by done.
  destruct km as [name cg]. simpl in *. by subst cg.
Qed.



End Props.

(** X1 at a user buffer of three bytes: the size field cannot be read. *)
Lemma X1_make_user_entry_errors_witness :
  BusMake.kdbus_bus_make_user 1 2 0 (sample_env [1; 2; 3])
  = Return (- EFAULT) None.
Proof.
  apply (proj1 (X1_make_user_entry_errors 1 2 0%nat (sample_env [1; 2; 3]))).
  reflexivity.
Defined.

(** The frame of scenario S1: the name "1000-test", bloom_size 64. *)
Definition named_env : make_env :=
  sample_env (frame_bytes 56 0 64 (name_item 1)).

Definition named_kmake : kdbus_cmd_bus_kmake :=
  {| km_head := {| km_name := Some (sample_addr + 40); km_cgroup_id := 0 |};
     km_make := {| ko_addr := sample_addr;
                   ko_bytes := user_buf named_env ++ kmalloc_slack named_env |} |}.

(** X2 at the frame of scenario S1. *)
Lemma X2_accepted_command_well_formed_witness :
  0 = 0 ∧
  ∃ addr size bloom p n,
    kmalloc_make named_env = Some addr ∧
    get_u64 0 (user_buf named_env) = Some size ∧ 24 ≤ size ≤ 0xffff ∧
    km_make named_kmake =
      {| ko_addr := addr;
         ko_bytes := take (Z.to_nat size) (user_buf named_env)
                     ++ kmalloc_slack named_env |} ∧
    load_u64 (km_make named_kmake) (ptr_add addr offsetof_bloom_size)
      = Some bloom ∧
    bloom mod 8 = 0 ∧ 8 ≤ bloom ≤ 16384 ∧
    km_name (km_head named_kmake) = Some p ∧ 1 ≤ n ≤ 63 ∧
    (∀ j, 0 ≤ j < n →
       ∃ c, load_u8 (km_make named_kmake) (ptr_add p j) = Some c ∧ c ≠ 0) ∧
    load_u8 (km_make named_kmake) (ptr_add p n) = Some 0.
Proof.
  apply (X2_accepted_command_well_formed 1 2 2%nat named_env 0 named_kmake).
  vm_compute. reflexivity.
Defined.

(** A frame whose one MAKE_CGROUP item declares 2^64 - 1 bytes and
    carries the id 0. *)
Definition zero_stride_env : make_env :=
  sample_env (frame_bytes 48 0 64 (item_bytes (2 ^ 64 - 1) 2 (le_encode 8 0))).

Definition zero_stride_make : kobj :=
  {| ko_addr := sample_addr;
     ko_bytes := user_buf zero_stride_env ++ kmalloc_slack zero_stride_env |}.

(** X3 at that frame, for 100 iterations. *)
Lemma X3_zero_stride_never_returns_witness :
  kdbus_bus_make_user 1 2 100 zero_stride_env = NoReturn.
Proof.
  apply (X3_zero_stride_never_returns 1 2 zero_stride_env zero_stride_make
           km_zero (sample_addr + 24) (sample_addr + 48) (2 ^ 64 - 1)).
  - lia.
  - reflexivity.
  - apply visits_first.
  - vm_compute. reflexivity.
  - reflexivity.
  - vm_compute. reflexivity.
  - reflexivity.
  - vm_compute. reflexivity.
  - vm_compute. reflexivity.
  - reflexivity.
  - vm_compute. reflexivity.
Defined.


End ParserProps.

(** ** The make-bus parser: where the name lies *)
Module FrameProps.
Import BusMake BusMakeSpec ParserProps.



Section Props.
Variables KDBUS_CMD_MAKE_NAME KDBUS_CMD_MAKE_CGROUP : Z.

Local Abbreviation item_foreach :=
  (item_foreach KDBUS_CMD_MAKE_NAME KDBUS_CMD_MAKE_CGROUP).
Local Abbreviation make_item :=
  (make_item KDBUS_CMD_MAKE_NAME KDBUS_CMD_MAKE_CGROUP).
Local Abbreviation kdbus_bus_make_user :=
  (kdbus_bus_make_user KDBUS_CMD_MAKE_NAME KDBUS_CMD_MAKE_CGROUP).





End Props.


(** The condition on the size is needed.  A frame of 41 bytes whose name
    item declares 18 bytes passes the padding check, and its NUL is the
    first byte behind the copied frame: the command is accepted when
    kmalloc left a 0 there, and refused otherwise. *)
Definition short_frame : list Z :=
  frame_bytes 41 0 64 (item_bytes 18 1 [97]).

Lemma name_end_behind_frame :
  (∃ k, BusMake.kdbus_bus_make_user 1 2 2
          {| user_buf := short_frame; kmalloc_make := Some sample_addr;
             kmalloc_slack := 0 :: replicate 23 0xaa |}
        = Return 0 (Some k)) ∧
  BusMake.kdbus_bus_make_user 1 2 2
    {| user_buf := short_frame; kmalloc_make := Some sample_addr;
       kmalloc_slack := replicate 24 0xaa |}
  = Return (- EINVAL) None.
Proof.
  split; [eexists|]; vm_compute; reflexivity.
Qed.

End FrameProps.

(** ** Reference counts, ids and names of namespaces and buses *)
Module GraphProps.
Import Ns Bus ObjectSpec.

Lemma set_ns_id a n st : ns_heap st !! a = Some n → set_ns a n st = st.
Proof. intros Hn. destruct st. unfold_st. f_equal. by apply insert_id. Qed.

Lemma set_bus_id b o st : bus_heap st !! b = Some o → set_bus b o st = st.
Proof. intros Ho. destruct st. unfold_st. f_equal. by apply insert_id. Qed.

Lemma set_ns_set_ns a n1 n2 st : set_ns a n2 (set_ns a n1 st) = set_ns a n2 st.
Proof. unfold_st. f_equal. apply insert_insert_eq. Qed.

Lemma set_bus_set_bus b o1 o2 st :
  set_bus b o2 (set_bus b o1 st) = set_bus b o2 st.
Proof. unfold_st. f_equal. apply insert_insert_eq. Qed.

Lemma ns_ref_unref st ns n :
  ns_heap st !! ns = Some n → ns_kref n ≠ 0 →
  kdbus_ns_ref ns st ≫= kdbus_ns_unref ns = Some st.
Proof.
  intros Hn Hk. unfold kdbus_ns_ref. rewrite Hn. simpl.
  unfold kdbus_ns_unref. cbn [ns_heap set_ns].
  rewrite lookup_insert_eq. simpl.
  rewrite bool_decide_eq_false_2 by lia.
  f_equal. rewrite set_ns_set_ns.
  replace (ns_kref n + 1 - 1) with (ns_kref n) by lia.
  replace (Ns.with_kref (ns_kref n) (Ns.with_kref (ns_kref n + 1) n))
    with n by (by destruct n).
  by apply set_ns_id.
Qed.

Lemma bus_ref_unref st bus o :
  bus_heap st !! bus = Some o → bus_kref o ≠ 0 →
  kdbus_bus_ref bus st ≫= kdbus_bus_unref bus = Some st.
Proof.
  intros Ho Hk. unfold kdbus_bus_ref. rewrite Ho. simpl.
  unfold kdbus_bus_unref. cbn [bus_heap set_bus].
  rewrite lookup_insert_eq. simpl.
  rewrite bool_decide_eq_false_2 by lia.
  f_equal. rewrite set_bus_set_bus.
  replace (bus_kref o + 1 - 1) with (bus_kref o) by lia.
  replace (Bus.with_kref (bus_kref o) (Bus.with_kref (bus_kref o + 1) o))
    with o by (by destruct o).
  by apply set_bus_id.
Qed.

(** X5: taking a reference and dropping it again leaves the whole state as
    it was, for a namespace and for a bus whose count is not 0. *)
Theorem X5_ref_unref_round_trip :
  (∀ st ns n, ns_heap st !! ns = Some n → ns_kref n ≠ 0 →
     kdbus_ns_ref ns st ≫= kdbus_ns_unref ns = Some st) ∧
  (∀ st bus o, bus_heap st !! bus = Some o → bus_kref o ≠ 0 →
     kdbus_bus_ref bus st ≫= kdbus_bus_unref bus = Some st).
Proof. split; [apply ns_ref_unref|apply bus_ref_unref]. Qed.

(** Close a goal about the state behind a release. *)
Ltac freed :=
  rewrite ?insert_insert_eq, ?delete_insert_eq;
  split_and!; try done; by rewrite <- ?(assoc_L (++)).

(** The state behind the first disconnect of a namespace. *)
Lemma ns_disconnect_first_state a n st :
  ns_heap st !! a = Some n → ns_disconnected n = false →
  a ∈ namespace_list st →
  ∃ st' n', kdbus_ns_disconnect a st = Some st' ∧
    ns_heap st' = <[a := n']> (ns_heap st) ∧
    ns_devpath n' = ns_devpath n ∧
    bus_heap st' = bus_heap st ∧
    namespace_list st' = list_without a (namespace_list st) ∧
    trace st' = trace st ++ ns_teardown n.
Proof.
  intros Hn Hf Hl. unfold kdbus_ns_disconnect, ns_teardown.
  rewrite Hn. simpl. rewrite Hf, (list_del_Some _ _ Hl). simpl.
  destruct n as [kref disc id name devpath parent major dev buses next].
  simpl in *. destruct dev as [dev|]; simpl;
    case_bool_decide; simpl; unfold_st;
    (eexists _, _; split; [done|]; simpl; split_and!;
      [ done | done | done | done | by rewrite <- ?(assoc_L (++)) ]).
Qed.

Lemma ns_last_unref st ns n :
  ns_heap st !! ns = Some n → ns_kref n = 1 →
  ns_disconnected n = true ∨ ns ∈ namespace_list st →
  ∃ st', kdbus_ns_unref ns st = Some st' ∧
    ns_heap st' = delete ns (ns_heap st) ∧
    bus_heap st' = bus_heap st ∧
    namespace_list st' =
      (if ns_disconnected n then namespace_list st
       else list_without ns (namespace_list st)) ∧
    trace st' = trace st ++
      (if ns_disconnected n then [] else ns_teardown n) ++
      [EvPrInfo ("clean up namespace " +:+ fmt_s (ns_devpath n));
       EvKfreeNs ns].
Proof.
  intros Hn Hk Hl. unfold kdbus_ns_unref. rewrite Hn. cbn [mbind option_bind].
  rewrite bool_decide_eq_true_2 by lia.
  set (n1 := Ns.with_kref (ns_kref n - 1) n).
  set (st1 := set_ns ns n1 st).
  assert (Hn1 : ns_heap st1 !! ns = Some n1) by apply lookup_insert_eq.
  unfold __kdbus_ns_free.
  destruct (ns_disconnected n) eqn:Hd.
  - rewrite (ns_disconnect_again ns st1) by (by exists n1).
    cbn [mbind option_bind]. rewrite Hn1. cbn [mbind option_bind].
    eexists. split; [done|]. subst st1. unfold_st. subst n1.
    rewrite delete_insert_eq. by rewrite <- (assoc_L (++)).
  - destruct Hl as [?|Hl]; [done|].
    destruct (ns_disconnect_first_state ns n1 st1 Hn1 Hd Hl)
      as (st2 & n2 & Hst2 & Hh2 & Hp2 & Hb2 & Hl2 & Ht2).
    rewrite Hst2. cbn [mbind option_bind].
    rewrite Hh2, lookup_insert_eq. cbn [mbind option_bind].
    eexists. split; [done|]. unfold_st.
    rewrite Hh2, Hb2, Hl2, Ht2, Hp2. subst st1 n1. unfold_st.
    rewrite insert_insert_eq, delete_insert_eq.
    split_and!; try done. by rewrite <- !(assoc_L (++)).
Qed.

(** The last reference to a namespace that is neither disconnected nor
    on the list cannot be dropped: the release unlinks it. *)
Lemma ns_last_unref_unlinked st ns n :
  ns_heap st !! ns = Some n → ns_kref n = 1 →
  ns_disconnected n = false → ns ∉ namespace_list st →
  kdbus_ns_unref ns st = None.
Proof.
  intros Hn Hk Hd Hl.
  apply (ns_new_fail_unlinked None ns n st Hn Hk Hd) in Hl.
  unfold ns_new_fail in Hl. by destruct (kdbus_ns_unref ns st).
Qed.

Lemma bus_last_unref st bus o n :
  bus_heap st !! bus = Some o → bus_kref o = 1 →
  ns_heap st !! bus_ns o = Some n →
  bus_disconnected o = true ∨ bus ∈ ns_bus_list n →
  ∃ st', kdbus_bus_unref bus st = Some st' ∧
    bus_heap st' = delete bus (bus_heap st) ∧
    ns_heap st' =
      (if bus_disconnected o then ns_heap st
       else <[bus_ns o :=
                Ns.with_bus_list (list_without bus (ns_bus_list n)) n]>
              (ns_heap st)) ∧
    namespace_list st' = namespace_list st ∧
    trace st' = trace st ++
      [EvNameRegistryUnref (bus_name_registry o)] ++
      (if bus_disconnected o then []
       else ep_calls (bus_ep_list o) ++
            [EvPrInfo ("closing bus " +:+ fmt_s (ns_devpath n) +:+ "/"
                       +:+ fmt_s (bus_name o))]) ++
      [EvPrInfo ("clean up bus " +:+ fmt_s (ns_devpath n) +:+ "/"
                 +:+ fmt_s (bus_name o));
       EvKfreeBus bus].
Proof.
  intros Ho Hk Hn Hl. unfold kdbus_bus_unref. rewrite Ho. simpl.
  rewrite bool_decide_eq_true_2 by lia.
  unfold __kdbus_bus_free, kdbus_bus_disconnect.
  cbn [bus_heap set_bus emit]. rewrite lookup_insert_eq. simpl.
  destruct o as [kref disc ns id name flags bloom cg cnext reg eps].
  simpl in *. destruct disc; simpl.
  - unfold_st. rewrite Hn. simpl.
    eexists. split; [done|]. simpl. freed.
  - destruct Hl as [?|Hl]; [done|].
    unfold_st. rewrite Hn. simpl. rewrite (list_del_Some _ _ Hl). simpl.
    rewrite lookup_insert_eq. simpl.
    rewrite lookup_insert_eq. simpl.
    eexists. split; [done|]. simpl. rewrite ep_teardown_calls. freed.
Qed.

(** The same for a bus that is not on the bus list of its namespace. *)
Lemma bus_last_unref_unlinked st bus o n :
  bus_heap st !! bus = Some o → bus_kref o = 1 →
  ns_heap st !! bus_ns o = Some n →
  bus_disconnected o = false → bus ∉ ns_bus_list n →
  kdbus_bus_unref bus st = None.
Proof.
  intros Ho Hk Hn Hd Hl. unfold kdbus_bus_unref. rewrite Ho. simpl.
  rewrite bool_decide_eq_true_2 by lia.
  unfold __kdbus_bus_free, kdbus_bus_disconnect.
  cbn [bus_heap set_bus emit]. rewrite lookup_insert_eq. simpl.
  rewrite Hd. unfold_st. rewrite Hn. simpl.
  by rewrite (list_del_None _ _ Hl).
Qed.

(** X6: dropping the last reference to an object that is on its list, or
    disconnected already, disconnects it when that has not been done
    before, and frees it: a namespace leaves the heap and the global
    list, its teardown happens once, then come the log line and the
    kfree; a bus unrefs its name registry first, then every endpoint of
    its list is disconnected and released, in list order, and the bus is
    logged and freed.  The last reference to an object that is neither
    disconnected nor on its list cannot be dropped: unlinking it is an
    invalid access. *)
Theorem X6_last_unref_frees :
  (∀ st ns n, ns_heap st !! ns = Some n → ns_kref n = 1 →
     (ns_disconnected n = true ∨ ns ∈ namespace_list st →
      ∃ st', kdbus_ns_unref ns st = Some st' ∧
        ns_heap st' = delete ns (ns_heap st) ∧
        bus_heap st' = bus_heap st ∧
        namespace_list st' =
          (if ns_disconnected n then namespace_list st
           else list_without ns (namespace_list st)) ∧
        trace st' = trace st ++
          (if ns_disconnected n then [] else ns_teardown n) ++
          [EvPrInfo ("clean up namespace " +:+ fmt_s (ns_devpath n));
           EvKfreeNs ns]) ∧
     (ns_disconnected n = false → ns ∉ namespace_list st →
      kdbus_ns_unref ns st = None)) ∧
  (∀ st bus o n, bus_heap st !! bus = Some o → bus_kref o = 1 →
     ns_heap st !! bus_ns o = Some n →
     (bus_disconnected o = true ∨ bus ∈ ns_bus_list n →
      ∃ st', kdbus_bus_unref bus st = Some st' ∧
        bus_heap st' = delete bus (bus_heap st) ∧
        ns_heap st' =
          (if bus_disconnected o then ns_heap st
           else <[bus_ns o :=
                    Ns.with_bus_list (list_without bus (ns_bus_list n)) n]>
                  (ns_heap st)) ∧
        namespace_list st' = namespace_list st ∧
        trace st' = trace st ++
          [EvNameRegistryUnref (bus_name_registry o)] ++
          (if bus_disconnected o then []
           else ep_calls (bus_ep_list o) ++
                [EvPrInfo ("closing bus " +:+ fmt_s (ns_devpath n) +:+ "/"
                           +:+ fmt_s (bus_name o))]) ++
          [EvPrInfo ("clean up bus " +:+ fmt_s (ns_devpath n) +:+ "/"
                     +:+ fmt_s (bus_name o));
           EvKfreeBus bus]) ∧
     (bus_disconnected o = false → bus ∉ ns_bus_list n →
      kdbus_bus_unref bus st = None)).
Proof.
  split.
  - intros st ns n Hn Hk. split.
    + by apply ns_last_unref.
    + by apply ns_last_unref_unlinked.
  - intros st bus o n Ho Hk Hn. split.
    + by apply bus_last_unref.
    + by eapply bus_last_unref_unlinked.
Qed.

(** *** The global list and the namespace ids *)

(** The global list holds no namespace twice; every entry is a live
    namespace that is not disconnected, with an id below the counter; and
    no two entries have the same id. *)
Definition ns_list_ok (st : kstate) : Prop :=
  0 ≤ kdbus_ns_id_next st ∧
  NoDup (namespace_list st) ∧
  (∀ a, a ∈ namespace_list st →
     ∃ n, ns_heap st !! a = Some n ∧ ns_disconnected n = false ∧
          ns_id n < kdbus_ns_id_next st) ∧
  (∀ a1 a2 n1 n2, a1 ∈ namespace_list st → a2 ∈ namespace_list st →
     ns_heap st !! a1 = Some n1 → ns_heap st !! a2 = Some n2 →
     ns_id n1 = ns_id n2 → a1 = a2).

(** From [st] to [st'] entries may have left the list and the counter may
    have grown; the entries that stay keep their id and their flag. *)
Definition ns_kept (st st' : kstate) : Prop :=
  namespace_list st' `sublist_of` namespace_list st ∧
  kdbus_ns_id_next st ≤ kdbus_ns_id_next st' ∧
  ∀ a n, a ∈ namespace_list st' → ns_heap st !! a = Some n →
    ∃ n', ns_heap st' !! a = Some n' ∧ ns_id n' = ns_id n ∧
          ns_disconnected n' = ns_disconnected n.

Lemma ns_kept_ok st st' : ns_kept st st' → ns_list_ok st → ns_list_ok st'.
Proof.
  intros (Hsub & Hcnt & Hsame) (Hpos & Hnd & Hlive & Hinj).
  assert (Hin : ∀ a, a ∈ namespace_list st' → a ∈ namespace_list st)
    by (intros a Ha; by eapply elem_of_sublist).
  split_and!.
  - lia.
  - by eapply sublist_NoDup.
  - intros a Ha. destruct (Hlive a (Hin a Ha)) as (n & Hn & Hf & Hid).
    destruct (Hsame a n Ha Hn) as (n' & Hn' & Hid' & Hf').
    exists n'. split_and!; [done|congruence|lia].
  - intros a1 a2 n1 n2 Ha1 Ha2 Hn1 Hn2 Hid.
    destruct (Hlive a1 (Hin a1 Ha1)) as (m1 & Hm1 & _).
    destruct (Hlive a2 (Hin a2 Ha2)) as (m2 & Hm2 & _).
    destruct (Hsame a1 m1 Ha1 Hm1) as (? & ? & Hid1 & _).
    destruct (Hsame a2 m2 Ha2 Hm2) as (? & ? & Hid2 & _).
    simplify_eq. apply (Hinj a1 a2 m1 m2); auto. congruence.
Qed.

Lemma ns_kept_refl st : ns_kept st st.
Proof. split_and!; [done|lia|]. intros a n _ Hn. by exists n. Qed.

Lemma ns_kept_trans st1 st2 st3 :
  ns_kept st1 st2 → ns_kept st2 st3 → ns_kept st1 st3.
Proof.
  intros (Hs1 & Hc1 & H1) (Hs2 & Hc2 & H2). split_and!.
  - by etrans.
  - lia.
  - intros a n Ha Hn.
    destruct (H1 a n) as (n2 & Hn2 & ? & ?); [by eapply elem_of_sublist|done|].
    destruct (H2 a n2 Ha Hn2) as (n3 & ? & ? & ?).
    exists n3. split_and!; congruence.
Qed.

(** The part of the state the list invariant looks at. *)
Definition ns_view (st : kstate) : list Z * Z * gmap Z (Z * bool) :=
  (namespace_list st, kdbus_ns_id_next st,
   (λ n, (ns_id n, ns_disconnected n)) <$> ns_heap st).

Lemma ns_view_kept st st' : ns_view st' = ns_view st → ns_kept st st'.
Proof.
  unfold ns_view, ns_kept. intros [= Hl Hc Hh]. rewrite Hl, Hc.
  split_and!; [done|lia|]. intros a n _ Hn.
  assert (((λ n, (ns_id n, ns_disconnected n)) <$> ns_heap st') !! a
          = Some (ns_id n, ns_disconnected n)) as Hv
    by (by rewrite Hh, lookup_fmap, Hn).
  rewrite lookup_fmap in Hv.
  destruct (ns_heap st' !! a) as [n'|]; [|done].
  injection Hv as ??. by exists n'.
Qed.

Lemma ns_view_set_ns a n n' st :
  ns_heap st !! a = Some n → ns_id n' = ns_id n →
  ns_disconnected n' = ns_disconnected n →
  ns_view (set_ns a n' st) = ns_view st.
Proof.
  intros Hn Hid Hf. unfold ns_view. unfold_st. f_equal.
  rewrite fmap_insert, Hid, Hf. apply insert_id.
  by rewrite lookup_fmap, Hn.
Qed.

Lemma ns_kept_set_unlisted a n' st :
  a ∉ namespace_list st → ns_kept st (set_ns a n' st).
Proof.
  intros Ha. split_and!; unfold_st; [done|lia|].
  intros x n Hx Hn. exists n. rewrite lookup_insert_ne by set_solver. done.
Qed.

Lemma ns_disconnect_flagged a st st' :
  kdbus_ns_disconnect a st = Some st' → ns_flagged a st'.
Proof.
  unfold kdbus_ns_disconnect. intros Hrun.
  destruct (ns_heap st !! a) as [n|] eqn:Hn; [|done]. simpl in Hrun.
  destruct (ns_disconnected n) eqn:Hd.
  - injection Hrun as <-. by exists n.
  - destruct (list_del a (namespace_list st)) as [l|] eqn:Hl; [|done].
    pose proof (list_del_inv _ _ _ Hl) as [Hin _].
    destruct (ns_disconnect_first a n st Hn Hd Hin) as (st1 & Hst1 & Hfl & _).
    unfold kdbus_ns_disconnect in Hst1. rewrite Hn in Hst1. simpl in Hst1.
    rewrite Hd, Hl in Hst1. congruence.
Qed.

Lemma ns_disconnect_kept a st st' :
  kdbus_ns_disconnect a st = Some st' → ns_kept st st'.
Proof.
  unfold kdbus_ns_disconnect. intros Hrun.
  destruct (ns_heap st !! a) as [n|] eqn:Hn; [|done]. simpl in Hrun.
  destruct (ns_disconnected n) eqn:Hd; [injection Hrun as <-; apply ns_kept_refl|].
  destruct (list_del a (namespace_list st)) as [l|] eqn:Hl; [|done].
  apply list_del_inv in Hl as [_ ->]. simpl in Hrun.
  repeat case_match; simplify_eq.
  all: split_and!; unfold_st;
    [apply sublist_filter|lia|];
    intros x m [Hx _]%list_elem_of_filter Hm; exists m;
    rewrite lookup_insert_ne by done; done.
Qed.

Lemma ns_free_kept a st st' :
  ns_list_ok st → __kdbus_ns_free a st = Some st' → ns_kept st st'.
Proof.
  intros Hok. unfold __kdbus_ns_free. intros Hrun.
  destruct (kdbus_ns_disconnect a st) as [st1|] eqn:Hd; [|done].
  simpl in Hrun. destruct (ns_heap st1 !! a) as [n|] eqn:Hn; simplify_eq/=.
  pose proof (ns_disconnect_kept _ _ _ Hd) as Hk.
  pose proof (ns_kept_ok _ _ Hk Hok) as (_ & _ & Hlive & _).
  destruct (ns_disconnect_flagged _ _ _ Hd) as (m & Hm & Hfl).
  assert (a ∉ namespace_list st1) as Hout.
  { intros Hin. destruct (Hlive a Hin) as (? & ? & ? & _). congruence. }
  eapply ns_kept_trans; [done|].
  split_and!; unfold_st; [done|lia|].
  intros x y Hx Hy. exists y. rewrite lookup_delete_ne by set_solver. done.
Qed.

Lemma ns_unref_kept a st st' :
  ns_list_ok st → kdbus_ns_unref a st = Some st' → ns_kept st st'.
Proof.
  intros Hok. unfold kdbus_ns_unref. intros Hrun.
  destruct (ns_heap st !! a) as [n|] eqn:Hn; [|done]. simpl in Hrun.
  assert (ns_kept st (set_ns a (Ns.with_kref (ns_kref n - 1) n) st)) as Hk
    by (apply ns_view_kept; by eapply ns_view_set_ns).
  case_bool_decide; simplify_eq; [|done].
  eapply ns_kept_trans; [done|].
  eapply ns_free_kept; [|done]. by eapply ns_kept_ok.
Qed.

Lemma ns_ref_kept a st st' : kdbus_ns_ref a st = Some st' → ns_kept st st'.
Proof.
  unfold kdbus_ns_ref. intros Hrun.
  destruct (ns_heap st !! a) as [n|] eqn:Hn; simplify_eq/=.
  apply ns_view_kept. by eapply ns_view_set_ns.
Qed.

Lemma ns_find_kept parent name st r st' :
  kdbus_ns_find parent name st = Some (r, st') → ns_kept st st'.
Proof.
  unfold kdbus_ns_find. intros Hrun.
  destruct (ns_find_entry _ _ _ _) as [[a|]|]; simplify_eq/=.
  - destruct (kdbus_ns_ref a st) eqn:Hr; simplify_eq/=.
    by eapply ns_ref_kept.
  - apply ns_kept_refl.
Qed.


(** The bus functions leave that part of the state alone. *)
Lemma bus_ref_view b st st' :
  kdbus_bus_ref b st = Some st' → ns_view st' = ns_view st.
Proof.
  unfold kdbus_bus_ref. intros Hrun.
  destruct (bus_heap st !! b); by simplify_eq/=.
Qed.

Lemma bus_disconnect_view b st st' :
  kdbus_bus_disconnect b st = Some st' → ns_view st' = ns_view st.
Proof.
  unfold kdbus_bus_disconnect. intros Hrun.
  destruct (bus_heap st !! b) as [o|]; [|done]. simpl in Hrun.
  destruct (bus_disconnected o); [by simplify_eq|].
  cbn [ns_heap set_bus] in Hrun.
  destruct (ns_heap st !! bus_ns o) as [n|] eqn:Hn; [|done].
  simpl in Hrun.
  destruct (list_del b (ns_bus_list n)) as [l|]; [|done]. simpl in Hrun.
  cbn [ns_heap set_ns emit] in Hrun. rewrite lookup_insert_eq in Hrun.
  simplify_eq/=.
  change (ns_view (set_ns (bus_ns o) (Ns.with_bus_list l n) st)
          = ns_view st).
  by eapply ns_view_set_ns.
Qed.

Lemma bus_free_view b st st' :
  __kdbus_bus_free b st = Some st' → ns_view st' = ns_view st.
Proof.
  unfold __kdbus_bus_free. intros Hrun.
  destruct (bus_heap st !! b) as [o|]; [|done]. simpl in Hrun.
  destruct (kdbus_bus_disconnect b _) as [st2|] eqn:Hd; [|done].
  simpl in Hrun. destruct (ns_heap st2 !! bus_ns o); simplify_eq/=.
  by apply bus_disconnect_view in Hd.
Qed.

Lemma bus_unref_view b st st' :
  kdbus_bus_unref b st = Some st' → ns_view st' = ns_view st.
Proof.
  unfold kdbus_bus_unref. intros Hrun.
  destruct (bus_heap st !! b) as [o|]; [|done]. simpl in Hrun.
  case_bool_decide; simplify_eq; [|done].
  by apply bus_free_view in Hrun.
Qed.

Lemma bus_find_view ns name st r st' :
  kdbus_bus_find ns name st = Some (r, st') → ns_view st' = ns_view st.
Proof.
  unfold kdbus_bus_find. intros Hrun.
  destruct (ns_heap st !! ns); [|done]. simpl in Hrun.
  destruct (bus_find_entry _ _ _) as [[a|]|]; simplify_eq/=; [|done].
  destruct (kdbus_bus_ref a st) eqn:Hr; simplify_eq/=.
  by eapply bus_ref_view.
Qed.

Lemma bus_new_view `{bus_config} env ns kmake mode uid gid st r :
  kdbus_bus_new env ns kmake mode uid gid st = Some r →
  ns_view (br_state r) = ns_view st.
Proof.
  unfold kdbus_bus_new, bus_new_fail.
  destruct (negb _); [by intros [= <-]|].
  destruct (kdbus_bus_find ns _ st) as [[[f|] st1]|] eqn:Hfind;
    [| |done]; simpl.
  { destruct (kdbus_bus_unref f st1) as [st2|] eqn:Hu; [|done].
    intros [= <-]. simpl. apply bus_unref_view in Hu.
    apply bus_find_view in Hfind. congruence. }
  apply bus_find_none in Hfind as ->.
  destruct (kzalloc_bus env) as [b|]; [|by intros [= <-]].
  destruct (negb (Bus.kstrdup_name env)).
  { destruct (kdbus_bus_unref b _) as [st2|] eqn:Hu; [|done].
    intros [= <-]. simpl. by apply bus_unref_view in Hu. }
  destruct (kdbus_name_registry_new env) as [reg|].
  2:{ destruct (kdbus_bus_unref b _) as [st2|] eqn:Hu; [|done].
      intros [= <-]. simpl. by apply bus_unref_view in Hu. }
  case_bool_decide.
  { destruct (kdbus_bus_unref b _) as [st2|] eqn:Hu; [|done].
    intros [= <-]. simpl. by apply bus_unref_view in Hu. }
  cbn [ns_heap emit set_bus].
  destruct (ns_heap st !! ns) as [n|] eqn:Hn; [|done].
  intros [= <-]. cbn [br_state].
  match goal with
  | |- ns_view (emit _ (set_ns ns ?n' (set_bus ?b ?o ?s))) = _ =>
      change (ns_view (set_ns ns n' st) = ns_view st)
  end.
  by eapply ns_view_set_ns.
Qed.


Lemma ns_list_ok_append n o st :
  ns_list_ok st → n ∉ namespace_list st → ns_heap st !! n = Some o →
  ns_disconnected o = false → ns_id o < kdbus_ns_id_next st →
  (∀ a m, a ∈ namespace_list st → ns_heap st !! a = Some m →
          ns_id m ≠ ns_id o) →
  ns_list_ok (set_namespace_list (list_add_tail n (namespace_list st)) st).
Proof.
  intros (Hpos & Hnd & Hlive & Hinj) Hout Ho Hf Hid Hnew.
  unfold ns_list_ok, list_add_tail. unfold_st. split_and!.
  - done.
  - apply NoDup_app. split_and!; [done| |apply NoDup_singleton].
    intros x Hx ->%list_elem_of_singleton. done.
  - intros a [Ha| ->%list_elem_of_singleton]%elem_of_app; [by apply Hlive|].
    by exists o.
  - intros a1 a2 n1 n2
      [Ha1| ->%list_elem_of_singleton]%elem_of_app
      [Ha2| ->%list_elem_of_singleton]%elem_of_app Hn1 Hn2 Heq;
      simplify_eq; try done.
    + by eapply Hinj.
    + by destruct (Hnew a1 n1 Ha1 Hn1).
    + by destruct (Hnew a2 n2 Ha2 Hn2).
Qed.

Section NsIds.
Context `{ns_config}.

Lemma ns_new_fail_ok ret n st r :
  ns_list_ok st → ns_new_fail ret n st = Some r → ns_list_ok (nr_state r).
Proof.
  intros Hok. unfold ns_new_fail. intros Hrun.
  destruct (kdbus_ns_unref n st) as [st'|] eqn:Hu; simplify_eq/=.
  eapply ns_kept_ok; [by eapply ns_unref_kept|done].
Qed.

Lemma ns_new_register_ok env n ret st r :
  ns_list_ok st → n ∉ namespace_list st →
  kdbus_ns_id_next st + 1 < 2 ^ 64 →
  (∀ o, ns_heap st !! n = Some o → ns_disconnected o = false) →
  ns_new_register env n ret st = Some r → ns_list_ok (nr_state r).
Proof.
  intros Hok Hout Hwrap Hflag. unfold ns_new_register.
  destruct (ns_heap st !! n) as [o|] eqn:Ho; [|done]. simpl.
  specialize (Hflag o eq_refl).
  case_bool_decide; [by apply ns_new_fail_ok|].
  cbn [kdbus_ns_id_next set_major_idr].
  set (c := kdbus_ns_id_next st) in *.
  assert (Hc : 0 ≤ c) by apply Hok.
  rewrite (u64_small (c + 1)) by lia.
  set (o1 := Ns.with_id c o).
  set (st2 := set_ns n o1 _).
  assert (Hk2 : ns_kept st st2).
  { split_and!; subst st2; unfold_st; [done|lia|].
    intros a m Ha Hm. exists m. rewrite lookup_insert_ne by set_solver. done. }
  pose proof (ns_kept_ok _ _ Hk2 Hok) as Hok2.
  destruct (kzalloc_dev env) as [dev|]; [|by apply ns_new_fail_ok].
  case_bool_decide.
  { apply ns_new_fail_ok.
    eapply ns_kept_ok; [by apply (ns_kept_set_unlisted n _ (emit _ _))|].
    eapply (ns_kept_ok (set_ns n (Ns.with_dev (Some dev) o1) st2));
      [by apply ns_view_kept|].
    eapply ns_kept_ok; [|exact Hok2]. by apply ns_kept_set_unlisted. }
  intros [= <-]. cbn [nr_state].
  match goal with
  | |- ns_list_ok (emit _ (set_namespace_list _ ?s)) =>
      change (ns_list_ok
                (set_namespace_list (list_add_tail n (namespace_list s)) s))
  end.
  eapply (ns_list_ok_append n (Ns.with_dev (Some dev) o1)).
  - eapply ns_kept_ok; [|exact Hok2]. by apply ns_kept_set_unlisted.
  - done.
  - unfold_st. by rewrite lookup_insert_eq.
  - done.
  - subst st2. unfold_st. simpl. lia.
  - intros a m Ha. subst st2. unfold_st.
    rewrite !lookup_insert_ne by set_solver. intros Hm. simpl.
    destruct Hok as (_ & _ & Hlive & _).
    destruct (Hlive a Ha) as (m' & Hm' & _ & Hid). simplify_eq. lia.
Qed.

Lemma ns_new_ok env parent name mode st r :
  ns_list_ok st →
  (∀ n, kzalloc_ns env = Some n → ns_heap st !! n = None) →
  kdbus_ns_id_next st + 1 < 2 ^ 64 →
  kdbus_ns_new env parent name mode st = Some r → ns_list_ok (nr_state r).
Proof.
  intros Hok Hfresh Hwrap. unfold kdbus_ns_new.
  set (st0 := emit _ st).
  assert (Hok0 : ns_list_ok st0) by exact Hok.
  case_bool_decide; [by intros [= <-]|].
  destruct (kdbus_ns_find parent name st0) as [[[f|] st1]|] eqn:Hfind;
    [| |done]; simpl.
  { destruct (kdbus_ns_unref f st1) as [st2|] eqn:Hu; [|done].
    intros [= <-]. simpl.
    pose proof (ns_kept_ok _ _ (ns_find_kept _ _ _ _ _ Hfind) Hok0).
    eapply ns_kept_ok; [by eapply ns_unref_kept|done]. }
  apply ns_find_none in Hfind as ->.
  destruct (kzalloc_ns env) as [n|] eqn:Hn; [|by intros [= <-]].
  specialize (Hfresh n eq_refl).
  destruct (_ && _); [by intros [= <-]|].
  assert (Hout : n ∉ namespace_list st).
  { intros Hin. destruct Hok as (_ & _ & Hlive & _).
    destruct (Hlive n Hin) as (? & ? & _). congruence. }
  assert (Ha : ∀ o, ns_list_ok (set_ns n o st0)).
  { intros o. eapply ns_kept_ok; [|exact Hok0].
    by apply ns_kept_set_unlisted. }
  destruct parent as [p|].
  - destruct (ns_heap st0 !! p) as [po|]; [|done]. simpl.
    repeat case_match; intros Hrun;
      first [ eapply ns_new_fail_ok; [|exact Hrun]; apply Ha
            | eapply ns_new_register_ok; [| | | |exact Hrun];
              [apply Ha|done|done|];
              unfold_st; rewrite lookup_insert_eq; by intros ? [= <-] ].
  - repeat case_match; intros Hrun;
      first [ eapply ns_new_fail_ok; [|exact Hrun]; apply Ha
            | eapply ns_new_register_ok; [| | | |exact Hrun];
              [apply Ha|done|done|];
              unfold_st; rewrite lookup_insert_eq; by intros ? [= <-] ].
Qed.

End NsIds.

(** X7: every operation of the two files keeps the global list in order:
    no namespace is on it twice, every entry is a live namespace that is
    not disconnected, and the ids of the entries are pairwise different
    and below the counter, as long as the allocator hands out unused
    addresses and the 64-bit counter has not run out. *)
Theorem X7_namespace_ids_unique `{ns_config} `{bus_config} o st st' :
  ns_list_ok st →
  allocates_fresh o st →
  kdbus_ns_id_next st + 1 < 2 ^ 64 →
  run_op o st = Some st' →
  ns_list_ok st'.
Proof.
  intros Hok Hfresh Hwrap Hrun. destruct o; simpl in *.
  - eapply ns_kept_ok; [by eapply ns_ref_kept|done].
  - eapply ns_kept_ok; [by eapply ns_unref_kept|done].
  - eapply ns_kept_ok; [by eapply ns_disconnect_kept|done].
  - destruct (kdbus_ns_new _ _ _ _ _) as [r|] eqn:Hr; simplify_eq/=.
    by eapply ns_new_ok.
  - eapply ns_kept_ok; [|done]. by eapply ns_view_kept, bus_ref_view.
  - eapply ns_kept_ok; [|done]. by eapply ns_view_kept, bus_unref_view.
  - eapply ns_kept_ok; [|done]. by eapply ns_view_kept, bus_disconnect_view.
  - destruct (kdbus_bus_new _ _ _ _ _ _ _) as [r|] eqn:Hr; simplify_eq/=.
    eapply ns_kept_ok; [|done]. by eapply ns_view_kept, bus_new_view.
Qed.


(** *** Buses of a namespace *)

(** The bus list of the namespace at [ns] is in order: its counter is not
    negative, no bus is on the list twice, every entry is a live,
    referenced bus of this namespace that is not disconnected, has a name
    and an id below the counter, and no two entries have the same id or
    the same name. *)
Definition bus_list_ok (st : kstate) (ns : Z) : Prop :=
  ∀ n, ns_heap st !! ns = Some n →
    0 ≤ ns_bus_id_next n ∧
    NoDup (ns_bus_list n) ∧
    (∀ b, b ∈ ns_bus_list n →
       ∃ o s, bus_heap st !! b = Some o ∧ bus_ns o = ns ∧
              bus_disconnected o = false ∧
              bus_name o = Some s ∧ is_cstring s ∧
              bus_id o < ns_bus_id_next n ∧ 0 < bus_kref o) ∧
    (∀ b1 b2 o1 o2, b1 ∈ ns_bus_list n → b2 ∈ ns_bus_list n →
       bus_heap st !! b1 = Some o1 → bus_heap st !! b2 = Some o2 →
       bus_id o1 = bus_id o2 ∨ bus_name o1 = bus_name o2 → b1 = b2).

(** A bus of this name is on the list of the namespace at [ns]. *)
Definition bus_listed (st : kstate) (ns : Z) (name : string) : Prop :=
  ∃ n b o, ns_heap st !! ns = Some n ∧ b ∈ ns_bus_list n ∧
           bus_heap st !! b = Some o ∧ bus_name o = Some name.

Lemma bus_find_entry_miss heap name l :
  is_cstring name →
  (∀ b, b ∈ l → ∃ o s, heap !! b = Some o ∧ bus_name o = Some s ∧
                       is_cstring s ∧ s ≠ name) →
  bus_find_entry heap name l = Some None.
Proof.
  intros Hcs. induction l as [|x l IH]; intros Hall; [done|].
  destruct (Hall x) as (o & s & Ho & Hs & Hc & Hne); [by left|].
  simpl. rewrite Ho. simpl. rewrite Hs. simpl.
  rewrite bool_decide_eq_false_2.
  - simpl. apply IH. intros b Hb. apply Hall. by right.
  - intros Heq. apply Hne. by apply strcmp_eq.
Qed.

Lemma bus_find_entry_hit heap name l :
  (∀ b, b ∈ l → ∃ o, heap !! b = Some o ∧ is_Some (bus_name o)) →
  (∃ b o, b ∈ l ∧ heap !! b = Some o ∧ bus_name o = Some name) →
  ∃ b, b ∈ l ∧ bus_find_entry heap name l = Some (Some b).
Proof.
  induction l as [|x l IH]; intros Hall (b & o & Hin & Ho & Hnm).
  - by apply elem_of_nil in Hin.
  - destruct (Hall x) as (ox & Hx & [s Hs]); [by left|].
    simpl. rewrite Hx. simpl. rewrite Hs. simpl.
    destruct (decide (strcmp s name = 0)) as [Hc|Hc].
    + rewrite (bool_decide_eq_true_2 _ Hc). simpl.
      exists x. split; [by left|done].
    + rewrite (bool_decide_eq_false_2 _ Hc). simpl.
      destruct IH as (b' & Hb' & Hfind).
      { intros y Hy. apply Hall. by right. }
      { apply elem_of_cons in Hin as [->|Hin]; [|by eauto].
        simplify_eq. by rewrite strcmp_refl in Hc. }
      exists b'. split; [by right|done].
Qed.

(** A name that begins with the prefix passes the test of the code. *)
Lemma prefix_test_passes uid name :
  has_prefix (uid_prefix uid) name = true →
  strncmp name (uid_prefix uid)
    (Z.to_nat (c_bool (negb (bool_decide (strlen (uid_prefix uid) = 0))))) = 0.
Proof.
  rewrite prefix_check_one_char.
  assert (uid_prefix uid ≠ EmptyString) as Hne.
  { unfold uid_prefix. by destruct (fmt_u uid). }
  destruct (uid_prefix uid) as [|a p], name as [|c s]; simpl; try done.
  intros [Hac _]%andb_prop. apply Ascii.eqb_eq in Hac as ->.
  by rewrite Ascii.eqb_refl.
Qed.

(** Nothing that [kdbus_bus_new] asks for is refused; the bus goes to the
    unused address [b]. *)
Definition bus_env_succeeds (env : bus_env) (st : kstate) (b reg : Z) : Prop :=
  kzalloc_bus env = Some b ∧ bus_heap st !! b = None ∧
  Bus.kstrdup_name env = true ∧
  kdbus_name_registry_new env = Some reg ∧
  0 ≤ kdbus_ep_new env.


(** The bus that a successful [kdbus_bus_new] builds. *)
Definition new_bus (env : bus_env) (ns : Z) (n : kdbus_ns) (kmake : bus_kmake)
    (reg : Z) : kdbus_bus :=
  {| bus_kref := 1; bus_disconnected := false; bus_ns := ns;
     bus_id := ns_bus_id_next n; bus_name := Some (kmake_name kmake);
     bus_flags := kmake_flags kmake;
     bus_bloom_size := kmake_bloom_size kmake;
     bus_cgroup_id := kmake_cgroup_id kmake; bus_conn_id_next := 1;
     bus_name_registry := Some reg;
     bus_ep_list := [kdbus_ep_new_ep env] |}.

(** The namespace behind it: the bus at the tail of the list, the counter
    one further. *)
Definition ns_with_bus (b : Z) (n : kdbus_ns) : kdbus_ns :=
  Ns.with_bus_list (list_add_tail b (ns_bus_list n))
    (Ns.with_bus_id_next (ns_bus_id_next n + 1) n).

Lemma bus_list_ok_add st ns n b o :
  ns_heap st !! ns = Some n → bus_list_ok st ns →
  bus_heap st !! b = None →
  bus_ns o = ns → bus_disconnected o = false → 0 < bus_kref o →
  (∃ s, bus_name o = Some s ∧ is_cstring s ∧ ¬ bus_listed st ns s) →
  bus_id o = ns_bus_id_next n →
  bus_list_ok (set_ns ns (ns_with_bus b n) (set_bus b o st)) ns.
Proof.
  intros Hn Hok Hfresh Hns Hf Hk (s & Hs & Hcs & Hfree) Hid n'. unfold_st.
  rewrite lookup_insert_eq. intros [= <-].
  destruct (Hok n Hn) as (Hpos & Hnd & Hlive & Hinj).
  assert (Hout : b ∉ ns_bus_list n).
  { intros Hin. destruct (Hlive b Hin) as (? & ? & ? & _). congruence. }
  assert (Hnew : ∀ x ox, x ∈ ns_bus_list n → bus_heap st !! x = Some ox →
                 ¬ (bus_id ox = bus_id o ∨ bus_name ox = bus_name o)).
  { intros x ox Hx Hox [Heq|Heq].
    - destruct (Hlive x Hx) as (? & ? & ? & _ & _ & _ & _ & ? & _).
      simplify_eq. lia.
    - apply Hfree. exists n, x, ox. split_and!; try done. congruence. }
  unfold ns_with_bus, list_add_tail. simpl. split_and!.
  - lia.
  - apply NoDup_app. split_and!; [done| |apply NoDup_singleton].
    intros x Hx ->%list_elem_of_singleton. done.
  - intros x [Hx| ->%list_elem_of_singleton]%elem_of_app.
    + destruct (Hlive x Hx) as (ox & sx & ? & ? & ? & ? & ? & ? & ?).
      exists ox, sx. rewrite lookup_insert_ne by set_solver.
      split_and!; try done. lia.
    + exists o, s. rewrite lookup_insert_eq. split_and!; try done. lia.
  - intros b1 b2 o1 o2
      [H1| ->%list_elem_of_singleton]%elem_of_app
      [H2| ->%list_elem_of_singleton]%elem_of_app.
    + rewrite !lookup_insert_ne by set_solver. by apply Hinj.
    + rewrite lookup_insert_eq, lookup_insert_ne by set_solver.
      intros Ho1 [= <-] Heq. by destruct (Hnew b1 o1 H1 Ho1).
    + rewrite lookup_insert_eq, lookup_insert_ne by set_solver.
      intros [= <-] Ho2 Heq. destruct (Hnew b2 o2 H2 Ho2).
      destruct Heq; [left|right]; congruence.
    + done.
Qed.

Lemma bus_list_ok_heaps st st' ns :
  ns_heap st' = ns_heap st → bus_heap st' = bus_heap st →
  bus_list_ok st ns → bus_list_ok st' ns.
Proof. unfold bus_list_ok. by intros -> ->. Qed.

Lemma bus_find_miss st ns n name :
  ns_heap st !! ns = Some n → bus_list_ok st ns →
  is_cstring name → ¬ bus_listed st ns name →
  kdbus_bus_find ns name st = Some (None, st).
Proof.
  intros Hn Hok Hcs Hnone. unfold kdbus_bus_find. rewrite Hn. simpl.
  rewrite bus_find_entry_miss; [done..|].
  destruct (Hok n Hn) as (_ & _ & Hlive & _).
  intros b Hb. destruct (Hlive b Hb) as (o & s & Ho & _ & _ & Hs & Hc & _).
  exists o, s. split_and!; try done.
  intros ->. apply Hnone. by exists n, b, o.
Qed.

Section BusNewProps.
Context `{bus_config}.

Lemma bus_new_creates env ns kmake mode uid gid st n b reg :
  ns_heap st !! ns = Some n →
  bus_list_ok st ns →
  ns_bus_id_next n + 1 < 2 ^ 64 →
  has_prefix (uid_prefix (from_kuid env)) (kmake_name kmake) = true →
  is_cstring (kmake_name kmake) →
  ¬ bus_listed st ns (kmake_name kmake) →
  bus_env_succeeds env st b reg →
  ∃ r msg,
    kdbus_bus_new env ns kmake mode uid gid st = Some r ∧
    br_ret r = 0 ∧ br_bus r = Some b ∧
    bus_heap (br_state r) = <[b := new_bus env ns n kmake reg]> (bus_heap st) ∧
    ns_heap (br_state r) = <[ns := ns_with_bus b n]> (ns_heap st) ∧
    trace (br_state r) = trace st ++
      [EvEpNew b "bus" mode uid gid
         (Z.land (kmake_flags kmake) KDBUS_POLICY_OPEN);
       EvPrInfo msg] ∧
    bus_list_ok (br_state r) ns.
Proof.
  intros Hn Hok Hwrap Hpre Hcs Hfree (Hb & Hfresh & Hdup & Hreg & Hep).
  unfold kdbus_bus_new.
  rewrite prefix_test_passes by done.
  rewrite (bool_decide_eq_true_2 (0 = 0)) by done. cbn [negb].
  rewrite (bus_find_miss st ns n) by done. simpl.
  rewrite Hb, Hdup, Hreg. cbn [negb].
  rewrite bool_decide_eq_false_2 by lia.
  cbn [ns_heap emit set_bus]. rewrite Hn. simpl.
  assert (Hpos : 0 ≤ ns_bus_id_next n) by (by destruct (Hok n Hn)).
  rewrite (u64_small (ns_bus_id_next n + 1)) by lia.
  eexists _, _. split; [done|]. cbn [br_ret br_bus br_state].
  split_and!; try done.
  - unfold_st. by rewrite insert_insert_eq.
  - unfold_st. by rewrite <- (assoc_L (++)).
  - eapply (bus_list_ok_heaps
              (set_ns ns (ns_with_bus b n)
                 (set_bus b (new_bus env ns n kmake reg) st))).
    + done.
    + unfold_st. by rewrite insert_insert_eq.
    + apply (bus_list_ok_add st ns n b); try done. by eexists.
Qed.


(** X8: in a namespace whose bus list is in order, with a name that
    begins with the "<uid>-" prefix and is not taken, and with nothing
    refused, kdbus_bus_new returns 0 and hands back a bus with one
    reference, the flags, bloom size and cgroup id of the command, the
    next connection id 1 and the id taken from the counter of the
    namespace; the bus is put at the tail of the list, the counter is
    advanced, the endpoint "bus" is requested with the policy bit of the
    flags, and the bus list is in order again. *)
Theorem X8_bus_new_creates env ns kmake mode uid gid st n b reg :
  ns_heap st !! ns = Some n →
  bus_list_ok st ns →
  ns_bus_id_next n + 1 < 2 ^ 64 →
  has_prefix (uid_prefix (from_kuid env)) (kmake_name kmake) = true →
  is_cstring (kmake_name kmake) →
  ¬ bus_listed st ns (kmake_name kmake) →
  bus_env_succeeds env st b reg →
  ∃ r msg,
    kdbus_bus_new env ns kmake mode uid gid st = Some r ∧
    br_ret r = 0 ∧ br_bus r = Some b ∧
    bus_heap (br_state r) = <[b := new_bus env ns n kmake reg]> (bus_heap st) ∧
    ns_heap (br_state r) = <[ns := ns_with_bus b n]> (ns_heap st) ∧
    trace (br_state r) = trace st ++
      [EvEpNew b "bus" mode uid gid
         (Z.land (kmake_flags kmake) KDBUS_POLICY_OPEN);
       EvPrInfo msg] ∧
    bus_list_ok (br_state r) ns.
Proof. apply bus_new_creates. Qed.

(** X9: a name that is on the bus list of the namespace is taken:
    kdbus_bus_new returns -EEXIST, hands back no bus and leaves the state
    as it was.  Once the bus of that name is disconnected, the name is on
    the list no more, and the list is still in order. *)
Theorem X9_bus_name_exclusive env ns kmake mode uid gid st n :
  ns_heap st !! ns = Some n →
  bus_list_ok st ns →
  has_prefix (uid_prefix (from_kuid env)) (kmake_name kmake) = true →
  bus_listed st ns (kmake_name kmake) →
  (∃ r, kdbus_bus_new env ns kmake mode uid gid st = Some r ∧
        br_ret r = - EEXIST ∧ br_bus r = None ∧ br_state r = st) ∧
  (∀ b o, b ∈ ns_bus_list n → bus_heap st !! b = Some o →
     bus_name o = Some (kmake_name kmake) →
     ∃ st', kdbus_bus_disconnect b st = Some st' ∧
            bus_list_ok st' ns ∧
            ¬ bus_listed st' ns (kmake_name kmake)).
Proof.
  intros Hn Hok Hpre Hin.
  destruct (Hok n Hn) as (Hpos & Hnd & Hlive & Hinj). split.
  - unfold kdbus_bus_new. rewrite prefix_test_passes by done.
    rewrite (bool_decide_eq_true_2 (0 = 0)) by done. cbn [negb].
    destruct (bus_find_entry_hit (bus_heap st) (kmake_name kmake)
                (ns_bus_list n)) as (f & Hf & Hfind).
    { intros x Hx. destruct (Hlive x Hx) as (ox & sx & ? & _ & _ & ? & _).
      exists ox. split; [done|by eexists]. }
    { destruct Hin as (n0 & b & o & ? & ? & ? & ?). simplify_eq.
      by exists b, o. }
    destruct (Hlive f Hf) as (fo & fs & Hfo & _ & _ & _ & _ & _ & Hk).
    pose proof (bus_ref_unref st f fo Hfo ltac:(lia)) as Hrt.
    unfold kdbus_bus_find. rewrite Hn. simpl. rewrite Hfind. simpl.
    destruct (kdbus_bus_ref f st) as [st1|]; [|done]. simpl in *.
    rewrite Hrt. simpl. by eexists.
  - intros b o Hb Ho Hname.
    destruct (Hlive b Hb) as (o' & s & Ho' & Hns & Hfl & _).
    simplify_eq. unfold kdbus_bus_disconnect. rewrite Ho. simpl.
    rewrite Hfl. cbn [ns_heap set_bus]. rewrite Hn. simpl.
    rewrite (list_del_Some _ _ Hb). simpl.
    cbn [ns_heap set_ns emit]. rewrite lookup_insert_eq. simpl.
    eexists. split; [done|].
    assert (Hlisted : ∀ x, x ∈ list_without b (ns_bus_list n) →
                           x ≠ b ∧ x ∈ ns_bus_list n)
      by (intros x Hx; unfold list_without in Hx;
          by apply list_elem_of_filter in Hx).
    split.
    + intros n'. unfold_st. rewrite lookup_insert_eq. intros [= <-].
      simpl. split_and!.
      * done.
      * by apply NoDup_filter.
      * intros x [Hne Hx]%Hlisted.
        destruct (Hlive x Hx) as (ox & sx & ?).
        exists ox, sx. by rewrite lookup_insert_ne.
      * intros b1 b2 o1 o2 [Hne1 H1]%Hlisted [Hne2 H2]%Hlisted.
        rewrite !lookup_insert_ne by done. by apply Hinj.
    + intros (n' & x & ox & Hn' & Hx & Hox & Hxname). unfold_st.
      rewrite lookup_insert_eq in Hn'. injection Hn' as <-. simpl in Hx.
      apply Hlisted in Hx as [Hne Hx].
      rewrite lookup_insert_ne in Hox by done.
      apply Hne. apply (Hinj x b ox o); try done. right. congruence.
Qed.


(** X11: kdbus_bus_new keeps the pointer to its namespace without taking
    a reference.  When the last reference to the namespace, which is on
    the global list or disconnected already, is dropped after the bus was
    made, the namespace is freed while the bus still points at it, and
    disconnecting or releasing the bus then reads the freed namespace. *)
Theorem X11_bus_does_not_pin_namespace env ns kmake mode uid gid st n b reg :
  ns_heap st !! ns = Some n →
  ns_kref n = 1 →
  ns_disconnected n = true ∨ ns ∈ namespace_list st →
  bus_list_ok st ns →
  ns_bus_id_next n + 1 < 2 ^ 64 →
  has_prefix (uid_prefix (from_kuid env)) (kmake_name kmake) = true →
  is_cstring (kmake_name kmake) →
  ¬ bus_listed st ns (kmake_name kmake) →
  bus_env_succeeds env st b reg →
  ∃ r st2 o,
    kdbus_bus_new env ns kmake mode uid gid st = Some r ∧
    br_ret r = 0 ∧ br_bus r = Some b ∧
    kdbus_ns_unref ns (br_state r) = Some st2 ∧
    ns_heap st2 !! ns = None ∧
    bus_heap st2 !! b = Some o ∧ bus_ns o = ns ∧
    bus_disconnected o = false ∧ bus_kref o = 1 ∧
    kdbus_bus_disconnect b st2 = None ∧
    kdbus_bus_unref b st2 = None.
Proof.
  intros Hn Hk Hlisted Hok Hwrap Hpre Hcs Hfree Henv.
  destruct (bus_new_creates env ns kmake mode uid gid st n b reg)
    as (r & msg & Hrun & Hret & Hbus & Hbh & Hnh & _); [done..|].
  assert (Hl : namespace_list (br_state r) = namespace_list st).
  { pose proof (bus_new_view _ _ _ _ _ _ _ _ Hrun) as Hv.
    unfold ns_view in Hv. by injection Hv. }
  destruct (ns_last_unref (br_state r) ns (ns_with_bus b n))
    as (st2 & Hunref & Hnh2 & Hbh2 & _).
  { by rewrite Hnh, lookup_insert_eq. }
  { done. }
  { simpl. by rewrite Hl. }
  assert (Hgone : ns_heap st2 !! ns = None)
    by (by rewrite Hnh2, lookup_delete_eq).
  assert (Hb2 : bus_heap st2 !! b = Some (new_bus env ns n kmake reg))
    by (by rewrite Hbh2, Hbh, lookup_insert_eq).
  exists r, st2, (new_bus env ns n kmake reg).
  split_and!; try done.
  - unfold kdbus_bus_disconnect. rewrite Hb2. simpl. unfold_st.
    by rewrite Hgone.
  - unfold kdbus_bus_unref. rewrite Hb2. simpl.
    unfold __kdbus_bus_free, kdbus_bus_disconnect. unfold_st.
    rewrite lookup_insert_eq. simpl. rewrite ?lookup_insert_eq. simpl.
    by rewrite Hgone.
Qed.

End BusNewProps.


(** *** Names of child namespaces *)

Lemma ns_find_entry_app heap parent name l1 l2 :
  ns_find_entry heap parent name l1 = Some None →
  ns_find_entry heap parent name (l1 ++ l2)
  = ns_find_entry heap parent name l2.
Proof.
  induction l1 as [|a l1 IH]; [done|]. simpl.
  destruct (heap !! a) as [n|]; [|done]. simpl.
  destruct (negb (bool_decide (ns_parent n = parent))); [done|].
  destruct (ns_name n) as [s1|]; [|done]. simpl.
  destruct name as [s2|]; [|done]. simpl.
  by destruct (negb (bool_decide (strcmp s1 s2 = 0))).
Qed.

Lemma list_without_app_tail a l : a ∉ l → list_without a (l ++ [a]) = l.
Proof.
  intros Ha. unfold list_without. rewrite filter_app, filter_cons_False by auto.
  rewrite filter_nil, app_nil_r.
  induction l as [|x l IH]; [done|].
  rewrite filter_cons_True by set_solver. f_equal. apply IH. set_solver.
Qed.

Lemma ns_disconnect_others a st st' :
  kdbus_ns_disconnect a st = Some st' →
  ∀ x, x ≠ a → ns_heap st' !! x = ns_heap st !! x.
Proof.
  unfold kdbus_ns_disconnect. intros Hrun x Hx.
  destruct (ns_heap st !! a) as [n|]; [|done]. simpl in Hrun.
  destruct (ns_disconnected n); [by simplify_eq|].
  destruct (list_del a (namespace_list st)) as [l|]; [|done].
  simpl in Hrun.
  repeat case_match; simplify_eq; unfold_st;
    by rewrite lookup_insert_ne.
Qed.

Section NsNames.
Context `{ns_config}.

Lemma ns_new_child_creates env p nm mode st n :
  ns_list_wf st → is_cstring nm →
  ns_heap st !! n = None →
  ¬ ns_listed st (Some p) (Some nm) →
  ns_env_succeeds env (Some p) (Some nm) st n →
  ∃ r o, kdbus_ns_new env (Some p) (Some nm) mode st = Some r ∧
         nr_ret r = Some 0 ∧ nr_ns r = Some n ∧
         ns_heap (nr_state r) = <[n := o]> (ns_heap st) ∧
         namespace_list (nr_state r) = namespace_list st ++ [n] ∧
         ns_parent o = Some p ∧ ns_name o = Some nm ∧
         ns_kref o = 1 ∧ ns_disconnected o = false.
Proof.
  intros Hwf Hcs Hfresh Hnone
    (Halloc & Hdup & Hpath & Hchr & Hidr & [dev Hdev] & Hreg & Hparent).
  unfold kdbus_ns_new.
  rewrite (bool_decide_eq_false_2
             ((is_Some (Some p) ∧ Some nm = None)
              ∨ (Some p = None ∧ is_Some (Some nm))))
    by (intros [[_ ?]|[? _]]; done).
  unfold kdbus_ns_find. unfold_st.
  rewrite (ns_find_entry_miss _ (Some p) (Some nm)); [|done|done| |].
  2:{ by intros s [= <-]. }
  2:{ intros a o Ha Ho Hpair. apply Hnone. by exists a, o. }
  simpl. rewrite Halloc.
  rewrite Hdup by (by exists nm). simpl.
  destruct (Hparent p eq_refl) as [po Hpo]. rewrite Hpo. simpl.
  rewrite Hpath. simpl.
  rewrite bool_decide_eq_false_2 by lia.
  unfold ns_new_register. unfold_st. rewrite lookup_insert_eq. simpl.
  rewrite bool_decide_eq_false_2 by lia.
  rewrite Hdev. rewrite bool_decide_eq_false_2 by lia.
  eexists _, _. split; [done|]. simpl.
  rewrite !insert_insert_eq. done.
Qed.

(** X10: the name of a child namespace is taken while the namespace is on
    the global list.  After kdbus_ns_new has made the namespace, another
    kdbus_ns_new with the same parent and name returns -EEXIST and leaves
    the heap and the list as they were; after kdbus_ns_disconnect of the
    namespace no listed namespace has that parent and name. *)
Theorem X10_child_name_exclusive env p nm mode st n :
  ns_list_wf st → is_cstring nm →
  ns_heap st !! n = None →
  ¬ ns_listed st (Some p) (Some nm) →
  ns_env_succeeds env (Some p) (Some nm) st n →
  ∃ r, kdbus_ns_new env (Some p) (Some nm) mode st = Some r ∧
       nr_ret r = Some 0 ∧ nr_ns r = Some n ∧
       ns_listed (nr_state r) (Some p) (Some nm) ∧
       (∀ env' mode',
          ∃ r', kdbus_ns_new env' (Some p) (Some nm) mode' (nr_state r)
                  = Some r' ∧
                nr_ret r' = Some (- EEXIST) ∧ nr_ns r' = None ∧
                ns_heap (nr_state r') = ns_heap (nr_state r) ∧
                namespace_list (nr_state r') = namespace_list (nr_state r)) ∧
       (∃ st2, kdbus_ns_disconnect n (nr_state r) = Some st2 ∧
               namespace_list st2 = namespace_list st ∧
               ¬ ns_listed st2 (Some p) (Some nm)).
Proof.
  intros Hwf Hcs Hfresh Hnone Henv.
  destruct (ns_new_child_creates env p nm mode st n)
    as (r & o & Hrun & Hret & Hns & Hheap & Hlist & Hp & Hnm & Hk & Hf);
    [done..|].
  assert (Hout : n ∉ namespace_list st).
  { intros Hin. destruct (Hwf n Hin) as (? & ? & _). congruence. }
  assert (Hold : ∀ a, a ∈ namespace_list st →
                      ns_heap (nr_state r) !! a = ns_heap st !! a).
  { intros a Ha. rewrite Hheap, lookup_insert_ne; [done|]. set_solver. }
  assert (Hn : ns_heap (nr_state r) !! n = Some o)
    by (by rewrite Hheap, lookup_insert_eq).
  exists r. split_and!; try done.
  - exists n, o. rewrite Hlist. split_and!; try done. set_solver.
  - intros env' mode'. unfold kdbus_ns_new.
    rewrite (bool_decide_eq_false_2
               ((is_Some (Some p) ∧ Some nm = None)
                ∨ (Some p = None ∧ is_Some (Some nm))))
      by (intros [[_ ?]|[? _]]; done).
    set (st1 := emit _ (nr_state r)).
    assert (Hfind : ns_find_entry (ns_heap st1) (Some p) (Some nm)
                      (namespace_list st1) = Some (Some n)).
    { subst st1. cbn [ns_heap namespace_list emit]. rewrite Hlist.
      rewrite ns_find_entry_app.
      - simpl. rewrite Hn. simpl. rewrite Hp, Hnm. simpl.
        rewrite (bool_decide_eq_true_2 (Some p = Some p)) by done. simpl.
        by rewrite strcmp_refl.
      - apply ns_find_entry_miss; [|done|by intros s [= <-]|].
        + intros a Ha. rewrite Hold by done. by apply Hwf.
        + intros a m Ha. rewrite Hold by done. intros Hm Hpair.
          apply Hnone. by exists a, m. }
    unfold kdbus_ns_find. rewrite Hfind. simpl.
    pose proof (ns_ref_unref st1 n o Hn ltac:(lia)) as Hrt.
    destruct (kdbus_ns_ref n st1) as [st1'|]; [|done]. simpl in *.
    rewrite Hrt. simpl. by eexists.
  - destruct (ns_disconnect_first n o (nr_state r) Hn Hf)
      as (st2 & Hd & _ & Hl2 & _).
    { rewrite Hlist. set_solver. }
    rewrite Hlist, list_without_app_tail in Hl2 by done.
    exists st2. split_and!; try done.
    intros (a & m & Ha & Hm & Hpair). rewrite Hl2 in Ha. apply Hnone.
    exists a, m. split; [done|]. split; [|done].
    rewrite <- Hold by done.
    rewrite <- (ns_disconnect_others _ _ _ Hd) by (by intros ->). done.
Qed.

End NsNames.

(** *** The properties at the initial namespace *)

Lemma st_root_heap : ns_heap st_root !! 0x1000 = Some root_ns.
Proof. reflexivity. Defined.

(** X5 at the initial namespace. *)
Lemma X5_ref_unref_round_trip_witness :
  kdbus_ns_ref 0x1000 st_root ≫= kdbus_ns_unref 0x1000 = Some st_root.
Proof.
  apply (proj1 X5_ref_unref_round_trip st_root 0x1000 root_ns).
  - exact st_root_heap.
  - discriminate.
Defined.

(** X6 at the initial namespace, which holds one reference and is on the
    global list. *)
Lemma X6_last_unref_frees_witness :
  ∃ st', kdbus_ns_unref 0x1000 st_root = Some st' ∧
    ns_heap st' = delete 0x1000 (ns_heap st_root) ∧
    bus_heap st' = bus_heap st_root ∧
    namespace_list st' = [] ∧
    trace st' = trace st_root ++
      [EvDeviceUnregister 0x2000; EvIdrRemove 222; EvUnregisterChrdev 222;
       EvPrInfo "closing namespace kdbus"] ++
      [EvPrInfo "clean up namespace kdbus"; EvKfreeNs 0x1000].
Proof.
  refine (proj1 (proj1 X6_last_unref_frees st_root 0x1000 root_ns
                   st_root_heap eq_refl) (or_intror _)).
  apply list_elem_of_singleton. reflexivity.
Defined.

Lemma st_empty_list_ok : ns_list_ok st_empty.
Proof.
  unfold ns_list_ok. simpl. split_and!.
  - lia.
  - apply NoDup_nil_2.
  - intros a Ha. by apply elem_of_nil in Ha.
  - intros a1 a2 n1 n2 Ha. by apply elem_of_nil in Ha.
Defined.

(** X7 at the creation of the initial namespace. *)
Lemma X7_namespace_ids_unique_witness : ns_list_ok st_root.
Proof.
  apply (@X7_namespace_ids_unique sample_ns_config sample_bus_config
           (NsNew (ns_env_ok 0x1000 0x2000 222 true) None None 438)
           st_empty st_root).
  - exact st_empty_list_ok.
  - intros n Hn. reflexivity.
  - simpl. lia.
  - vm_compute. reflexivity.
Defined.

Lemma st_root_bus_list_ok : bus_list_ok st_root 0x1000.
Proof.
  intros n Hn. rewrite st_root_heap in Hn. injection Hn as <-. simpl.
  split_and!.
  - lia.
  - apply NoDup_nil_2.
  - intros b Hb. by apply elem_of_nil in Hb.
  - intros b1 b2 o1 o2 Hb. by apply elem_of_nil in Hb.
Defined.

Lemma st_root_no_bus name : ¬ bus_listed st_root 0x1000 name.
Proof.
  intros (n & b & o & Hn & Hb & _). rewrite st_root_heap in Hn.
  injection Hn as <-. by apply elem_of_nil in Hb.
Defined.

Lemma bus_env_ok_succeeds : bus_env_succeeds bus_env_ok st_root 0x5000 0x6000.
Proof. unfold bus_env_succeeds. simpl. split_and!; try done. Defined.

(** The bus "1000-test" of the caller with uid 1000. *)
Definition test_bus : kdbus_bus :=
  new_bus bus_env_ok 0x1000 root_ns (kmake_named "1000-test") 0x6000.

(** X8 at the first bus of the initial namespace. *)
Lemma X8_bus_new_creates_witness :
  ∃ r msg,
    @kdbus_bus_new sample_bus_config bus_env_ok 0x1000
      (kmake_named "1000-test") 438 1000 1000 st_root = Some r ∧
    br_ret r = 0 ∧ br_bus r = Some 0x5000 ∧
    bus_heap (br_state r) = <[0x5000 := test_bus]> (bus_heap st_root) ∧
    ns_heap (br_state r)
      = <[0x1000 := ns_with_bus 0x5000 root_ns]> (ns_heap st_root) ∧
    trace (br_state r) = trace st_root ++
      [EvEpNew 0x5000 "bus" 438 1000 1000 0; EvPrInfo msg] ∧
    bus_list_ok (br_state r) 0x1000.
Proof.
  apply (@X8_bus_new_creates sample_bus_config bus_env_ok 0x1000
           (kmake_named "1000-test") 438 1000 1000 st_root root_ns
           0x5000 0x6000).
  - exact st_root_heap.
  - exact st_root_bus_list_ok.
  - simpl. lia.
  - reflexivity.
  - exact I.
  - apply st_root_no_bus.
  - exact bus_env_ok_succeeds.
Defined.


Lemma st_bus_ns :
  ns_heap st_bus !! 0x1000 = Some (ns_with_bus 0x5000 root_ns).
Proof. vm_compute. reflexivity. Defined.

Lemma st_bus_bus : bus_heap st_bus !! 0x5000 = Some test_bus.
Proof. vm_compute. reflexivity. Defined.

Lemma st_bus_list_ok : bus_list_ok st_bus 0x1000.
Proof.
  destruct (@bus_new_creates sample_bus_config bus_env_ok 0x1000
              (kmake_named "1000-test") 438 1000 1000 st_root root_ns
              0x5000 0x6000)
    as (r & msg & Hrun & _ & _ & _ & _ & _ & Hok).
  - exact st_root_heap.
  - exact st_root_bus_list_ok.
  - simpl. lia.
  - reflexivity.
  - exact I.
  - apply st_root_no_bus.
  - exact bus_env_ok_succeeds.
  - unfold st_bus. rewrite Hrun. exact Hok.
Defined.

(** X9 at a second bus "1000-test" in the initial namespace. *)
Lemma X9_bus_name_exclusive_witness :
  (∃ r, @kdbus_bus_new sample_bus_config bus_env_ok 0x1000
          (kmake_named "1000-test") 438 1000 1000 st_bus = Some r ∧
        br_ret r = - EEXIST ∧ br_bus r = None ∧ br_state r = st_bus) ∧
  (∃ st', kdbus_bus_disconnect 0x5000 st_bus = Some st' ∧
          bus_list_ok st' 0x1000 ∧
          ¬ bus_listed st' 0x1000 "1000-test").
Proof.
  assert (Hin : 0x5000 ∈ ns_bus_list (ns_with_bus 0x5000 root_ns)).
  { apply list_elem_of_singleton. reflexivity. }
  assert (Hlisted : bus_listed st_bus 0x1000 "1000-test").
  { exists (ns_with_bus 0x5000 root_ns), 0x5000, test_bus.
    split_and!; [exact st_bus_ns|exact Hin|exact st_bus_bus|reflexivity]. }
  exact (let Hx := @X9_bus_name_exclusive sample_bus_config bus_env_ok
                     0x1000 (kmake_named "1000-test") 438 1000 1000 st_bus
                     (ns_with_bus 0x5000 root_ns) st_bus_ns st_bus_list_ok
                     eq_refl Hlisted in
         conj (proj1 Hx) (proj2 Hx 0x5000 test_bus Hin st_bus_bus eq_refl)).
Defined.

(** X11 at the same bus: the initial namespace holds one reference. *)
Lemma X11_bus_does_not_pin_namespace_witness :
  ∃ r st2 o,
    @kdbus_bus_new sample_bus_config bus_env_ok 0x1000
      (kmake_named "1000-test") 438 1000 1000 st_root = Some r ∧
    br_ret r = 0 ∧ br_bus r = Some 0x5000 ∧
    kdbus_ns_unref 0x1000 (br_state r) = Some st2 ∧
    ns_heap st2 !! 0x1000 = None ∧
    bus_heap st2 !! 0x5000 = Some o ∧ bus_ns o = 0x1000 ∧
    bus_disconnected o = false ∧ bus_kref o = 1 ∧
    kdbus_bus_disconnect 0x5000 st2 = None ∧
    kdbus_bus_unref 0x5000 st2 = None.
Proof.
  apply (@X11_bus_does_not_pin_namespace sample_bus_config bus_env_ok 0x1000
           (kmake_named "1000-test") 438 1000 1000 st_root root_ns
           0x5000 0x6000).
  - exact st_root_heap.
  - reflexivity.
  - right. apply list_elem_of_singleton. reflexivity.
  - exact st_root_bus_list_ok.
  - simpl. lia.
  - reflexivity.
  - exact I.
  - apply st_root_no_bus.
  - exact bus_env_ok_succeeds.
Defined.

Lemma st_root_wf : ns_list_wf st_root.
Proof.
  intros a Ha. change (a ∈ [0x1000]) in Ha.
  apply list_elem_of_singleton in Ha as ->.
  exists root_ns. split; [exact st_root_heap|]. simpl. split.
  - split; intros [x Hx]; discriminate Hx.
  - intros s Hs. discriminate Hs.
Defined.

(** X10 at the child namespace "a" of the initial namespace. *)
Lemma X10_child_name_exclusive_witness :
  ∃ r, @kdbus_ns_new sample_ns_config (ns_env_ok 0x3000 0x4000 250 false)
         (Some 0x1000) (Some "a"%string) 438 st_root = Some r ∧
       nr_ret r = Some 0 ∧ nr_ns r = Some 0x3000 ∧
       ns_listed (nr_state r) (Some 0x1000) (Some "a"%string) ∧
       (∀ env' mode',
          ∃ r', @kdbus_ns_new sample_ns_config env' (Some 0x1000)
                  (Some "a"%string) mode' (nr_state r) = Some r' ∧
                nr_ret r' = Some (- EEXIST) ∧ nr_ns r' = None ∧
                ns_heap (nr_state r') = ns_heap (nr_state r) ∧
                namespace_list (nr_state r') = namespace_list (nr_state r)) ∧
       (∃ st2, kdbus_ns_disconnect 0x3000 (nr_state r) = Some st2 ∧
               namespace_list st2 = namespace_list st_root ∧
               ¬ ns_listed st2 (Some 0x1000) (Some "a"%string)).
Proof.
  apply (@X10_child_name_exclusive sample_ns_config
           (ns_env_ok 0x3000 0x4000 250 false) 0x1000 "a" 438 st_root 0x3000).
  - exact st_root_wf.
  - exact I.
  - reflexivity.
  - intros (a & n & Ha & Hn & Hp & _). change (a ∈ [0x1000]) in Ha.
    apply list_elem_of_singleton in Ha as ->.
    rewrite st_root_heap in Hn. injection Hn as <-. discriminate Hp.
  - unfold ns_env_succeeds. simpl. split_and!; try done; try lia.
    intros p [= <-]. exists root_ns. exact st_root_heap.
Defined.

End GraphProps.

(** ** The metadata buffer: failures, contents, capacity and bounds *)
Module BufferProps.
Import Meta MetaSpec.

Lemma mask_within which which' attached mask :
  Z.land which' (Z.lnot which) = 0 →
  mask = Z.land which (Z.lnot attached) →
  Z.land which' (Z.lnot (Z.lor attached mask)) = 0.
Proof.
  intros Hsub ->. apply Z.bits_inj'. intros n Hn.
  apply (f_equal (λ z, Z.testbit z n)) in Hsub.
  rewrite Z.land_spec, Z.lnot_spec, Z.bits_0 in Hsub by lia.
  rewrite Z.land_spec, Z.lnot_spec, Z.lor_spec, Z.land_spec, Z.lnot_spec,
    Z.bits_0 by lia.
  by destruct (Z.testbit which n), (Z.testbit which' n),
    (Z.testbit attached n).
Qed.

(** The size that an item of [payload] bytes takes in the buffer. *)
Lemma item_size_bounds payload :
  0 ≤ payload < 2 ^ 62 →
  KDBUS_ITEM_SIZE payload = KDBUS_ALIGN8 (payload + 16) ∧
  payload + 16 ≤ KDBUS_ITEM_SIZE payload < payload + 24 ∧
  KDBUS_ITEM_SIZE payload mod 8 = 0.
Proof.
  intros Hp. unfold KDBUS_ITEM_SIZE, KDBUS_ITEM_HEADER_SIZE.
  rewrite (u64_small (payload + 16)) by lia.
  pose proof (align8_ge (payload + 16)) as (? & ? & ?);
    [unfold KDBUS_ITEM_HEADER_SIZE; lia..|]. split_and!; [done|lia..|done].
Qed.

Lemma roundup_pow_of_two_spec n :
  1 < n ≤ 2 ^ 63 →
  roundup_pow_of_two n = 2 ^ Z.log2_up n ∧
  n ≤ roundup_pow_of_two n < 2 * n.
Proof.
  intros Hn. unfold roundup_pow_of_two.
  pose proof (Z.log2_up_spec n ltac:(lia)) as [Hlo Hhi].
  assert (0 < Z.log2_up n) by (apply Z.log2_up_pos; lia).
  assert (2 ^ Z.log2_up n = 2 * 2 ^ Z.pred (Z.log2_up n)) as Hdbl.
  { rewrite <- Z.pow_succ_r by lia. f_equal. lia. }
  rewrite u64_small by lia. lia.
Qed.

(** How the first block of [kdbus_meta_append_item] ends. *)
Lemma first_alloc_cases extra w m ok w' m' its :
  holds m its → 0 ≤ extra < 2 ^ 62 + 24 →
  meta_first_alloc extra (w, m) = Some (ok, (w', m')) →
  (ok = false ∧ meta_data m = None ∧ m' = m) ∨
  (ok = true ∧ is_Some (meta_data m) ∧ m' = m ∧ w' = w) ∨
  (ok = true ∧ meta_data m = None ∧ meta_size m' = 0 ∧
   meta_allocated_size m' = roundup_pow_of_two (256 + extra) ∧
   meta_data m'
     = Some (replicate (Z.to_nat (roundup_pow_of_two (256 + extra))) 0)).
Proof.
  intros (Hsz & Hal & Hmax & Hdata) Hex. unfold meta_first_alloc, kzalloc.
  run_M. rewrite (u64_small (256 + extra)) by lia.
  destruct (meta_data m) as [buf|] eqn:Hd.
  - intros [= <- <- <-]. right. left. eauto.
  - destruct Hdata as (Hs0 & Ha0 & ->).
    destruct w as [|[g|] w0]; simpl; try (intros [= <- <- <-]; by left).
    case_bool_decide as Hfit; simpl; [|intros [= <- <- <-]; by left].
    intros [= <- <- <-]. right. right. simpl. by rewrite Hs0.
Qed.

(** The second block does nothing when the item fits. *)
Lemma grow_fits extra w m :
  0 ≤ meta_size m + extra < 2 ^ 64 →
  meta_size m + extra ≤ meta_allocated_size m →
  meta_grow extra (w, m) = Some (true, (w, m)).
Proof.
  intros Hr Hfit. unfold meta_grow. run_M.
  rewrite u64_small by done. by rewrite bool_decide_eq_false_2 by lia.
Qed.

(** X13: kdbus_meta_append_item and kdbus_meta_append_data fail with
    -ENOMEM only, and then leave the metadata object exactly as it was:
    the old buffer, its size and its allocated size are still in place. *)
Theorem X13_failed_item_leaves_object :
  (∀ type payload w m its err w' m',
     holds m its → 0 ≤ payload < 2 ^ 62 →
     kdbus_meta_append_item type payload (w, m) = Some (inl err, (w', m')) →
     err = - ENOMEM ∧ m' = m) ∧
  (∀ type data len w m its ret w' m',
     holds m its → 0 ≤ len < 2 ^ 62 →
     kdbus_meta_append_data type data len (w, m) = Some (ret, (w', m')) →
     ret < 0 →
     ret = - ENOMEM ∧ m' = m).
Proof.
  assert (Hitem : ∀ type payload w m its err w' m',
     holds m its → 0 ≤ payload < 2 ^ 62 →
     kdbus_meta_append_item type payload (w, m) = Some (inl err, (w', m')) →
     err = - ENOMEM ∧ m' = m).
  { intros type payload w m its err w' m' Hm Hp.
    unfold kdbus_meta_append_item.
    set (extra := KDBUS_ITEM_SIZE payload).
    pose proof (item_size_bounds payload Hp) as (_ & Hextra & _).
    fold extra in Hextra.
    assert (Hex : 0 ≤ extra < 2 ^ 62 + 24) by lia.
    unfold mbind at 1, M_bind at 1.
    destruct (meta_first_alloc extra (w, m)) as [[ok1 [w1 m1]]|] eqn:H1;
      [|done].
    destruct (first_alloc_spec _ _ _ _ _ _ _ Hm H1) as [_ Hr1].
    destruct (first_alloc_cases _ _ _ _ _ _ _ Hm Hex H1)
      as [(-> & _ & ->)|[(-> & Hd & -> & ->)|(-> & Hd & Hs1 & Ha1 & _)]];
      simpl.
    - by intros [= <- <- <-].
    - unfold mbind at 1, M_bind at 1.
      destruct (meta_grow extra (w, m)) as [[ok2 [w2 m2]]|] eqn:H2; [|done].
      destruct (grow_spec _ _ _ _ _ _ _ Hm Hd Hex H2) as [_ Hr2].
      destruct ok2; simpl.
      + unfold mbind at 1, M_bind at 1.
        by destruct (meta_insert type payload extra (w2, m2)) as [[? [??]]|].
      + intros [= <- <- <-]. by subst m2.
    - destruct Hr1 as (Hm1 & _ & _).
      destruct (roundup_pow_of_two_spec (256 + extra)) as (_ & Hge & _);
        [lia|].
      unfold mbind at 1, M_bind at 1.
      rewrite grow_fits by lia. simpl.
      unfold mbind at 1, M_bind at 1.
      by destruct (meta_insert type payload extra (w1, m1)) as [[? [??]]|]. }
  split; [exact Hitem|].
  intros type data len w m its ret w' m' Hm Hlen.
  unfold kdbus_meta_append_data.
  case_bool_decide; [intros [= <- <- <-]; lia|].
  unfold mbind at 1, M_bind at 1.
  destruct (kdbus_meta_append_item type len (w, m)) as [[r [w1 m1]]|] eqn:H1;
    [|done].
  destruct r as [err|item].
  - intros [= <- <- <-] _. by eapply Hitem.
  - destruct data as [d|]; run_M.
    + destruct (slice 0 len d); [|done]. simpl.
      destruct (item_store item 0 _ (w1, m1)) as [[[] [??]]|]; [|done].
      intros [= <- <- <-]. lia.
    + intros [= <- <- <-]. lia.
Qed.

(** How the second block ends. *)
Lemma grow_cases extra w m ok w' m' its :
  holds m its → is_Some (meta_data m) → 0 ≤ extra < 2 ^ 62 + 24 →
  meta_grow extra (w, m) = Some (ok, (w', m')) →
  (ok = false ∧ m' = m) ∨
  (ok = true ∧ meta_size m + extra ≤ meta_allocated_size m ∧ m' = m) ∨
  (ok = true ∧ meta_allocated_size m < meta_size m + extra ∧
   meta_allocated_size m' = roundup_pow_of_two (meta_size m + extra) ∧
   is_Some (meta_data m')).
Proof.
  intros (Hsz & Hal & Hmax & Hdata) [buf Hd] Hex.
  assert (Hkm : KMALLOC_MAX_SIZE = 2 ^ 22) by done.
  unfold meta_grow, kmalloc. run_M.
  rewrite (u64_small (meta_size m + extra)) by lia.
  case_bool_decide as Hgrow.
  2:{ intros [= <- <- <-]. right. left. split_and!; [done|lia|done]. }
  destruct w as [|[g|] w0]; simpl; try (intros [= <- <- <-]; by left).
  case_bool_decide as Hfit; simpl; [|intros [= <- <- <-]; by left].
  rewrite Hd. simpl.
  destruct (slice 0 (meta_size m) buf) as [bytes|]; [|done]. simpl.
  destruct (store 0 bytes _) as [d1|]; [|done]. simpl.
  destruct (store (meta_allocated_size m) _ d1) as [d2|]; [|done]. simpl.
  intros [= <- <- <-]. right. right. simpl. split_and!; [done|lia|done|by eexists].
Qed.

Lemma insert_keeps_capacity type payload extra w m item w' m' :
  meta_insert type payload extra (w, m) = Some (item, (w', m')) →
  meta_allocated_size m' = meta_allocated_size m ∧ is_Some (meta_data m') ∧
  meta_size m' = u64 (meta_size m + extra).
Proof.
  unfold meta_insert, meta_store. run_M.
  destruct (meta_data m) as [buf|]; [|done]. simpl.
  destruct (store _ _ buf) as [b1|]; [|done]. simpl.
  destruct (store _ _ b1) as [b2|]; [|done]. simpl.
  intros [= <- <- <-]. simpl. split_and!; [done|by eexists|done].
Qed.

(** The capacity of the buffer: none without a buffer, else a power of
    two of at least 512 bytes. *)
Definition cap_ok (m : kdbus_meta) : Prop :=
  match meta_data m with
  | None => meta_allocated_size m = 0
  | Some _ => ∃ k, 9 ≤ k ∧ meta_allocated_size m = 2 ^ k
  end.

Lemma roundup_pow_of_two_cap n :
  256 < n ≤ 2 ^ 63 → ∃ k, 9 ≤ k ∧ roundup_pow_of_two n = 2 ^ k.
Proof.
  intros Hn. exists (Z.log2_up n).
  destruct (roundup_pow_of_two_spec n) as (-> & _); [lia|].
  split; [|done].
  assert (8 < Z.log2_up n); [|lia].
  apply Z.log2_up_lt_pow2; lia.
Qed.

(** X14: kdbus_meta_append_item keeps the capacity of the buffer a power
    of two of at least 512 bytes; the capacity never shrinks, and it does
    not grow beyond twice the 256 bytes of headroom plus the bytes in
    use and the new item. *)
Theorem X14_capacity_power_of_two type payload w m its r w' m' :
  holds m its → cap_ok m → 0 ≤ payload < 2 ^ 62 →
  kdbus_meta_append_item type payload (w, m) = Some (r, (w', m')) →
  cap_ok m' ∧
  meta_allocated_size m ≤ meta_allocated_size m' ∧
  meta_allocated_size m' ≤
    Z.max (meta_allocated_size m)
          (2 * (256 + meta_size m + KDBUS_ITEM_SIZE payload)) ∧
  (∀ item, r = inr item →
     512 ≤ meta_allocated_size m' ∧
     meta_size m' = meta_size m + KDBUS_ITEM_SIZE payload ∧
     meta_size m' ≤ meta_allocated_size m').
Proof.
  intros Hm Hcap Hp. unfold kdbus_meta_append_item.
  set (extra := KDBUS_ITEM_SIZE payload).
  pose proof (item_size_bounds payload Hp) as (_ & Hextra & _).
  fold extra in Hextra.
  assert (Hex : 0 ≤ extra < 2 ^ 62 + 24) by lia.
  pose proof Hm as (Hsz & _ & Hmax & Hdata).
  assert (Hkm : KMALLOC_MAX_SIZE = 2 ^ 22) by done.
  set (top := Z.max (meta_allocated_size m) (2 * (256 + meta_size m + extra))).
  assert (Hfail : ∀ err : Z,
            cap_ok m ∧ meta_allocated_size m ≤ meta_allocated_size m ∧
            meta_allocated_size m ≤ top ∧
            (∀ item, @inl Z Z err = inr item →
               512 ≤ meta_allocated_size m ∧
               meta_size m = meta_size m + extra ∧
               meta_size m ≤ meta_allocated_size m))
    by (intros err; split_and!; [done|lia|lia|done]).
  assert (Hfin : ∀ w2 m2,
            cap_ok m2 → is_Some (meta_data m2) →
            meta_allocated_size m ≤ meta_allocated_size m2 ≤ top →
            meta_size m2 = meta_size m →
            meta_size m2 + extra ≤ meta_allocated_size m2 →
            (meta_insert type payload extra ≫= λ item, mret (inr item))
              (w2, m2) = Some (r, (w', m')) →
            cap_ok m' ∧ meta_allocated_size m ≤ meta_allocated_size m' ∧
            meta_allocated_size m' ≤ top ∧
            (∀ item, r = inr item →
               512 ≤ meta_allocated_size m' ∧
               meta_size m' = meta_size m + extra ∧
               meta_size m' ≤ meta_allocated_size m')).
  { intros w2 m2 Hc2 [b2 Hb2] Ha2 Hs2 Hfit.
    unfold mbind at 1, M_bind at 1.
    destruct (meta_insert type payload extra (w2, m2)) as [[item [w3 m3]]|]
      eqn:H3; [|done].
    destruct (insert_keeps_capacity _ _ _ _ _ _ _ _ H3)
      as (Ha3 & [b3 Hd3] & Hs3).
    rewrite u64_small in Hs3 by lia.
    intros [= <- <- <-]. unfold cap_ok in *. rewrite Hd3, Ha3.
    rewrite Hb2 in Hc2. destruct Hc2 as (k & Hk & Hak).
    assert (2 ^ 9 ≤ 2 ^ k) by (apply Z.pow_le_mono_r; lia).
    split_and!; [by exists k|lia|lia|]. intros ? _. lia. }
  unfold mbind at 1, M_bind at 1.
  destruct (meta_first_alloc extra (w, m)) as [[ok1 [w1 m1]]|] eqn:H1;
    [|done].
  destruct (first_alloc_spec _ _ _ _ _ _ _ Hm H1) as [_ Hr1].
  destruct (first_alloc_cases _ _ _ _ _ _ _ Hm Hex H1)
    as [(-> & _ & ->)|[(-> & Hd & -> & ->)|(-> & Hd & Hs1 & Ha1 & Hd1)]];
    simpl.
  - intros [= <- <- <-]. apply Hfail.
  - unfold mbind at 1, M_bind at 1.
    destruct (meta_grow extra (w, m)) as [[ok2 [w2 m2]]|] eqn:H2; [|done].
    destruct (grow_spec _ _ _ _ _ _ _ Hm Hd Hex H2) as [_ Hr2].
    destruct (grow_cases _ _ _ _ _ _ _ Hm Hd Hex H2)
      as [(-> & ->)|[(-> & Hfit & ->)|(-> & Hgrow & Ha2 & Hd2)]]; simpl.
    + intros [= <- <- <-]. apply Hfail.
    + apply Hfin; try done. lia.
    + destruct Hr2 as (Hm2 & _ & Hs2 & Hroom).
      destruct (roundup_pow_of_two_spec (meta_size m + extra))
        as (_ & Hge & Hlt); [lia|].
      destruct (roundup_pow_of_two_cap (meta_size m + extra)) as (k & Hk & Hpk).
      { destruct Hd as [b0 Hb0]. unfold cap_ok in Hcap. rewrite Hb0 in Hcap.
        destruct Hcap as (k0 & Hk0 & Hak0).
        assert (2 ^ 9 ≤ 2 ^ k0) by (apply Z.pow_le_mono_r; lia). lia. }
      apply Hfin; try done; try lia.
      unfold cap_ok. destruct Hd2 as [b2 ->]. exists k. split; [done|lia].
  - destruct Hr1 as (Hm1 & _ & _).
    destruct (roundup_pow_of_two_spec (256 + extra)) as (_ & Hge & Hlt);
      [lia|].
    destruct (roundup_pow_of_two_cap (256 + extra)) as (k & Hk & Hpk); [lia|].
    rewrite Hd in Hdata. destruct Hdata as (Hs0 & Ha0 & _).
    unfold mbind at 1, M_bind at 1.
    rewrite grow_fits by lia. simpl.
    apply Hfin; try done; try lia.
    unfold cap_ok. rewrite Hd1. exists k. split; [done|lia].
Qed.

(** *** The bytes of the buffer *)

Lemma agree_refl lo hi buf : agree lo hi buf buf.
Proof. by intros i _. Qed.

Lemma lookup_resize_default (n i : nat) (g : list Z) :
  (i < n)%nat → resize n 0 g !! i = Some (default 0 (g !! i)).
Proof.
  intros Hi. destruct (decide (i < length g)%nat) as [Hg|Hg].
  - rewrite lookup_resize by lia.
    destruct (lookup_lt_is_Some_2 g i Hg) as [x Hx]. by rewrite Hx.
  - rewrite lookup_resize_new by lia.
    by rewrite (lookup_ge_None_2 g i) by lia.
Qed.

Lemma slice_store off bs buf buf' :
  store off bs buf = Some buf' →
  slice off (Z.of_nat (length bs)) buf' = Some bs.
Proof.
  intros Hst. pose proof (length_store _ _ _ _ Hst) as Hlen.
  apply store_Some in Hst as (? & Hin & ->).
  unfold slice. rewrite bool_decide_eq_true_2 by lia. f_equal.
  unfold blit. rewrite drop_app_length' by (rewrite length_take; lia).
  rewrite Nat2Z.id. by rewrite take_app_length.
Qed.

(** The buffer behind a growth: the bytes in use are copied, and the
    bytes from there up to the old capacity are those of the object that
    kmalloc handed out. *)
Lemma grow_bytes extra g w0 m w' m' its buf :
  holds m its → meta_data m = Some buf → 0 ≤ extra < 2 ^ 62 + 24 →
  meta_allocated_size m < meta_size m + extra →
  meta_grow extra (Some g :: w0, m) = Some (true, (w', m')) →
  ∃ buf', meta_data m' = Some buf' ∧ w' = w0 ∧
    agree 0 (meta_size m) buf buf' ∧
    ∀ i : nat, meta_size m ≤ Z.of_nat i < meta_allocated_size m →
      buf' !! i = Some (default 0 (g !! i)).
Proof.
  intros (Hsz & Hal & Hmax & Hdata) Hd Hex Hgrow.
  rewrite Hd in Hdata. destruct Hdata as [Hlen Hits].
  assert (Hkm : KMALLOC_MAX_SIZE = 2 ^ 22) by done.
  unfold meta_grow, kmalloc. run_M.
  rewrite (u64_small (meta_size m + extra)) by lia.
  rewrite bool_decide_eq_true_2 by lia.
  set (size := roundup_pow_of_two _) in *.
  destruct (roundup_pow_of_two_ge (meta_size m + extra)) as [Hge Hle];
    [lia|]. fold size in Hge, Hle.
  simpl. case_bool_decide as Hfit; simpl; [|done].
  rewrite Hd. simpl.
  destruct (slice 0 (meta_size m) buf) as [bytes|] eqn:Hbytes; [|done].
  simpl. destruct (store 0 bytes _) as [d1|] eqn:Hd1; [|done]. simpl.
  destruct (store (meta_allocated_size m) _ d1) as [d2|] eqn:Hd2; [|done].
  simpl. intros [= <- <-]. exists d2. simpl. split_and!; [done..| |].
  - intros i Hi.
    rewrite (store_agree_below _ _ _ _ Hd2 i) by lia.
    pose proof (length_slice _ _ _ _ Hbytes) as Hbl.
    pose proof (store_agree_in _ _ _ _ Hd1 i ltac:(lia)) as Hin.
    simpl in Hin. rewrite Hin.
    apply slice_Some in Hbytes as (_ & _ & _ & ->).
    rewrite lookup_take_lt by lia. by rewrite lookup_drop.
  - intros i Hi.
    rewrite (store_agree_below _ _ _ _ Hd2 i) by lia.
    pose proof (length_slice _ _ _ _ Hbytes) as Hbl.
    pose proof (store_agree_above _ _ _ _ Hd1 i) as Hab.
    rewrite length_resize in Hab. rewrite Hab by lia.
    apply lookup_resize_default. lia.
Qed.

(** The second block keeps the bytes in use. *)
Lemma grow_agree extra w m w' m' its buf :
  holds m its → meta_data m = Some buf → 0 ≤ extra < 2 ^ 62 + 24 →
  meta_grow extra (w, m) = Some (true, (w', m')) →
  ∃ buf', meta_data m' = Some buf' ∧ agree 0 (meta_size m) buf buf'.
Proof.
  intros Hm Hd Hex Hrun.
  destruct (grow_cases _ _ _ _ _ _ _ Hm ltac:(by eexists) Hex Hrun)
    as [(? & _)|[(_ & _ & ->)|(_ & Hgrow & _)]]; [done| |].
  - exists buf. split; [done|apply agree_refl].
  - assert (∃ g w0, w = Some g :: w0) as (g & w0 & ->).
    { revert Hrun. unfold meta_grow, kmalloc. run_M.
      destruct Hm as (? & _ & ? & _).
      assert (Hkm : KMALLOC_MAX_SIZE = 2 ^ 22) by done.
      rewrite (u64_small (meta_size m + extra)) by lia.
      rewrite bool_decide_eq_true_2 by lia.
      destruct w as [|[g|] w0]; simpl; [done|by eauto|done]. }
    destruct (grow_bytes _ _ _ _ _ _ _ _ Hm Hd Hex Hgrow Hrun)
      as (buf' & ? & _ & ? & _).
    by exists buf'.
Qed.

(** The third block writes the 16 bytes of the header and nothing else. *)
Lemma insert_bytes type payload extra w m item w' m' buf :
  meta_data m = Some buf → 0 ≤ meta_size m → 0 ≤ payload < 2 ^ 62 →
  meta_insert type payload extra (w, m) = Some (item, (w', m')) →
  ∃ buf', meta_data m' = Some buf' ∧ item = meta_size m ∧ w' = w ∧
    length buf' = length buf ∧
    agree 0 (meta_size m) buf buf' ∧
    agree (meta_size m + 16) (Z.of_nat (length buf)) buf buf' ∧
    get_u64 item buf' = Some (KDBUS_ITEM_HEADER_SIZE + payload) ∧
    get_u64 (item + 8) buf' = Some (u64 type).
Proof.
  intros Hd Hs Hp. unfold meta_insert, meta_store. run_M. rewrite Hd. simpl.
  destruct (store (meta_size m + 8) _ buf) as [b1|] eqn:Hb1; [|done]. simpl.
  destruct (store (meta_size m) _ b1) as [b2|] eqn:Hb2; [|done]. simpl.
  intros [= <- <- <-]. exists b2. simpl.
  pose proof (length_store _ _ _ _ Hb1) as Hl1.
  pose proof (length_store _ _ _ _ Hb2) as Hl2.
  pose proof (store_Some _ _ _ _ Hb1) as (_ & Hin1 & _).
  rewrite length_le_encode in Hin1.
  split_and!; try done.
  - congruence.
  - intros i Hi.
    rewrite (store_agree_below _ _ _ _ Hb2 i) by lia.
    apply (store_agree_below _ _ _ _ Hb1 i). lia.
  - intros i Hi.
    pose proof (store_agree_above _ _ _ _ Hb2 i) as Ha2.
    rewrite length_le_encode in Ha2. rewrite Ha2 by lia.
    pose proof (store_agree_above _ _ _ _ Hb1 i) as Ha1.
    rewrite length_le_encode in Ha1. apply Ha1. lia.
  - rewrite (get_u64_store _ _ _ _ Hb2). f_equal.
    unfold KDBUS_ITEM_HEADER_SIZE.
    rewrite (u64_small (16 + payload)) by lia. apply u64_small. lia.
  - eapply get_u64_agree; [|by eapply get_u64_store].
    pose proof (store_agree_above _ _ _ _ Hb2) as Hab.
    rewrite length_le_encode in Hab.
    eapply agree_weaken; [exact Hab|lia..].
Qed.

Lemma item_size_eq payload :
  0 ≤ payload < 2 ^ 62 →
  KDBUS_ITEM_SIZE payload = KDBUS_ALIGN8 (KDBUS_ITEM_HEADER_SIZE + payload).
Proof.
  intros Hp. unfold KDBUS_ITEM_SIZE, KDBUS_ITEM_HEADER_SIZE.
  rewrite (u64_small (payload + 16)) by lia. f_equal. lia.
Qed.

(** What a successful [kdbus_meta_append_item] leaves in the buffer. *)
Lemma append_item_bytes type payload w m item w' m' its :
  holds m its → 0 ≤ payload < 2 ^ 62 →
  kdbus_meta_append_item type payload (w, m) = Some (inr item, (w', m')) →
  item = meta_size m ∧
  ∃ buf', meta_data m' = Some buf' ∧
    (∀ buf, meta_data m = Some buf → agree 0 item buf buf') ∧
    get_u64 item buf' = Some (KDBUS_ITEM_HEADER_SIZE + payload) ∧
    get_u64 (item + 8) buf' = Some (u64 type) ∧
    meta_size m' = item + KDBUS_ITEM_SIZE payload ∧
    meta_size m' ≤ Z.of_nat (length buf').
Proof.
  intros Hm Hp. unfold kdbus_meta_append_item.
  pose proof (item_size_bounds payload Hp) as (_ & Hextra & _).
  set (extra := KDBUS_ITEM_SIZE payload) in *.
  assert (Hex : 0 ≤ extra < 2 ^ 62 + 24) by lia.
  unfold mbind at 1, M_bind at 1.
  destruct (meta_first_alloc extra (w, m)) as [[ok1 [w1 m1]]|] eqn:H1; [|done].
  destruct (first_alloc_spec _ _ _ _ _ _ _ Hm H1) as [Ha1 Hr1].
  destruct ok1; simpl; [|done].
  destruct Hr1 as (Hm1 & [b1 Hd1] & Hs1).
  unfold mbind at 1, M_bind at 1.
  destruct (meta_grow extra (w1, m1)) as [[ok2 [w2 m2]]|] eqn:H2; [|done].
  destruct (grow_spec _ _ _ _ _ _ _ Hm1 ltac:(by eexists) Hex H2)
    as [Ha2 Hr2].
  destruct ok2; simpl; [|done].
  destruct Hr2 as (Hm2 & _ & Hs2 & Hroom).
  destruct (grow_agree _ _ _ _ _ _ _ Hm1 Hd1 Hex H2)
    as (b2 & Hd2 & Hag2).
  unfold mbind at 1, M_bind at 1.
  destruct (meta_insert type payload extra (w2, m2)) as [[it [w3 m3]]|]
    eqn:H3; [|done].
  pose proof Hm2 as (Hsz2 & _ & Hmax2 & Hdata2).
  rewrite Hd2 in Hdata2. destruct Hdata2 as [Hlen2 _].
  destruct (insert_bytes _ _ _ _ _ _ _ _ _ Hd2 (proj1 Hsz2) Hp H3)
    as (b3 & Hd3 & -> & _ & Hl3 & Hag3 & _ & Hsize & Htype).
  destruct (insert_keeps_capacity _ _ _ _ _ _ _ _ H3) as (Hcap3 & _ & Hs3).
  assert (Hkm : KMALLOC_MAX_SIZE = 2 ^ 22) by done.
  rewrite u64_small in Hs3 by lia.
  intros [= <- <- <-]. split; [congruence|].
  exists b3. split_and!; try done; try lia.
  intros buf Hd.
  assert (b1 = buf) as ->.
  { destruct (first_alloc_cases _ _ _ _ _ _ _ Hm Hex H1)
      as [(_ & Hn & _)|[(_ & _ & -> & _)|(_ & Hn & _)]]; congruence. }
  rewrite <- Hs2 in Hag2.
  eapply agree_trans; [exact Hag2|exact Hag3].
Qed.

(** X15: a record appended with its data can be read back: at the old
    end of the buffer stand its size, 16 more than the length, and its
    type, then the bytes given; the records before it are as they were,
    and the buffer ends behind the record, on the next 8-byte boundary. *)
Theorem X15_append_data_read_back type d len w m its ret w' m' :
  holds m its → 0 < len < 2 ^ 62 →
  kdbus_meta_append_data type (Some d) len (w, m) = Some (ret, (w', m')) →
  0 ≤ ret →
  ∃ buf', meta_data m' = Some buf' ∧
    get_u64 (meta_size m) buf' = Some (KDBUS_ITEM_HEADER_SIZE + len) ∧
    get_u64 (meta_size m + 8) buf' = Some (u64 type) ∧
    slice (meta_size m + KDBUS_ITEM_HEADER_SIZE) len buf'
      = Some (take (Z.to_nat len) d) ∧
    meta_size m' = meta_size m + KDBUS_ALIGN8 (KDBUS_ITEM_HEADER_SIZE + len) ∧
    (∀ buf, meta_data m = Some buf → agree 0 (meta_size m) buf buf').
Proof.
  intros Hm Hlen. unfold kdbus_meta_append_data.
  assert (Hp : 0 ≤ len < 2 ^ 62) by lia.
  rewrite bool_decide_eq_false_2 by lia.
  unfold mbind at 1, M_bind at 1.
  destruct (kdbus_meta_append_item type len (w, m)) as [[r [w1 m1]]|] eqn:H1;
    [|done].
  destruct (append_item_spec _ _ _ _ _ _ _ _ Hm Hp H1) as [_ Hr].
  destruct r as [err|item].
  { destruct Hr as [-> _]. intros [= <- <- <-]. unfold ENOMEM. lia. }
  destruct (append_item_bytes _ _ _ _ _ _ _ _ Hm Hp H1)
    as (-> & b1 & Hd1 & Hold & Hsize & Htype & Hs1 & Hfit).
  unfold item_store, meta_store. run_M.
  destruct (slice 0 len d) as [bytes|] eqn:Hbytes; [|done]. simpl.
  rewrite Hd1. simpl.
  destruct (store _ bytes b1) as [b2|] eqn:Hb2; [|done]. simpl.
  intros [= <- <- <-] _. exists b2. simpl.
  pose proof (store_agree_below _ _ _ _ Hb2) as Hag.
  destruct Hm as ((Hs0 & _) & _).
  unfold KDBUS_ITEM_HEADER_SIZE in *.
  split_and!; try done.
  - eapply get_u64_agree; [|done]. eapply agree_weaken; [done|lia..].
  - eapply get_u64_agree; [|done]. eapply agree_weaken; [done|lia..].
  - pose proof (length_slice _ _ _ _ Hbytes) as Hbl.
    rewrite Z.add_0_r in Hb2.
    rewrite <- Hbl at 1. rewrite (slice_store _ _ _ _ Hb2).
    by apply slice_Some in Hbytes as (_ & _ & _ & ->).
  - rewrite Hs1, item_size_eq by lia. done.
  - intros buf Hd. eapply agree_trans; [by apply Hold|].
    eapply agree_weaken; [done|lia..].
Qed.

(** After a growth the new item starts in bytes that kmalloc handed out:
    only its header is written. *)
Lemma append_item_heap_bytes type len g w0 m its buf item w1 m1 :
  holds m its → meta_data m = Some buf → 0 ≤ len < 2 ^ 62 →
  meta_allocated_size m < meta_size m + KDBUS_ITEM_SIZE len →
  kdbus_meta_append_item type len (Some g :: w0, m)
    = Some (inr item, (w1, m1)) →
  ∃ b3, meta_data m1 = Some b3 ∧ item = meta_size m ∧
    meta_allocated_size m ≤ Z.of_nat (length b3) ∧
    ∀ i : nat,
      meta_size m + KDBUS_ITEM_HEADER_SIZE ≤ Z.of_nat i
        < meta_allocated_size m →
      b3 !! i = Some (default 0 (g !! i)).
Proof.
  intros Hm Hd Hp Hgrow. unfold kdbus_meta_append_item.
  pose proof (item_size_bounds len Hp) as (_ & Hextra & _).
  set (extra := KDBUS_ITEM_SIZE len) in *.
  assert (Hex : 0 ≤ extra < 2 ^ 62 + 24) by lia.
  assert (H1 : meta_first_alloc extra (Some g :: w0, m)
               = Some (true, (Some g :: w0, m))).
  { unfold meta_first_alloc. run_M. by rewrite Hd. }
  unfold mbind at 1, M_bind at 1. rewrite H1. simpl.
  unfold mbind at 1, M_bind at 1.
  destruct (meta_grow extra (Some g :: w0, m)) as [[ok2 [w2 m2]]|] eqn:H2;
    [|done].
  destruct (grow_spec _ _ _ _ _ _ _ Hm ltac:(by eexists) Hex H2)
    as [_ Hr2].
  destruct ok2; simpl; [|done].
  destruct Hr2 as (Hm2 & _ & Hs2 & Hroom).
  destruct (grow_bytes _ _ _ _ _ _ _ _ Hm Hd Hex Hgrow H2)
    as (b2 & Hd2 & _ & _ & Hheap).
  unfold mbind at 1, M_bind at 1.
  destruct (meta_insert type len extra (w2, m2)) as [[it [w3 m3]]|]
    eqn:H3; [|done].
  pose proof Hm2 as (Hsz2 & _ & _ & Hdata2).
  rewrite Hd2 in Hdata2. destruct Hdata2 as [Hlen2 _].
  destruct (insert_bytes _ _ _ _ _ _ _ _ _ Hd2 (proj1 Hsz2) Hp H3)
    as (b3 & Hd3 & -> & _ & Hl3 & _ & Hag3 & _).
  intros [= <- <- <-]. exists b3. split_and!; [done|done|lia|].
  unfold KDBUS_ITEM_HEADER_SIZE.
  intros i Hi. rewrite (Hag3 i) by lia. apply Hheap. lia.
Qed.

(** X16: space made with a NULL data pointer is not cleared when the
    buffer has to grow for it: the bytes of the new record's data that lie
    below the old capacity are those of the object kmalloc returned,
    neither copied from the old buffer nor set to zero. *)
Theorem X16_growth_leaves_heap_bytes type len g w0 m its buf ret w' m' :
  holds m its → meta_data m = Some buf → 0 < len < 2 ^ 62 →
  meta_allocated_size m < meta_size m + KDBUS_ITEM_SIZE len →
  kdbus_meta_append_data type None len (Some g :: w0, m)
    = Some (ret, (w', m')) →
  0 ≤ ret →
  ∃ buf', meta_data m' = Some buf' ∧
    meta_allocated_size m ≤ Z.of_nat (length buf') ∧
    ∀ i : nat,
      meta_size m + KDBUS_ITEM_HEADER_SIZE ≤ Z.of_nat i
        < meta_allocated_size m →
      buf' !! i = Some (default 0 (g !! i)).
Proof.
  intros Hm Hd Hlen Hgrow. unfold kdbus_meta_append_data.
  assert (Hp : 0 ≤ len < 2 ^ 62) by lia.
  rewrite bool_decide_eq_false_2 by lia.
  unfold mbind at 1, M_bind at 1.
  destruct (kdbus_meta_append_item type len (Some g :: w0, m))
    as [[r [w1 m1]]|] eqn:Hitem; [|done].
  destruct (append_item_spec _ _ _ _ _ _ _ _ Hm Hp Hitem) as [_ Hr].
  destruct r as [err|item].
  { destruct Hr as [-> _]. intros [= <- <- <-]. unfold ENOMEM. lia. }
  destruct (append_item_heap_bytes _ _ _ _ _ _ _ _ _ _ Hm Hd Hp Hgrow Hitem)
    as (b3 & Hd3 & -> & Hl3 & Hheap).
  run_M. intros [= <- <- <-] _. by exists b3.
Qed.

Section Attach.
Context `{kdbus_h}.

(** X12: what a successful kdbus_meta_append was asked for is attached
    once and for all: any later call that asks only for bits of that mask
    returns 0 and leaves the object as it is, whatever the task, the
    connection and the sequence number are.  So names asked for without a
    connection are not added by a later call that brings one. *)
Theorem X12_attached_bits_are_final current conn seq which w m ret w1 m1 :
  kdbus_meta_append current conn seq which (w, m) = Some (ret, (w1, m1)) →
  0 ≤ ret →
  ∀ current' conn' seq' which' w2,
    Z.land which' (Z.lnot which) = 0 →
    kdbus_meta_append current' conn' seq' which' (w2, m1)
    = Some (0, (w2, m1)).
Proof.
  intros Hrun Hret current' conn' seq' which' w2 Hsub.
  assert (Ha : meta_attached m1
               = Z.lor (meta_attached m)
                   (Z.land which (Z.lnot (meta_attached m)))).
  { revert Hrun. unfold kdbus_meta_append.
    unfold mbind at 1, M_bind at 1, get_meta at 1. simpl.
    set (mask := Z.land which (Z.lnot (meta_attached m))).
    case_bool_decide as Hmask.
    { intros [= <- <- <-]. by rewrite Hmask, Z.lor_0_r. }
    unfold checked. unfold mbind at 1, M_bind at 1.
    destruct (append_records current conn seq mask (w, m))
      as [[r [w' m']]|] eqn:H1; [|done].
    pose proof (ka_append_records current conn seq mask _ _ _ _ _ H1) as Hk.
    case_bool_decide as Hneg; [intros [= <- <- <-]; lia|].
    run_M. intros [= <- <- <-]. simpl. by rewrite Hk. }
  unfold kdbus_meta_append.
  unfold mbind at 1, M_bind at 1, get_meta at 1. simpl.
  rewrite Ha. by rewrite (mask_within which which' _ _ Hsub eq_refl).
Qed.

(** X17: a timestamp record appended with sequence number 0 has no
    sequence number written; when the buffer has to grow for the record
    and the field lies below the old capacity, it holds the bytes of the
    object kmalloc returned. *)
Theorem X17_timestamp_seqnum_unwritten current g w0 m its buf ret w' m' :
  holds m its → meta_data m = Some buf →
  meta_size m + KDBUS_ITEM_HEADER_SIZE + 8 ≤ meta_allocated_size m →
  meta_allocated_size m < meta_size m + KDBUS_ITEM_SIZE sizeof_kdbus_timestamp →
  kdbus_meta_append_timestamp current 0 (Some g :: w0, m)
    = Some (ret, (w', m')) →
  0 ≤ ret →
  ∃ buf', meta_data m' = Some buf' ∧
    ∀ i : nat,
      meta_size m + KDBUS_ITEM_HEADER_SIZE ≤ Z.of_nat i
        < meta_size m + KDBUS_ITEM_HEADER_SIZE + 8 →
      buf' !! i = Some (default 0 (g !! i)).
Proof.
  intros Hm Hd Hin Hgrow. unfold kdbus_meta_append_timestamp.
  assert (Hp : 0 ≤ sizeof_kdbus_timestamp < 2 ^ 62) by done.
  unfold mbind at 1, M_bind at 1.
  destruct (kdbus_meta_append_item _ _ (Some g :: w0, m))
    as [[r [w1 m1]]|] eqn:Hitem; [|done].
  destruct (append_item_spec _ _ _ _ _ _ _ _ Hm Hp Hitem) as [_ Hr].
  destruct r as [err|item].
  { destruct Hr as [-> _]. intros [= <- <- <-]. unfold ENOMEM. lia. }
  destruct (append_item_heap_bytes _ _ _ _ _ _ _ _ _ _ Hm Hd Hp Hgrow Hitem)
    as (b3 & Hd3 & -> & Hl3 & Hheap).
  rewrite bool_decide_eq_false_2 by lia.
  unfold item_store, meta_store. run_M. rewrite Hd3. simpl.
  destruct (store _ _ b3) as [b4|] eqn:Hb4; [|done]. simpl.
  destruct (store _ _ b4) as [b5|] eqn:Hb5; [|done]. simpl.
  intros [= <- <- <-] _. exists b5. simpl. split; [done|].
  unfold KDBUS_ITEM_HEADER_SIZE in *. intros i Hi.
  rewrite (store_agree_below _ _ _ _ Hb5 i) by lia.
  rewrite (store_agree_below _ _ _ _ Hb4 i) by lia.
  apply Hheap. lia.
Qed.

End Attach.

(** X19: KDBUS_ALIGN8 on a 64-bit value.  Up to 2^64 - 8 it yields the
    least multiple of 8 that is not below its argument, and it leaves a
    multiple of 8 alone; on the seven values above, the sum wraps and the
    result is 0. *)
Theorem X19_align8_rounds_up_or_wraps l :
  0 ≤ l < 2 ^ 64 →
  (l + 7 < 2 ^ 64 →
   l ≤ KDBUS_ALIGN8 l < l + 8 ∧ KDBUS_ALIGN8 l mod 8 = 0 ∧
   (∀ a, l ≤ a → a mod 8 = 0 → KDBUS_ALIGN8 l ≤ a) ∧
   (l mod 8 = 0 → KDBUS_ALIGN8 l = l)) ∧
  (2 ^ 64 ≤ l + 7 → KDBUS_ALIGN8 l = 0).
Proof.
  intros Hl. split.
  - intros Hw. pose proof (KDBUS_ALIGN8_bounds l ltac:(lia) Hw) as [Hb Hm].
    split_and!; [lia..|done| |].
    + intros a Ha Ham.
      apply Z.mod_divide in Hm as [q Hq]; [|lia].
      apply Z.mod_divide in Ham as [p Hp]; [|lia]. nia.
    + intros Hl8.
      apply Z.mod_divide in Hm as [q Hq]; [|lia].
      apply Z.mod_divide in Hl8 as [p Hp]; [|lia]. nia.
  - intros Hw. rewrite KDBUS_ALIGN8_eq. unfold u64.
    replace ((l + 7) mod 2 ^ 64) with (l + 7 - 2 ^ 64).
    2:{ apply Z.mod_unique with 1; lia. }
    rewrite Z.div_small by lia. done.
Qed.

(** *** No access outside the buffer

    [None] in [M] is an access outside an object.  A function is safe
    when it commits none on a buffer that holds items. *)

Definition safe (f : M Z) : Prop :=
  ∀ w m its, holds m its → is_Some (f (w, m)).

(** [f] stays inside the first [n] payload bytes of the open item. *)
Definition safe_in (item n : Z) {A} (f : M A) : Prop :=
  ∀ w m its type size,
    open_at m its item type size → KDBUS_ITEM_HEADER_SIZE + n ≤ size →
    is_Some (f (w, m)).

Lemma first_alloc_total extra s : is_Some (meta_first_alloc extra s).
Proof.
  destruct s as [w m]. unfold meta_first_alloc, kzalloc. run_M.
  destruct (meta_data m); [by eexists|].
  destruct w as [|[g|] w0]; simpl; try by eexists.
  case_bool_decide; simpl; by eexists.
Qed.

Lemma store_total off bs buf :
  0 ≤ off → off + Z.of_nat (length bs) ≤ Z.of_nat (length buf) →
  ∃ buf', store off bs buf = Some buf' ∧ length buf' = length buf.
Proof.
  intros Hoff Hin. unfold store. rewrite bool_decide_eq_true_2 by done.
  eexists. split; [done|]. unfold blit.
  rewrite !length_app, length_take, length_drop. lia.
Qed.

Lemma grow_total extra w m its :
  holds m its → is_Some (meta_data m) → 0 ≤ extra < 2 ^ 62 + 24 →
  is_Some (meta_grow extra (w, m)).
Proof.
  intros (Hsz & Hal & Hmax & Hdata) [buf Hd] Hex.
  rewrite Hd in Hdata. destruct Hdata as [Hlen Hits].
  assert (Hkm : KMALLOC_MAX_SIZE = 2 ^ 22) by done.
  unfold meta_grow, kmalloc. run_M.
  rewrite (u64_small (meta_size m + extra)) by lia.
  case_bool_decide as Hgrow; [|by eexists].
  set (size := roundup_pow_of_two _) in *.
  destruct (roundup_pow_of_two_ge (meta_size m + extra)) as [Hge Hle];
    [lia|]. fold size in Hge, Hle.
  destruct w as [|[g|] w0]; simpl; try by eexists.
  case_bool_decide as Hfit; simpl; [|by eexists].
  rewrite Hd. simpl.
  unfold slice. rewrite bool_decide_eq_true_2 by lia. simpl.
  destruct (store_total 0 (take (Z.to_nat (meta_size m))
                             (drop (Z.to_nat 0) buf))
              (resize (Z.to_nat size) 0 g)) as (d1 & -> & Hl1);
    [lia|rewrite length_take, length_drop, length_resize; lia|].
  simpl. rewrite length_resize in Hl1.
  rewrite (u64_small (size - _)) by lia.
  destruct (store_total (meta_allocated_size m)
              (replicate (Z.to_nat (size - meta_allocated_size m)) 0) d1)
    as (d2 & -> & _); [lia|rewrite length_replicate; lia|].
  simpl. by eexists.
Qed.

Lemma insert_total type payload extra w m buf :
  meta_data m = Some buf → 0 ≤ meta_size m →
  meta_size m + KDBUS_ITEM_HEADER_SIZE ≤ Z.of_nat (length buf) →
  is_Some (meta_insert type payload extra (w, m)).
Proof.
  intros Hd Hs Hroom. unfold KDBUS_ITEM_HEADER_SIZE in Hroom.
  unfold meta_insert, meta_store. run_M. rewrite Hd. simpl.
  destruct (store_total (meta_size m + 8) (le_encode 8 type) buf)
    as (b1 & -> & Hl1); [lia|rewrite length_le_encode; lia|]. simpl.
  destruct (store_total (meta_size m)
              (le_encode 8 (u64 (KDBUS_ITEM_HEADER_SIZE + payload))) b1)
    as (b2 & -> & Hl2); [lia|rewrite length_le_encode; lia|]. simpl.
  by eexists.
Qed.

Lemma append_item_total type payload w m its :
  holds m its → 0 ≤ payload < 2 ^ 62 →
  is_Some (kdbus_meta_append_item type payload (w, m)).
Proof.
  intros Hm Hp. unfold kdbus_meta_append_item.
  pose proof (item_size_bounds payload Hp) as (_ & Hextra & _).
  set (extra := KDBUS_ITEM_SIZE payload) in *.
  assert (Hex : 0 ≤ extra < 2 ^ 62 + 24) by lia.
  unfold mbind at 1, M_bind at 1.
  destruct (first_alloc_total extra (w, m)) as [[ok1 [w1 m1]] H1].
  rewrite H1.
  destruct (first_alloc_spec _ _ _ _ _ _ _ Hm H1) as [_ Hr1].
  destruct ok1; simpl; [|by eexists].
  destruct Hr1 as (Hm1 & Hd1 & Hs1).
  unfold mbind at 1, M_bind at 1.
  destruct (grow_total extra w1 m1 its Hm1 Hd1 Hex) as [[ok2 [w2 m2]] H2].
  rewrite H2.
  destruct (grow_spec _ _ _ _ _ _ _ Hm1 Hd1 Hex H2) as [_ Hr2].
  destruct ok2; simpl; [|by eexists].
  destruct Hr2 as (Hm2 & [b2 Hd2] & Hs2 & Hroom).
  pose proof Hm2 as (Hsz2 & _ & _ & Hdata2).
  rewrite Hd2 in Hdata2. destruct Hdata2 as [Hlen2 _].
  unfold mbind at 1, M_bind at 1.
  destruct (insert_total type payload extra w2 m2 b2 Hd2 (proj1 Hsz2))
    as [[item [w3 m3]] H3]; [unfold KDBUS_ITEM_HEADER_SIZE; lia|].
  rewrite H3. by eexists.
Qed.

Lemma safe_in_mret item n {A} (a : A) : safe_in item n (mret a).
Proof. intros w m its ty sz _ _. by eexists. Qed.

Lemma safe_in_item_store item n k bs :
  0 ≤ k → k + Z.of_nat (length bs) ≤ n → safe_in item n (item_store item k bs).
Proof.
  intros Hk Hn w m its ty sz
    (buf & Hd & Hlen & Hmax & Hits & Hs & Ht & Hsz & Hw & Hsize & Hfit) Hpay.
  pose proof (align8_ge sz Hsz Hw) as (? & ? & _).
  pose proof (items_in_le _ _ _ _ Hits).
  unfold item_store, meta_store, KDBUS_ITEM_HEADER_SIZE in *. run_M.
  rewrite Hd. simpl.
  destruct (store_total (item + 16 + k) bs buf) as (b1 & -> & _); [lia..|].
  by eexists.
Qed.

Lemma safe_in_seq item n {A} (f : M unit) (g : M A) :
  fills item f → safe_in item n f → safe_in item n g →
  safe_in item n (f;; g).
Proof.
  intros Hfill Hf Hg w m its ty sz Ho Hsz. unfold mbind, M_bind.
  destruct (Hf w m its ty sz Ho Hsz) as [[[] [w1 m1]] H1]. rewrite H1.
  destruct (Hfill _ _ _ _ _ _ _ Ho H1) as [_ Ho1].
  by apply (Hg w1 m1 its ty sz).
Qed.

Lemma safe_in_safe item n (k : M Z) : safe k → safe_in item n k.
Proof. intros Hk w m its ty sz Ho _. eapply Hk. by eapply open_at_holds. Qed.

Lemma safe_mret ret : safe (mret ret).
Proof. intros w m its _. by eexists. Qed.

Lemma safe_checked f k E : safe f → runs f E → safe k → safe (checked f k).
Proof.
  intros Hf Hr Hk w m its Hm. unfold checked.
  unfold mbind at 1, M_bind at 1.
  destruct (Hf w m its Hm) as [[r1 [w1 m1]] H1]. rewrite H1.
  destruct (Hr _ _ _ _ _ _ Hm H1) as (_ & P & Hm1 & _).
  case_bool_decide; [by eexists|]. by eapply Hk.
Qed.

Lemma safe_when_checked (c : bool) f k E :
  safe f → runs f E → safe k → safe (when_checked c f k).
Proof.
  intros Hf Hr Hk. unfold when_checked. destruct c; [|done].
  by eapply safe_checked.
Qed.

Lemma safe_page k :
  safe k →
  safe (page ← get_free_page; if negb page then mret (- ENOMEM) else k).
Proof.
  intros Hk w m its Hm. unfold get_free_page. run_M.
  destruct w as [|[g|] w0]; simpl; try by eexists.
  by eapply Hk.
Qed.

Lemma safe_item type payload (body : Z → M Z) :
  0 ≤ payload < 2 ^ 62 →
  (∀ item, safe_in item payload (body item)) →
  safe (r ← kdbus_meta_append_item type payload;
        match r with
        | inl err => mret err
        | inr item => body item
        end).
Proof.
  intros Hp Hbody w m its Hm. unfold mbind at 1, M_bind at 1.
  destruct (append_item_total type payload w m its Hm Hp)
    as [[r [w1 m1]] H1]. rewrite H1.
  destruct (append_item_spec _ _ _ _ _ _ _ _ Hm Hp H1) as [_ Hr].
  destruct r as [err|item]; [by eexists|].
  by eapply Hbody.
Qed.

Lemma safe_append_data type d len :
  0 ≤ len < 2 ^ 62 → len ≤ Z.of_nat (length d) →
  safe (kdbus_meta_append_data type (Some d) len).
Proof.
  intros Hlen Hd. unfold kdbus_meta_append_data.
  case_bool_decide; [apply safe_mret|].
  apply safe_item; [done|]. intros item w m its ty sz Ho Hsz.
  unfold slice. rewrite bool_decide_eq_true_2 by lia.
  unfold mbind at 1, M_bind at 1. unfold mbind at 1, M_bind at 1.
  unfold must at 1, mret at 1, M_ret at 1.
  destruct (safe_in_item_store item len 0
              (take (Z.to_nat len) (drop (Z.to_nat 0) d))
              ltac:(done)) with w m its ty sz as [[[] [w1 m1]] H1];
    [rewrite length_take, length_drop; lia|done..|].
  rewrite H1. by eexists.
Qed.

Lemma length_cstr s : Z.of_nat (length (cstr s)) = strlen s.
Proof.
  unfold cstr, strlen. rewrite length_fmap. f_equal.
  induction s as [|c s IH]; simpl; congruence.
Qed.

Lemma safe_append_str type str :
  strlen str < 2 ^ 32 → safe (kdbus_meta_append_str type str).
Proof.
  intros Hlen. unfold kdbus_meta_append_str.
  assert (0 ≤ strlen str) by (unfold strlen; lia).
  rewrite u64_small by lia.
  apply safe_append_data; [lia|].
  rewrite length_app, Nat2Z.inj_add, length_cstr. simpl. lia.
Qed.

Lemma length_bind_const {A B} (f : A → list B) (n : nat) (l : list A) :
  (∀ x, length (f x) = n) → length (l ≫= f) = (n * length l)%nat.
Proof.
  intros Hf. induction l as [|x l IH]; [simpl; lia|].
  change ((x :: l) ≫= f) with (f x ++ (l ≫= f)).
  rewrite length_app, Hf, IH. simpl. lia.
Qed.

Section Safety.
Context `{kdbus_h}.
Variable current : task.

(** The length [security_secid_to_secctx] reports is that of the label
    it returns. *)
Definition secctx_sane : Prop :=
  ∀ label, secctx_label current = Some label →
    secctx_len current ≤ Z.of_nat (length label).

Lemma safe_timestamp seq : safe (kdbus_meta_append_timestamp current seq).
Proof.
  unfold kdbus_meta_append_timestamp. apply safe_item; [done|].
  intros item. unfold sizeof_kdbus_timestamp.
  apply safe_in_seq.
  - case_bool_decide; [by apply fills_item_store|apply fills_mret].
  - case_bool_decide; [|apply safe_in_mret].
    apply safe_in_item_store; [done|]. rewrite length_le_encode. lia.
  - apply safe_in_seq; [by apply fills_item_store| |].
    { apply safe_in_item_store; [done|]. rewrite length_le_encode. lia. }
    apply safe_in_seq; [by apply fills_item_store| |].
    { apply safe_in_item_store; [done|]. rewrite length_le_encode. lia. }
    apply safe_in_mret.
Qed.

Lemma safe_cred : safe (kdbus_meta_append_cred current).
Proof. unfold kdbus_meta_append_cred. by apply safe_append_data. Qed.

Lemma safe_in_store_gids item n i gids :
  0 ≤ i → 8 * (i + Z.of_nat (length gids)) ≤ n →
  safe_in item n (store_gids item i gids).
Proof.
  revert i. induction gids as [|g gids IH]; intros i Hi Hn; simpl in *.
  - apply safe_in_mret.
  - apply safe_in_seq.
    + apply fills_item_store. lia.
    + apply safe_in_item_store; [lia|]. rewrite length_le_encode. lia.
    + apply IH; lia.
Qed.

Lemma safe_auxgroups :
  task_sane current → safe (kdbus_meta_append_auxgroups current).
Proof.
  intros (Hg & _). unfold kdbus_meta_append_auxgroups.
  rewrite u64_small by lia.
  apply safe_item; [lia|]. intros item.
  apply safe_in_seq; [by apply fills_store_gids| |apply safe_in_mret].
  apply safe_in_store_gids; lia.
Qed.

Lemma safe_append_names names :
  Forall (λ e, strlen e.2 < 2 ^ 32) names → safe (append_names names).
Proof.
  induction 1 as [|[flags name] names Hn _ IH]; simpl.
  - apply safe_mret.
  - simpl in Hn. assert (0 ≤ strlen name) by (unfold strlen; lia).
    unfold sizeof_kdbus_name in *.
    rewrite (u64_small (strlen name + 1)) by lia.
    rewrite (u64_small (8 + _)) by lia.
    apply safe_item; [lia|]. intros item.
    apply safe_in_seq; [by apply fills_item_store| |].
    { apply safe_in_item_store; [done|]. rewrite length_le_encode. lia. }
    apply safe_in_seq; [by apply fills_item_store| |].
    { apply safe_in_item_store; [done|].
      rewrite length_app, Nat2Z.inj_add, length_cstr. simpl. lia. }
    by apply safe_in_safe.
Qed.

Lemma safe_src_names conn :
  conn_sane conn → safe (kdbus_meta_append_src_names conn).
Proof.
  intros Hc. unfold kdbus_meta_append_src_names.
  destruct conn as [c|]; [|apply safe_mret].
  apply safe_append_names. by apply (Hc c).
Qed.

Lemma safe_comm : safe (append_comm current).
Proof.
  pose proof (strlen_string_take 15 (group_leader_comm current)).
  pose proof (strlen_string_take 15 (cur_comm current)).
  unfold append_comm. eapply safe_checked.
  - apply safe_append_str. lia.
  - apply runs_append_str. lia.
  - apply safe_append_str. lia.
Qed.

Lemma safe_exe : task_sane current → safe (kdbus_meta_append_exe current).
Proof.
  intros (_ & Hexe & _). unfold kdbus_meta_append_exe.
  destruct (cur_mm current) as [mm|] eqn:Hmm; [|apply safe_mret].
  destruct (mm_exe_file mm) as [[err|path]|] eqn:Hp; [| |apply safe_mret].
  - apply safe_page, safe_mret.
  - apply safe_page. apply safe_append_data; [|done].
    specialize (Hexe mm path eq_refl Hp). unfold PAGE_SIZE in Hexe. lia.
Qed.

Lemma safe_cmdline : safe (kdbus_meta_append_cmdline current).
Proof.
  unfold kdbus_meta_append_cmdline. apply safe_page.
  destruct (cur_mm current) as [mm|] eqn:Hmm; [|apply safe_mret].
  case_bool_decide; [apply safe_mret|].
  pose proof (u64_range (mm_arg_end mm - mm_arg_start mm)).
  apply safe_append_data; rewrite ?length_resize; unfold PAGE_SIZE;
    case_bool_decide; lia.
Qed.

Lemma length_cap_words set :
  length (cap_words set) = _KERNEL_CAPABILITY_U32S.
Proof. unfold cap_words. by rewrite length_alter, length_resize. Qed.

Lemma safe_caps : safe (kdbus_meta_append_caps current).
Proof.
  unfold kdbus_meta_append_caps. apply safe_append_data; [done|].
  rewrite (length_bind_const _ 8).
  - simpl. lia.
  - intros set. rewrite (length_bind_const _ 4).
    + by rewrite length_cap_words.
    + intros v. apply length_le_encode.
Qed.

Lemma safe_cgroup :
  task_sane current → safe (kdbus_meta_append_cgroup current).
Proof.
  intros (_ & _ & Hcg & _). unfold kdbus_meta_append_cgroup.
  apply safe_page.
  destruct (cgroup_path current) as [path|] eqn:Hp; [|apply safe_mret].
  apply safe_append_str. specialize (Hcg path eq_refl).
  unfold PAGE_SIZE in Hcg. lia.
Qed.

Lemma safe_audit : safe (kdbus_meta_append_audit current).
Proof. unfold kdbus_meta_append_audit. by apply safe_append_data. Qed.

Lemma safe_seclabel :
  task_sane current → secctx_sane →
  safe (kdbus_meta_append_seclabel current).
Proof.
  intros (_ & _ & _ & Hlen) Hsec. unfold kdbus_meta_append_seclabel.
  case_bool_decide; [apply safe_mret|].
  case_bool_decide; [apply safe_mret|].
  destruct (secctx_label current) as [label|] eqn:Hl; [|apply safe_mret].
  case_bool_decide; [|apply safe_mret].
  apply safe_append_data; [lia|]. by apply Hsec.
Qed.

Lemma safe_records conn seq mask :
  task_sane current → conn_sane conn → secctx_sane →
  safe (append_records current conn seq mask).
Proof.
  intros Ht Hc Hsec. unfold append_records.
  eapply safe_when_checked; [apply safe_timestamp|apply runs_timestamp|].
  eapply safe_when_checked; [apply safe_cred|apply runs_cred|].
  eapply safe_when_checked;
    [by apply safe_auxgroups|by apply runs_auxgroups|].
  eapply safe_when_checked;
    [by apply safe_src_names|by apply runs_src_names|].
  eapply safe_when_checked; [apply safe_comm|apply runs_comm|].
  eapply safe_when_checked; [by apply safe_exe|by apply runs_exe|].
  eapply safe_when_checked; [apply safe_cmdline|apply runs_cmdline|].
  eapply safe_when_checked; [apply safe_caps|apply runs_caps|].
  eapply safe_when_checked; [by apply safe_cgroup|by apply runs_cgroup|].
  eapply safe_when_checked; [apply safe_audit|apply runs_audit|].
  eapply safe_when_checked;
    [by apply safe_seclabel|by apply runs_seclabel|].
  destruct conn as [c|]; [|apply safe_mret].
  destruct (conn_name c) as [name|] eqn:Hn; [|apply safe_mret].
  eapply safe_when_checked; [| |apply safe_mret].
  - apply safe_append_str. by apply (Hc c).
  - apply runs_append_str. by apply (Hc c).
Qed.

(** X20: the capability words that are reported.  In the word that holds
    CAP_LAST_CAP the bits from (CAP_LAST_CAP + 1) mod 32 on are cleared and
    the bits below are kept; the other word is kept as it is.  When
    CAP_LAST_CAP + 1 is a multiple of 32 the mask is 0 and the whole word,
    valid capabilities included, is cleared. *)
Theorem X20_cap_words_bits set (i : nat) w j :
  0 ≤ CAP_LAST_CAP < 64 →
  resize _KERNEL_CAPABILITY_U32S 0 set !! i = Some w →
  0 ≤ j →
  ∃ w', cap_words set !! i = Some w' ∧
    Z.testbit w' j
    = Z.testbit w j
      && (bool_decide (Z.of_nat i ≠ CAP_LAST_CAP / 32)
          || bool_decide (j < (CAP_LAST_CAP + 1) mod 32)).
Proof.
  intros Hcap Hw Hj. unfold cap_words.
  rewrite Z.shiftr_div_pow2 by lia. change (2 ^ 5) with 32.
  change 31 with (Z.ones 5). rewrite Z.land_ones by lia.
  change (2 ^ 5) with 32.
  pose proof (Z.mod_pos_bound (CAP_LAST_CAP + 1) 32 ltac:(lia)) as Hk.
  set (k := (CAP_LAST_CAP + 1) mod 32) in *.
  rewrite Z.shiftl_1_l.
  replace (2 ^ k - 1) with (Z.ones k) by (rewrite Z.ones_equiv; lia).
  destruct (decide (Z.of_nat i = CAP_LAST_CAP / 32)) as [Hi|Hi].
  - replace (Z.to_nat (CAP_LAST_CAP / 32)) with i by lia.
    rewrite list_lookup_alter, Hw. simpl. rewrite decide_True by done.
    eexists. split; [reflexivity|].
    rewrite bool_decide_eq_false_2 by (intros Hne; by apply Hne). simpl.
    rewrite Z.land_spec. f_equal.
    case_bool_decide.
    + apply Z.ones_spec_low. lia.
    + apply Z.ones_spec_high. lia.
  - assert (0 ≤ CAP_LAST_CAP / 32) by (apply Z.div_pos; lia).
    rewrite list_lookup_alter_ne by lia. rewrite Hw.
    eexists. split; [reflexivity|].
    rewrite bool_decide_eq_true_2 by done. simpl. by rewrite andb_true_r.
Qed.

(** X18: kdbus_meta_append stays inside its buffers.  On an object whose
    buffer holds whole items, for a task and a connection of sane sizes,
    no store goes outside the metadata buffer and no copy reads beyond
    its source, whatever the mask is and whichever allocations fail: the
    call returns. *)
Theorem X18_append_stays_in_bounds conn seq which w m its :
  holds m its → task_sane current → conn_sane conn → secctx_sane →
  ∃ ret w' m',
    kdbus_meta_append current conn seq which (w, m) = Some (ret, (w', m')) ∧
    ret ≤ 0.
Proof.
  intros Hm Ht Hc Hsec. unfold kdbus_meta_append.
  unfold mbind at 1, M_bind at 1, get_meta at 1. simpl.
  set (mask := Z.land which (Z.lnot (meta_attached m))).
  case_bool_decide as Hmask; [by exists 0, w, m|].
  unfold checked. unfold mbind at 1, M_bind at 1.
  destruct (safe_records conn seq mask Ht Hc Hsec w m its Hm)
    as [[r [w1 m1]] H1]. rewrite H1.
  case_bool_decide as Hneg.
  - exists r, w1, m1. split; [done|lia].
  - run_M. eexists _, _, _. split; [done|lia].
Qed.

End Safety.

(** A buffer of 512 bytes with two records, of 200 and 256 bytes of
    data, as two calls on a fresh object leave it: 488 bytes are in use. *)
Definition two_records : kdbus_meta :=
  match (kdbus_meta_append_data 7 None 200;;
         kdbus_meta_append_data 7 None 256) ([Some []], meta0) with
  | Some (_, (_, m)) => m
  | None => meta0
  end.

Lemma two_records_holds : holds two_records [(7, 216); (7, 272)].
Proof.
  unfold holds. split_and!; [by vm_compute..|].
  split; [by vm_compute|].
  apply (parse_items_sound 2). vm_compute. reflexivity.
Defined.

Lemma two_records_cap_ok : cap_ok two_records.
Proof. exists 9. split; [lia|]. vm_compute. reflexivity. Defined.

(** An object of 1024 bytes as kmalloc may return it: every byte 0xaa. *)
Definition heap_bytes : list Z := replicate 1024 0xaa.

#[local] Existing Instance sample_kdbus_h.

(** X12 at a call for CREDS|COMM|NAMES without a connection on a fresh
    object, followed by a call for NAMES with a connection that owns a
    name: the second call adds nothing. *)
Lemma X12_attached_bits_are_final_witness :
  ∃ m1,
    kdbus_meta_append sample_task None 42 (2 + 16 + 8) ([Some []], meta0)
      = Some (0, ([], m1)) ∧
    kdbus_meta_append sample_task
      (Some {| conn_names_list := [(0, "org.bus"%string)];
               conn_name := Some "conn"%string |}) 43 8 ([Some []], m1)
      = Some (0, ([Some []], m1)).
Proof.
  eexists. split; [vm_compute; reflexivity|].
  eapply (X12_attached_bits_are_final sample_task None 42 (2 + 16 + 8)
            [Some []] meta0 0 []).
  - vm_compute. reflexivity.
  - lia.
  - reflexivity.
Defined.

(** X13 at a record of 24 bytes for which the buffer of [two_records] has
    to grow while kmalloc fails. *)
Lemma X13_failed_item_leaves_object_witness :
  kdbus_meta_append_data 7 None 24 ([None], two_records)
    = Some (- ENOMEM, ([], two_records)) ∧
  (- ENOMEM = - ENOMEM ∧ two_records = two_records).
Proof.
  split; [vm_compute; reflexivity|].
  eapply (proj2 X13_failed_item_leaves_object 7 None 24 [None] two_records
            _ (- ENOMEM) [] two_records two_records_holds).
  - lia.
  - vm_compute. reflexivity.
  - reflexivity.
Defined.

(** X14 at the same record when kmalloc succeeds: the capacity goes from
    512 to 1024 bytes. *)
Lemma X14_capacity_power_of_two_witness :
  ∃ m',
    kdbus_meta_append_item 7 24 ([Some heap_bytes], two_records)
      = Some (inr 488, ([], m')) ∧
    meta_allocated_size m' = 1024 ∧
    cap_ok m' ∧
    meta_allocated_size two_records ≤ meta_allocated_size m' ∧
    meta_allocated_size m' ≤
      Z.max (meta_allocated_size two_records)
            (2 * (256 + meta_size two_records + KDBUS_ITEM_SIZE 24)) ∧
    (∀ item : Z, (inr 488 : Z + Z) = inr item →
       512 ≤ meta_allocated_size m' ∧
       meta_size m' = meta_size two_records + KDBUS_ITEM_SIZE 24 ∧
       meta_size m' ≤ meta_allocated_size m').
Proof.
  eexists. split; [vm_compute; reflexivity|]. split; [reflexivity|].
  eapply (X14_capacity_power_of_two 7 24 [Some heap_bytes] two_records
            _ (inr 488) [] _ two_records_holds two_records_cap_ok).
  - lia.
  - vm_compute. reflexivity.
Defined.

(** X15 at three bytes of data appended to [two_records]. *)
Lemma X15_append_data_read_back_witness :
  ∃ m',
    kdbus_meta_append_data 9 (Some [1; 2; 3; 4]) 3 ([], two_records)
      = Some (0, ([], m')) ∧
    ∃ buf', meta_data m' = Some buf' ∧
      get_u64 (meta_size two_records) buf' = Some (KDBUS_ITEM_HEADER_SIZE + 3) ∧
      get_u64 (meta_size two_records + 8) buf' = Some (u64 9) ∧
      slice (meta_size two_records + KDBUS_ITEM_HEADER_SIZE) 3 buf'
        = Some (take (Z.to_nat 3) [1; 2; 3; 4]) ∧
      meta_size m'
        = meta_size two_records + KDBUS_ALIGN8 (KDBUS_ITEM_HEADER_SIZE + 3) ∧
      (∀ buf, meta_data two_records = Some buf →
         agree 0 (meta_size two_records) buf buf').
Proof.
  eexists. split; [vm_compute; reflexivity|].
  eapply (X15_append_data_read_back 9 [1; 2; 3; 4] 3 [] two_records
            _ 0 [] _ two_records_holds).
  - lia.
  - vm_compute. reflexivity.
  - lia.
Defined.

(** X16 at a record of 24 bytes made without data behind [two_records]:
    the first 8 bytes of its data are 0xaa. *)
Lemma X16_growth_leaves_heap_bytes_witness :
  ∃ m',
    kdbus_meta_append_data 7 None 24 ([Some heap_bytes], two_records)
      = Some (0, ([], m')) ∧
    ∃ buf', meta_data m' = Some buf' ∧
      meta_allocated_size two_records ≤ Z.of_nat (length buf') ∧
      ∀ i : nat,
        meta_size two_records + KDBUS_ITEM_HEADER_SIZE ≤ Z.of_nat i
          < meta_allocated_size two_records →
        buf' !! i = Some (default 0 (heap_bytes !! i)).
Proof.
  eexists. split; [vm_compute; reflexivity|].
  eapply (X16_growth_leaves_heap_bytes 7 24 heap_bytes [] two_records
            _ _ 0 [] _ two_records_holds).
  - vm_compute. reflexivity.
  - lia.
  - vm_compute. reflexivity.
  - vm_compute. reflexivity.
  - lia.
Defined.

(** X17 at a timestamp without sequence number behind [two_records]: the
    sequence number reads 0xaa in every byte. *)
Lemma X17_timestamp_seqnum_unwritten_witness :
  ∃ m',
    kdbus_meta_append_timestamp sample_task 0 ([Some heap_bytes], two_records)
      = Some (0, ([], m')) ∧
    ∃ buf', meta_data m' = Some buf' ∧
      ∀ i : nat,
        meta_size two_records + KDBUS_ITEM_HEADER_SIZE ≤ Z.of_nat i
          < meta_size two_records + KDBUS_ITEM_HEADER_SIZE + 8 →
        buf' !! i = Some (default 0 (heap_bytes !! i)).
Proof.
  eexists. split; [vm_compute; reflexivity|].
  eapply (@X17_timestamp_seqnum_unwritten sample_kdbus_h sample_task
            heap_bytes [] two_records _ _ 0 [] _ two_records_holds).
  - vm_compute. reflexivity.
  - vm_compute. discriminate.
  - vm_compute. reflexivity.
  - vm_compute. reflexivity.
  - lia.
Defined.

(** A connection that owns one name. *)
Definition sample_conn : kdbus_conn :=
  {| conn_name := Some "conn"%string;
     conn_names_list := [(0, "org.bus"%string)] |}.

Lemma sample_conn_sane : conn_sane (Some sample_conn).
Proof.
  intros c [= <-]. split.
  - intros nm [= <-]. done.
  - repeat constructor.
Defined.

Lemma sample_secctx_sane : secctx_sane sample_task.
Proof. intros label Hl. discriminate Hl. Defined.

(** X18 at a call for every record behind [two_records], where the
    buffer has to grow and the second page allocation is refused. *)
Lemma X18_append_stays_in_bounds_witness :
  ∃ ret w' m',
    kdbus_meta_append sample_task (Some sample_conn) 42 4095
      ([Some heap_bytes; Some []; None], two_records)
      = Some (ret, (w', m')) ∧
    ret ≤ 0.
Proof.
  exact (X18_append_stays_in_bounds sample_task (Some sample_conn) 42 4095
           [Some heap_bytes; Some []; None] two_records _
           two_records_holds sample_task_sane sample_conn_sane
           sample_secctx_sane).
Defined.

(** X19 at 17, which is rounded up to 24. *)
Lemma X19_align8_rounds_up_or_wraps_witness :
  (17 + 7 < 2 ^ 64 →
   17 ≤ KDBUS_ALIGN8 17 < 17 + 8 ∧ KDBUS_ALIGN8 17 mod 8 = 0 ∧
   (∀ a, 17 ≤ a → a mod 8 = 0 → KDBUS_ALIGN8 17 ≤ a) ∧
   (17 mod 8 = 0 → KDBUS_ALIGN8 17 = 17)) ∧
  (2 ^ 64 ≤ 17 + 7 → KDBUS_ALIGN8 17 = 0).
Proof. apply (X19_align8_rounds_up_or_wraps 17). lia. Defined.

(** X20 at the permitted set of the sample task, CAP_LAST_CAP being 36:
    bit 4 of the second word, capability 36, is kept. *)
Lemma X20_cap_words_bits_witness :
  ∃ w', cap_words [0xffffffff; 0xffffffff] !! 1%nat = Some w' ∧
    Z.testbit w' 4
    = Z.testbit 0xffffffff 4
      && (bool_decide (Z.of_nat 1 ≠ CAP_LAST_CAP / 32)
          || bool_decide (4 < (CAP_LAST_CAP + 1) mod 32)).
Proof.
  apply (X20_cap_words_bits [0xffffffff; 0xffffffff] 1 0xffffffff 4).
  - change (0 ≤ 36 < 64). lia.
  - reflexivity.
  - lia.
Defined.

End BufferProps.
